(** * OPBSX: Black-Scholes pricing, heatmap sweep and history reload

    A shallow embedding of the pricing engine of the OPBSX desktop tool
    ([utils/black_scholes.py], [utils/db.py], [core/db_setup.py],
    [core/calculations.py], [core/plotting.py], [core/history.py]) and of the
    two buttons of [ui/app.py] that drive it, with the properties its
    specification states about it and further properties of the code.

    Python floats are modelled by the real numbers of the Standard Library:
    every arithmetic operation is read as the exact operation on [R].  A float
    that is not a real number (nan, an infinity, or a value computed through
    one) is kept apart, see [cell] and [BlackScholes.outcome]. *)

From Stdlib Require Import Reals Lra Lia ZArith List String Bool.
From Stdlib Require Import Permutation Sorted.
Import ListNotations.

Local Open Scope R_scope.

(** ** Integrals of continuous functions

    The distribution function of the normal law is an integral of its
    density.  This section packages the Riemann integral of the Standard
    Library for an integrand that is continuous everywhere. *)

Section Primitive.

Variable f : R -> R.
Hypothesis f_cont : forall x, continuity_pt f x.

Definition integrable (a b : R) : Riemann_integrable f a b :=
  match Rle_dec a b with
  | left Hab => continuity_implies_RiemannInt Hab (fun x _ => f_cont x)
  | right Hba =>
      RiemannInt_P1
        (continuity_implies_RiemannInt
           (Rlt_le _ _ (Rnot_le_lt _ _ Hba)) (fun x _ => f_cont x))
  end.

Definition integral (a b : R) : R := RiemannInt (integrable a b).

End Primitive.

(** ** The standard normal distribution ([scipy.stats.norm]) *)

Module Norm.

(** [norm.pdf]: the density exp(-x^2/2) / sqrt(2 pi). *)
Definition pdf (x : R) : R := exp (- (x ^ 2) / 2) / sqrt (2 * PI).

Lemma pdf_continuous : forall x, continuity_pt pdf x.
Proof.
  intro x. apply derivable_continuous_pt. unfold pdf. reg.
Qed.

(** [norm.cdf]: one half plus the area under the density between 0 and
    [x], which is the form 1/2 (1 + erf (x / sqrt 2)) of the distribution
    function. *)
Definition cdf (x : R) : R := 1 / 2 + integral pdf pdf_continuous 0 x.

End Norm.

(** ** [utils/black_scholes.py] *)

Module BlackScholes.

(** The attributes set by [__init__], in its argument order. *)
Record t : Type := Build {
  time_to_maturity : R;
  strike : R;
  current_price : R;
  volatility : R;
  interest_rate : R
}.

(** The attributes stored by [run]. *)
Record outputs : Type := Outputs {
  call_price : R;
  put_price : R;
  call_delta : R;
  put_delta : R;
  call_gamma : R;
  put_gamma : R
}.

(** What a call of [run] does.  [S / K] divides two Python floats and
    raises [ZeroDivisionError] for [K = 0].  The numpy operations never
    raise: [log] of a non-positive number, [sqrt] of a negative number and
    a division by [sigma * sqrt(T) = 0] yield nan or an infinity with a
    warning, and the attributes are then not the real numbers of the
    formulas ([NonFinite]). *)
Inductive outcome : Type :=
| Priced (o : outputs)
| NonFinite
| ZeroDivision.

Definition run (self : t) : outcome :=
  let T := time_to_maturity self in
  let K := strike self in
  let S := current_price self in
  let sigma := volatility self in
  let r := interest_rate self in
  if Req_dec_T K 0 then ZeroDivision
  else if Rle_dec (S / K) 0 then NonFinite
  else if Rle_dec T 0 then NonFinite
  else if Req_dec_T sigma 0 then NonFinite
  else
    let d1 := (ln (S / K) + (r + 0.5 * sigma ^ 2) * T) / (sigma * sqrt T) in
    let d2 := d1 - sigma * sqrt T in
    let call_price := S * Norm.cdf d1 - K * exp (- r * T) * Norm.cdf d2 in
    let put_price := K * exp (- r * T) * Norm.cdf (- d2) - S * Norm.cdf (- d1) in
    let call_delta := Norm.cdf d1 in
    let put_delta := call_delta - 1 in
    let gamma := Norm.pdf d1 / (S * sigma * sqrt T) in
    Priced (Outputs call_price put_price call_delta put_delta gamma gamma).

End BlackScholes.

(** The pricing functions are unfolded on request only. *)
Arguments Norm.pdf : simpl never.
Arguments Norm.cdf : simpl never.
Arguments BlackScholes.run : simpl never.

(** ** Values shared by the core modules *)

(** A float held in a matrix, a record or a label: [Some x] is the real
    number [x], [None] is a float outside the reals (nan; also an infinity
    or a value computed through one, which the model does not tell apart). *)
Definition cell : Type := option R.

(** Formatted text.  The numbers interpolated into an f-string are kept as
    values instead of being printed. *)
Inductive frag : Type :=
| Lit (s : string)
| Int (z : option Z)                (* [{calc_id}]: an int or [None] *)
| Float (digits : nat) (x : cell)   (* [{x:.4f}] *)
| Repr (s : string).                (* [{s!r}] *)

Definition text : Type := list frag.

(** The exceptions the core raises or receives. *)
Inductive exn : Type :=
| ValueError (msg : text)
| TypeError (msg : text)
| KeyError (msg : text)
| IndexError (msg : text)
| ZeroDivisionError (msg : text)
| Error (msg : text).               (* [mysql.connector.Error] *)

(** [str(e)] *)
Definition str (e : exn) : text :=
  match e with
  | ValueError m | TypeError m | KeyError m | IndexError m
  | ZeroDivisionError m | Error m => m
  end.

(** A computation that returns or raises, without side effects. *)
Inductive result (A : Type) : Type :=
| Return (a : A)
| Raise (e : exn).
Arguments Return {A} a.
Arguments Raise {A} e.

(** The text of a [tk.StringVar] after [strip()]: empty, a float literal, or
    anything else. *)
Inductive entry : Type :=
| Blank
| Num (x : R)
| Junk (s : string).

(** The content of the resolution [tk.IntVar]. *)
Inductive int_entry : Type :=
| IntNum (n : Z)
| IntJunk (s : string).

(** ** [utils/db.py] and the MySQL tables of [core/db_setup.py] *)

Module DB.

(** A row of [option_pricing] (the server-side timestamp is left out). *)
Record option_pricing_row : Type := OptionPricing {
  calc_id : Z;
  current_price : R;
  strike_price : R;
  time_to_maturity : R;
  volatility : R;
  risk_free_interest_rate : R
}.

(** A row of [heatmap_data].  The price columns keep the cells they are
    given; what the server does with a nan is not modelled. *)
Record heatmap_row : Type := Heatmap {
  heatmap_id : Z;
  hm_calc_id : Z;
  spot : R;
  hm_volatility : R;
  hm_call_price : cell;
  hm_put_price : cell
}.

(** The tuple [(spot, vol, call_price, put_price)] exchanged with the
    core. *)
Definition record : Type := (R * R * cell * cell)%type.

(** The handler with the server behind it.  [reachable] tells whether
    [ensure_connection] gets a live connection; the two counters are the
    AUTO_INCREMENT values of the tables. *)
Record DBHandler : Type := Handler {
  reachable : bool;
  option_pricing : list option_pricing_row;
  heatmap_data : list heatmap_row;
  next_calc_id : Z;
  next_heatmap_id : Z
}.

Definition connection_lost : exn :=
  Error [Lit "Failed to connect to MySQL database"].

Definition foreign_key_fails : exn :=
  Error [Lit "Cannot add or update a child row: a foreign key constraint fails"].

(** [execute(insert_query, params)] for the INSERT into [option_pricing]:
    commits the row and returns [cursor.lastrowid]; an [Error] of the
    driver is printed and raised again. *)
Definition execute_insert_input (self : DBHandler)
    (params : R * R * R * R * R) : result Z * DBHandler :=
  if reachable self then
    let '(cp, k, t, v, r) := params in
    let id := next_calc_id self in
    (Return id,
     Handler true
       (option_pricing self ++ [OptionPricing id cp k t v r])
       (heatmap_data self) (id + 1)%Z (next_heatmap_id self))
  else (Raise connection_lost, self).

Definition has_calc (self : DBHandler) (id : Z) : bool :=
  existsb (fun row => Z.eqb (calc_id row) id) (option_pricing self).

Fixpoint number_rows (id : Z) (params : list (Z * record)) : list heatmap_row :=
  match params with
  | [] => []
  | (c, (s, v, call, put)) :: rest =>
      Heatmap id c s v call put :: number_rows (id + 1)%Z rest
  end.

(** [execute(insert_query, params, many=True)] for the INSERT into
    [heatmap_data]: [executemany] then one [commit], so the batch is
    stored whole or not at all; a row whose [calc_id] has no parent breaks
    the foreign key. *)
Definition execute_insert_heatmaps (self : DBHandler)
    (params : list (Z * record)) : result Z * DBHandler :=
  if reachable self then
    if forallb (fun p => has_calc self (fst p)) params then
      let id := next_heatmap_id self in
      (Return id,
       Handler true (option_pricing self)
         (heatmap_data self ++ number_rows id params)
         (next_calc_id self) (id + Z.of_nat (List.length params))%Z)
    else (Raise foreign_key_fails, self)
  else (Raise connection_lost, self).

(** [execute(query, (calc_id,), fetch=True)] for the SELECT of
    [core/history.py]: the rows of one calculation, ORDER BY
    [heatmap_id]. *)
Definition execute_select_heatmap (self : DBHandler)
    (id : Z) : result (list record) * DBHandler :=
  if reachable self then
    (Return
       (map (fun row => (spot row, hm_volatility row,
                         hm_call_price row, hm_put_price row))
          (filter (fun row => Z.eqb (hm_calc_id row) id) (heatmap_data self))),
     self)
  else (Raise connection_lost, self).

End DB.

(** ** The window and the effects of the core *)

Definition matrix : Type := list (list cell).

(** What a heatmap figure shows: the axes, whose ends give [extent], and the
    two matrices handed to [imshow], rows indexed by volatility and columns
    by spot. *)
Record surface : Type := Surface {
  spot_axis : list R;
  vol_axis : list R;
  call_prices : matrix;
  put_prices : matrix
}.

Inductive label : Type :=
| call_val_label | put_val_label | delta_call_label | delta_put_label
| gamma_label.

(** What the user gets to see, in order of occurrence. *)
Inductive event : Type :=
| Log (msg : text)                          (* [log_message] *)
| ShowInfo (title : string) (msg : text)    (* [messagebox.showinfo] *)
| ShowWarning (title : string) (msg : text)
| ShowError (title : string) (msg : text)
| LabelConfig (l : label) (msg : text)      (* [label.config(text=...)] *)
| Imshow (s : surface)                      (* the redrawn figure *)
| WinDestroy.                               (* [win.destroy()] *)

Record world : Type := World {
  db : DB.DBHandler;
  screen : list event
}.

(** A computation of the core: it changes the database and the window, and
    returns or raises.  What was written before an exception stays
    written. *)
Definition M (A : Type) : Type := world -> result A * world.

Definition ret {A} (a : A) : M A := fun w => (Return a, w).

Definition raise {A} (e : exn) : M A := fun w => (Raise e, w).

Definition bind {A B} (c : M A) (k : A -> M B) : M B :=
  fun w =>
    match c w with
    | (Return a, w') => k a w'
    | (Raise e, w') => (Raise e, w')
    end.

Declare Scope core_scope.
Delimit Scope core_scope with core.
Notation "x <- c ;; k" := (bind c (fun x => k))
  (at level 61, c at next level, right associativity) : core_scope.
Notation "c ;; k" := (bind c (fun _ => k))
  (at level 61, right associativity) : core_scope.
Local Open Scope core_scope.

Definition lift {A} (r : result A) : M A := fun w => (r, w).

(** [try: body except Exception as e: handler] *)
Definition try_except {A} (body : M A) (handler : exn -> M A) : M A :=
  fun w =>
    match body w with
    | (Return a, w') => (Return a, w')
    | (Raise e, w') => handler e w'
    end.

(** [try: body except Error as e: handler], for the driver's [Error] only. *)
Definition try_except_Error {A} (body : M A) (handler : exn -> M A) : M A :=
  fun w =>
    match body w with
    | (Raise (Error m), w') => handler (Error m) w'
    | other => other
    end.

Definition emit (e : event) : M unit :=
  fun w => (Return tt, World (db w) (screen w ++ [e])).

Definition log_message (msg : text) : M unit := emit (Log msg).
Definition showinfo (title : string) (msg : text) : M unit := emit (ShowInfo title msg).
Definition showwarning (title : string) (msg : text) : M unit := emit (ShowWarning title msg).
Definition showerror (title : string) (msg : text) : M unit := emit (ShowError title msg).

(** A call of a [DBHandler.execute] model on the handler of the world. *)
Definition db_execute {A} (q : DB.DBHandler -> result A * DB.DBHandler) : M A :=
  fun w => let (r, d) := q (db w) in (r, World d (screen w)).

(** ** [core/db_setup.py] *)

Definition insert_input_record
    (current_price strike_price time_to_maturity volatility
       risk_free_interest_rate : R) : M (option Z) :=
  let params := (current_price, strike_price, time_to_maturity, volatility,
                 risk_free_interest_rate) in
  try_except_Error
    (calc_id <- db_execute (fun d => DB.execute_insert_input d params) ;;
     log_message [Lit "Inserted input record with calc_id="; Int (Some calc_id);
                  Lit " to the database."] ;;
     ret (Some calc_id))
    (fun e =>
       showerror "Database Error" (Lit "Could not insert input record: " :: str e) ;;
       ret None).

Definition insert_heatmap_records (calc_id : Z) (heatmap_data : list DB.record)
    : M unit :=
  let params := map (fun rec => (calc_id, rec)) heatmap_data in
  try_except_Error
    (db_execute (fun d => DB.execute_insert_heatmaps d params) ;;
     log_message [Lit "Heatmaps generated successfully for calc_id=";
                  Int (Some calc_id); Lit "."] ;;
     log_message [Lit "Inserted "; Int (Some (Z.of_nat (List.length params)));
                  Lit " heatmap records for calc_id="; Int (Some calc_id);
                  Lit " to the database."])
    (fun e =>
       showerror "Database Error" (Lit "Could not insert heatmap records: " :: str e)).

(** ** [core/calculations.py] *)

(** [_read_float(var, name, required, default)]: the float of the entry, or
    [default] (which may be [None]) for an empty entry that is not
    required. *)
Definition _read_float (var : entry) (name : string) (required : bool)
    (default : option R) : result (option R) :=
  match var with
  | Blank =>
      if required
      then Raise (ValueError [Lit "'"; Lit name; Lit "' is required."])
      else Return default
  | Num x => Return (Some x)
  | Junk s =>
      Raise (ValueError [Lit "Invalid number for '"; Lit name; Lit "': "; Repr s])
  end.

(** The value of [_read_float] used as a number.  Arithmetic on [None] is a
    [TypeError]; no call site below can get [None], since each passes
    [required=True] or a float as default. *)
Definition number (v : option R) : result R :=
  match v with
  | Some x => Return x
  | None => Raise (TypeError [Lit "unsupported operand type: 'NoneType'"])
  end.

Definition read_number (var : entry) (name : string) (required : bool)
    (default : option R) : M R :=
  lift (match _read_float var name required default with
        | Return v => number v
        | Raise e => Raise e
        end).

(** The [ZeroDivisionError] of [S / K] in [run]. *)
Definition zero_division : exn := ZeroDivisionError [Lit "float division by zero"].

(** [getattr(bs, "call_gamma", None) or getattr(bs, "gamma", None)]: a gamma
    of 0.0 is falsy and there is no attribute [gamma]. *)
Definition shown_gamma (o : BlackScholes.outputs) : option R :=
  if Req_dec_T (BlackScholes.call_gamma o) 0 then None
  else Some (BlackScholes.call_gamma o).

Definition dash : string := "—".

(** The five [label.config] calls.  With [NonFinite] the attributes exist
    and are formatted as floats that are not real numbers. *)
Definition update_ui (out : option BlackScholes.outputs) : M unit :=
  let shown (prefix : string) (v : option cell) : text :=
    match v with
    | Some x => [Lit prefix; Float 6 x]
    | None => [Lit prefix; Lit dash]
    end in
  let dollar : string := "$"%string in
  let field (get : BlackScholes.outputs -> R) : option cell :=
    match out with
    | Some o => Some (Some (get o))
    | None => Some None
    end in
  let gamma : option cell :=
    match out with
    | Some o => match shown_gamma o with Some g => Some (Some g) | None => None end
    | None => Some None
    end in
  emit (LabelConfig call_val_label (shown dollar (field BlackScholes.call_price))) ;;
  emit (LabelConfig put_val_label (shown dollar (field BlackScholes.put_price))) ;;
  emit (LabelConfig delta_call_label (shown "Δ (Call): "%string (field BlackScholes.call_delta))) ;;
  emit (LabelConfig delta_put_label (shown "Δ (Put): "%string (field BlackScholes.put_delta))) ;;
  emit (LabelConfig gamma_label (shown "Γ: "%string gamma)).

Definition calculate_option_prices
    (current_price_var strike_var ttm_var vol_var rate_var : entry)
    (last_calc_id : option Z) : M (option Z) :=
  try_except
    (log_message [Lit "Calculating prices..."] ;;
     current_price <- read_number current_price_var "Current Asset Price" true None ;;
     strike <- read_number strike_var "Strike Price" true None ;;
     ttm <- read_number ttm_var "Time to Maturity" true None ;;
     vol <- read_number vol_var "Volatility" true None ;;
     rate <- read_number rate_var "Risk-Free Rate" true None ;;
     if Rle_dec ttm 0 then raise (ValueError [Lit "Time to maturity must be > 0"])
     else if Rle_dec vol 0 then raise (ValueError [Lit "Volatility must be > 0"])
     else
       calc_id <- insert_input_record current_price strike ttm vol rate ;;
       let last_calc_id := calc_id in
       out <- match BlackScholes.run
                      (BlackScholes.Build ttm strike current_price vol rate) with
              | BlackScholes.Priced o => ret (Some o)
              | BlackScholes.NonFinite => ret None
              | BlackScholes.ZeroDivision => raise zero_division
              end ;;
       update_ui out ;;
       log_message [Lit "Price calculation completed."] ;;
       showinfo "Price Calculation Complete"
         [Lit "Option prices and Greeks calculated successfully."] ;;
       ret last_calc_id)
    (fun e =>
       showerror "Calculation error" (str e) ;;
       log_message (Lit "Error while calculating prices: " :: str e) ;;
       ret None).

(** ** [core/plotting.py] *)

(** [np.linspace(start, stop, num)]: [arange(0, num) * step + start] with
    [step = (stop - start) / (num - 1)], the last sample then overwritten
    with [stop]. *)
Definition linspace (start stop : R) (num : nat) : list R :=
  let div := (num - 1)%nat in
  let step := (stop - start) / INR div in
  let y := map (fun i => INR i * step + start) (seq 0 num) in
  if (1 <? num)%nat then removelast y ++ [stop] else y.

(** [np.zeros((n, m))] and [np.full((n, m), np.nan)] *)
Definition full (n m : nat) (v : cell) : matrix := repeat (repeat v m) n.

(** [l[i] = v] for a list; [None] when the index is out of range. *)
Fixpoint list_set {A} (l : list A) (i : nat) (v : A) : option (list A) :=
  match l, i with
  | [], _ => None
  | _ :: rest, O => Some (v :: rest)
  | x :: rest, S i' =>
      match list_set rest i' v with
      | Some rest' => Some (x :: rest')
      | None => None
      end
  end.

(** [m[i, j] = v]; numpy raises [IndexError] out of range. *)
Definition setitem (m : matrix) (i j : nat) (v : cell) : result matrix :=
  match nth_error m i with
  | Some row =>
      match list_set row j v with
      | Some row' =>
          match list_set m i row' with
          | Some m' => Return m'
          | None => Raise (IndexError [Lit "index out of bounds"])
          end
      | None => Raise (IndexError [Lit "index out of bounds"])
      end
  | None => Raise (IndexError [Lit "index out of bounds"])
  end.

Definition enumerate {A} (l : list A) : list (nat * A) :=
  combine (seq 0 (List.length l)) l.

(** [for x in xs: body], where the body updates the loop state or raises. *)
Fixpoint for_each {A St} (xs : list A) (body : A -> St -> result St) (s : St)
    : result St :=
  match xs with
  | [] => Return s
  | x :: rest =>
      match body x s with
      | Return s' => for_each rest body s'
      | Raise e => Raise e
      end
  end.

(** The state of the sweep: the two matrices and [save_records]. *)
Record sweep : Type := Sweep {
  sw_call_prices : matrix;
  sw_put_prices : matrix;
  save_records : list DB.record
}.

(** [getattr(bs_temp, name, np.nan)] after [run]: the attribute as a cell. *)
Definition attr_cell (get : BlackScholes.outputs -> R)
    (out : BlackScholes.outcome) : cell :=
  match out with
  | BlackScholes.Priced o => Some (get o)
  | _ => None
  end.

(** The body of the inner loop: price one grid point and store it. *)
Definition sweep_cell (ttm strike rate : R) (i : nat) (vol : R)
    (j : nat) (spot : R) (st : sweep) : result sweep :=
  match BlackScholes.run (BlackScholes.Build ttm strike spot vol rate) with
  | BlackScholes.ZeroDivision => Raise zero_division
  | out =>
      match
        setitem (sw_call_prices st) i j (attr_cell BlackScholes.call_price out)
      with
      | Raise e => Raise e
      | Return calls =>
          match
            setitem (sw_put_prices st) i j (attr_cell BlackScholes.put_price out)
          with
          | Raise e => Raise e
          | Return puts =>
              Return (Sweep calls puts
                        (save_records st ++
                           [(spot, vol, nth j (nth i calls []) None,
                             nth j (nth i puts []) None)]))
          end
      end
  end.

(** Lines 93-121: the axes, the zero matrices and the double loop, rows for
    volatility and columns for spot. *)
Definition heatmap_sweep (ttm strike rate spot_min spot_max vol_min vol_max : R)
    (n : nat) : result (surface * list DB.record) :=
  let spot_range := linspace spot_min spot_max n in
  let vol_range := linspace vol_min vol_max n in
  let call_prices := full n n (Some 0) in
  let put_prices := full n n (Some 0) in
  match
    for_each (enumerate vol_range)
      (fun '(i, vol) st =>
         for_each (enumerate spot_range)
           (fun '(j, spot) st' => sweep_cell ttm strike rate i vol j spot st')
           st)
      (Sweep call_prices put_prices [])
  with
  | Return st =>
      Return (Surface spot_range vol_range (sw_call_prices st) (sw_put_prices st),
              save_records st)
  | Raise e => Raise e
  end.

(** [x <= y] as a truth value, for the conditions joined by [or]. *)
Definition Rleb (x y : R) : bool := if Rle_dec x y then true else false.

(** [int(resolution_var.get())] *)
Definition read_int (var : int_entry) : M Z :=
  match var with
  | IntNum n => ret n
  | IntJunk s =>
      raise (ValueError [Lit "invalid literal for int() with base 10: "; Repr s])
  end.

Definition plot_heatmaps (calc_id : option Z) (resolution_var : int_entry)
    (current_price_var strike_var ttm_var vol_var rate_var
       spot_min_var spot_max_var vol_min_var vol_max_var : entry) : M unit :=
  match calc_id with
  | None =>
      showwarning "No Calculation ID"
        [Lit "Please calculate option prices first to generate heatmap."]
  | Some calc_id =>
      try_except
        (log_message [Lit "Starting heatmap generation..."] ;;
         n <- read_int resolution_var ;;
         if (n <? 2)%Z then raise (ValueError [Lit "Resolution must be at least 2"])
         else
           base_spot <- read_number current_price_var "Current Asset Price" true None ;;
           base_vol <- read_number vol_var "Volatility" true None ;;
           strike <- read_number strike_var "Strike Price" true None ;;
           ttm <- read_number ttm_var "Time to Maturity" true None ;;
           rate <- read_number rate_var "Risk-Free Rate" true None ;;
           spot_min <- read_number spot_min_var "Min Spot" false
                         (Some (base_spot * 0.8)) ;;
           spot_max <- read_number spot_max_var "Max Spot" false
                         (Some (base_spot * 1.2)) ;;
           vol_min <- read_number vol_min_var "Min Volatility" false
                        (Some (Rmax 0.01 (base_vol * 0.5))) ;;
           vol_max <- read_number vol_max_var "Max Volatility" false
                        (Some (Rmin 5.0 (base_vol * 1.5))) ;;
           if Rleb spot_min 0 || Rleb spot_max 0
           then raise (ValueError [Lit "Spot ranges must be > 0"])
           else if Rle_dec spot_max spot_min
           then raise (ValueError [Lit "Max Spot must be greater than Min Spot"])
           else if Rleb vol_min 0 || Rleb vol_max 0
           then raise (ValueError [Lit "Vol ranges must be > 0"])
           else if Rle_dec vol_max vol_min
           then raise (ValueError [Lit "Max Vol must be greater than Min Vol"])
           else
             log_message
               [Lit "Using spot range ["; Float 4 (Some spot_min); Lit ", ";
                Float 4 (Some spot_max); Lit "] and vol range [";
                Float 4 (Some vol_min); Lit ", "; Float 4 (Some vol_max);
                Lit "] with resolution "; Int (Some n)] ;;
             grid <- lift (heatmap_sweep ttm strike rate spot_min spot_max
                             vol_min vol_max (Z.to_nat n)) ;;
             insert_heatmap_records calc_id (snd grid) ;;
             emit (Imshow (fst grid)) ;;
             log_message [Lit "Heatmap generation completed."] ;;
             showinfo "Heatmaps Generated"
               [Lit "Heatmaps generated and saved to database successfully."])
        (fun e =>
           showerror "Heatmap error" (str e) ;;
           log_message (Lit "Error while generating heatmap: " :: str e))
  end.

(** ** [core/history.py] *)

(** [set(l)]: the distinct elements (the order in which a Python set
    iterates does not matter to [sorted]). *)
Definition set (l : list R) : list R := nodup Req_dec_T l.

(** [sorted(l)], ascending. *)
Fixpoint insert_sorted (x : R) (l : list R) : list R :=
  match l with
  | [] => [x]
  | y :: rest => if Rle_dec x y then x :: l else y :: insert_sorted x rest
  end.

Definition sorted (l : list R) : list R := fold_right insert_sorted [] l.

(** [{s: j for j, s in enumerate(l)}], with the pairs in the order of their
    insertion. *)
Definition index_dict (l : list R) : list (R * nat) :=
  map (fun '(j, s) => (s, j)) (enumerate l).

(** [d[k]]: the value last bound to [k], [KeyError] without one. *)
Definition getitem (d : list (R * nat)) (k : R) : result nat :=
  match find (fun p => if Req_dec_T (fst p) k then true else false) (rev d) with
  | Some p => Return (snd p)
  | None => Raise (KeyError [Lit "key not found"])
  end.

(** The body of the loop over the fetched rows. *)
Definition place_row (spot_to_idx vol_to_idx : list (R * nat))
    (r : DB.record) (st : matrix * matrix) : result (matrix * matrix) :=
  let '(s, v, c, p) := r in
  match getitem vol_to_idx v with
  | Raise e => Raise e
  | Return i =>
      match getitem spot_to_idx s with
      | Raise e => Raise e
      | Return j =>
          match setitem (fst st) i j c with
          | Raise e => Raise e
          | Return calls =>
              match setitem (snd st) i j p with
              | Raise e => Raise e
              | Return puts => Return (calls, puts)
              end
          end
      end
  end.

(** Lines 54-70: the axes are the sorted distinct spots and volatilities of
    the rows; the matrices start as nan and receive each row at the indices
    of its coordinates. *)
Definition rebuild_surface (rows : list DB.record) : result surface :=
  let spots := sorted (set (map (fun r : DB.record => fst (fst (fst r))) rows)) in
  let vols := sorted (set (map (fun r : DB.record => snd (fst (fst r))) rows)) in
  let n_spot := List.length spots in
  let n_vol := List.length vols in
  let call_prices := full n_vol n_spot None in
  let put_prices := full n_vol n_spot None in
  let spot_to_idx := index_dict spots in
  let vol_to_idx := index_dict vols in
  match for_each rows (place_row spot_to_idx vol_to_idx) (call_prices, put_prices) with
  | Return (calls, puts) => Return (Surface spots vols calls puts)
  | Raise e => Raise e
  end.

(** [_on_history_load]; [selection] is the [calc_id] of the selected row of
    the tree, if one is selected. *)
Definition _on_history_load (selection : option Z) : M unit :=
  try_except
    (match selection with
     | None => showinfo "Select" [Lit "Please select a row to load."]
     | Some calc_id =>
         rows <- db_execute (fun d => DB.execute_select_heatmap d calc_id) ;;
         match rows with
         | [] =>
             showinfo "No data"
               [Lit "No heatmap rows found for calc_id="; Int (Some calc_id)]
         | _ :: _ =>
             s <- lift (rebuild_surface rows) ;;
             emit (Imshow s) ;;
             log_message [Lit "Loaded calc_id="; Int (Some calc_id);
                          Lit " from DB and re-plotted with enhanced visuals."] ;;
             showinfo "Heatmap Loaded"
               [Lit "Heatmap for calc_id="; Int (Some calc_id);
                Lit " loaded successfully."] ;;
             emit WinDestroy
         end
     end)
    (fun e =>
       showerror "Load error" (str e) ;;
       log_message (Lit "Error loading history item: " :: str e)).

(** ** The pricing equations as the specification writes them

    The second definition of the prices, for comparison with
    [BlackScholes.run]: [N] is [Norm.cdf] and [n] is [Norm.pdf]. *)

Module Spec.

Record PricingInputs : Type := Inputs {
  spot : R;
  strike : R;
  time_to_maturity : R;
  volatility : R;
  rate : R
}.

(** The invariants of [PricingInputs]. *)
Definition invariants (i : PricingInputs) : Prop :=
  time_to_maturity i > 0 /\ volatility i > 0 /\ spot i > 0 /\ strike i > 0.

Definition d1 (i : PricingInputs) : R :=
  (ln (spot i / strike i)
   + (rate i + 0.5 * volatility i ^ 2) * time_to_maturity i)
  / (volatility i * sqrt (time_to_maturity i)).

Definition d2 (i : PricingInputs) : R :=
  d1 i - volatility i * sqrt (time_to_maturity i).

Definition call_price (i : PricingInputs) : R :=
  spot i * Norm.cdf (d1 i)
  - strike i * exp (- rate i * time_to_maturity i) * Norm.cdf (d2 i).

Definition put_price (i : PricingInputs) : R :=
  strike i * exp (- rate i * time_to_maturity i) * Norm.cdf (- d2 i)
  - spot i * Norm.cdf (- d1 i).

Definition call_delta (i : PricingInputs) : R := Norm.cdf (d1 i).

Definition put_delta (i : PricingInputs) : R := call_delta i - 1.

Definition gamma (i : PricingInputs) : R :=
  Norm.pdf (d1 i) / (spot i * volatility i * sqrt (time_to_maturity i)).

End Spec.

(** The pricing operation of the specification on the code: build the
    object from the inputs and [run] it. *)
Definition price (i : Spec.PricingInputs) : BlackScholes.outcome :=
  BlackScholes.run
    (BlackScholes.Build (Spec.time_to_maturity i) (Spec.strike i) (Spec.spot i)
       (Spec.volatility i) (Spec.rate i)).

(** ** Worlds and outcomes used in the statements *)

(** A reachable server with empty tables, and an empty window. *)
Definition fresh_db : DB.DBHandler := DB.Handler true [] [] 1 1.
Definition fresh_world : world := World fresh_db [].

(** The same server after the connection is lost. *)
Definition lost_world : world := World (DB.Handler false [] [] 1 1) [].

(** What the specification asks of a pricing call that violates an
    invariant: an error is reported, no calculation row is written and no
    price is shown. *)
Definition fails_before_effects (w : world) (out : result (option Z) * world)
    : Prop :=
  db (snd out) = db w /\
  exists added, screen (snd out) = screen w ++ added /\
    (exists title msg, In (ShowError title msg) added) /\
    (forall l msg, ~ In (LabelConfig l msg) added).

(** What the specification asks of a load without samples: the caller gets
    an error, raised or reported as one. *)
Definition fails_with_error {A} (w : world) (out : result A * world) : Prop :=
  (exists e, fst out = Raise e) \/
  (exists added title msg,
     screen (snd out) = screen w ++ added /\ In (ShowError title msg) added).

(** The matrix of one attribute over a grid, rows for volatility and columns
    for spot, and the records of the grid in the order of the sweep. *)
Definition grid_cell (get : BlackScholes.outputs -> R) (ttm strike rate : R)
    (spot vol : R) : cell :=
  attr_cell get (BlackScholes.run (BlackScholes.Build ttm strike spot vol rate)).

Definition grid (get : BlackScholes.outputs -> R) (ttm strike rate : R)
    (spots vols : list R) : matrix :=
  map (fun vol => map (fun spot => grid_cell get ttm strike rate spot vol) spots)
    vols.

Definition grid_records (ttm strike rate : R) (spots vols : list R)
    : list DB.record :=
  flat_map
    (fun vol =>
       map (fun spot =>
              (spot, vol,
               grid_cell BlackScholes.call_price ttm strike rate spot vol,
               grid_cell BlackScholes.put_price ttm strike rate spot vol))
         spots)
    vols.

(** The cell [m[i, j]], nan outside the matrix. *)
Definition cell_at (m : matrix) (i j : nat) : cell := nth j (nth i m []) None.

(** The [i]-th sample of [np.linspace(start, stop, num)]. *)
Definition linspace_at (start stop : R) (num i : nat) : R :=
  start + INR i * (stop - start) / INR (num - 1).

(** The number an optional entry stands for: its own, or the default when
    it is empty. *)
Definition entry_or (var : entry) (default : R) : option R :=
  match var with
  | Blank => Some default
  | Num x => Some x
  | Junk _ => None
  end.

(** ** The annotations of a heatmap

    The loops that write one text per cell onto a drawn matrix, the same
    code in [plot_heatmaps] and in [_on_history_load], for the call matrix
    and for the put matrix. *)

Inductive colour : Type := white | black.

(** One call of [ax.text]: the position, the price that is formatted with
    two decimals, and the colour. *)
Record annotation : Type := Annotation {
  x_center : R;
  y_center : R;
  cell_text : cell;
  text_color : colour
}.

(** The cells that are numbers. *)
Definition finite_cells (m : matrix) : list R :=
  flat_map
    (fun row =>
       flat_map (fun c : cell => match c with Some x => [x] | None => [] end) row)
    m.

(** [np.nanmax(m)] and [np.nanmin(m)]: the bounds of the cells that are
    numbers, nan (with a warning) when there is none. *)
Definition nanmax (m : matrix) : cell :=
  match finite_cells m with
  | [] => None
  | x :: rest => Some (fold_left Rmax rest x)
  end.

Definition nanmin (m : matrix) : cell :=
  match finite_cells m with
  | [] => None
  | x :: rest => Some (fold_left Rmin rest x)
  end.

(** [(np.nanmax(m) + np.nanmin(m)) / 2.0] *)
Definition threshold (m : matrix) : cell :=
  match nanmax m, nanmin m with
  | Some hi, Some lo => Some ((hi + lo) / 2.0)
  | _, _ => None
  end.

(** ["white" if price > threshold else "black"]; a comparison with nan is
    false. *)
Definition colour_of (m : matrix) (p : cell) : colour :=
  match p, threshold m with
  | Some x, Some t => if Rlt_dec t x then white else black
  | _, _ => black
  end.

(** [a[0], a[-1]] *)
Definition ends (a : list R) : result (R * R) :=
  match a with
  | [] => Raise (IndexError [Lit "index 0 is out of bounds for axis 0 with size 0"])
  | x :: _ => Return (x, last a x)
  end.

(** The double loop over [range(n_rows)] and [range(n_cols)], where
    [n_rows, n_cols] is the shape of the matrix; the texts in the order in
    which they are written. *)
Definition annotate (x_range y_range : list R) (prices : matrix)
    : result (list annotation) :=
  let n_rows := List.length prices in
  let n_cols := List.length (nth 0 prices []) in
  match ends x_range, ends y_range with
  | Return (x_first, x_last), Return (y_first, y_last) =>
      let cell_width := (x_last - x_first) / INR n_cols in
      let cell_height := (y_last - y_first) / INR n_rows in
      Return
        (flat_map
           (fun i =>
              map (fun j =>
                     Annotation (x_first + (INR j + 0.5) * cell_width)
                       (y_first + (INR i + 0.5) * cell_height)
                       (cell_at prices i j)
                       (colour_of prices (cell_at prices i j)))
                (seq 0 n_cols))
           (seq 0 n_rows))
  | Raise e, _ => Raise e
  | _, Raise e => Raise e
  end.

(** ** Quantities used in the numerical bounds *)

(** The at-the-money one-year option of the specification's scenario. *)
Definition at_the_money : Spec.PricingInputs := Spec.Inputs 100 100 1 0.2 0.05.

(** The Taylor polynomials of exp (- y). *)
Definition exp_term (n : nat) (y : R) : R := (- y) ^ n / INR (fact n).

Fixpoint exp_poly (n : nat) (y : R) : R :=
  match n with
  | O => 1
  | S k => exp_poly k y + exp_term (S k) y
  end.

(** The unnormalised density, and the polynomials that bracket its integral
    from 0: the antiderivatives of two Taylor polynomials of exp (- t^2/2). *)
Definition gauss (t : R) : R := exp (- (t ^ 2 / 2)).

Definition gauss_upper (t : R) : R :=
  t - t^3/6 + t^5/40 - t^7/336 + t^9/3456.

Definition gauss_lower (t : R) : R := gauss_upper t - t^11/42240.

(** ** [utils/db.py]: opening the connection

    [DBHandler.connect], [ensure_connection] and [close] against a server
    whose answers are given in advance: what the k-th call of
    [mysql.connector.connect] with the full configuration does, and whether the k-th attempt
    to create the missing database goes through. *)

Module Connection.

(** One call of [mysql.connector.connect] with [self.config]: it returns a
    connection, for which [is_connected()] answers [alive], or raises an
    [Error] with text [e]; [unknown_database] tells whether the text
    contains "Unknown database" or "1049". *)
Inductive attempt : Type :=
| Connects (alive : bool)
| Fails (e : text) (unknown_database : bool).

Record server : Type := Server {
  connects : nat -> attempt;
  creates : nat -> bool
}.

(** The handler: [self.connection] ([None], or a connection with the answer
    of its [is_connected()]) and the calls made so far. *)
Record state : Type := State {
  connection : option bool;
  connect_calls : nat;
  create_calls : nat
}.

Definition is_connected (st : state) : bool :=
  match connection st with
  | Some alive => alive
  | None => false
  end.

(** How the [for] loop of [connect] is left: by its [return], or by running
    out of attempts or [break], with [last_error]. *)
Inductive loop_exit : Type :=
| Returned
| Fell (last_error : option text).

(** The loop [for attempt in range(1, self.reconnect_attempts + 1)], with
    [n] attempts left. *)
Fixpoint connect_loop (srv : server) (n : nat) (st : state)
    (last_error : option text) : loop_exit * state :=
  match n with
  | O => (Fell last_error, st)
  | S n' =>
      match connects srv (connect_calls st) with
      | Connects alive =>
          let st' := State (Some alive) (S (connect_calls st)) (create_calls st) in
          if alive then (Returned, st')
          else connect_loop srv n' st' last_error
      | Fails e unknown_database =>
          let st' := State (connection st) (S (connect_calls st)) (create_calls st) in
          if unknown_database then
            let st'' := State (connection st) (S (connect_calls st))
                          (S (create_calls st)) in
            if creates srv (create_calls st)
            then connect_loop srv n' st'' (Some e)
            else (Fell (Some e), st'')
          else connect_loop srv n' st' (Some e)
      end
  end.

Definition failed_to_connect : text := [Lit "Failed to connect to MySQL database"].

(** [connect]: after the loop, a missing or dead connection raises
    [last_error or Error("Failed to connect to MySQL database")]. *)
Definition connect (srv : server) (reconnect_attempts : nat) (st : state)
    : result unit * state :=
  match connect_loop srv reconnect_attempts st None with
  | (Returned, st') => (Return tt, st')
  | (Fell last_error, st') =>
      if is_connected st' then (Return tt, st')
      else
        (Raise (Error (match last_error with
                       | Some e => e
                       | None => failed_to_connect
                       end)),
         st')
  end.

(** [ensure_connection]: reconnect when there is no live connection; an
    [Error] is printed and raised again. *)
Definition ensure_connection (srv : server) (reconnect_attempts : nat)
    (st : state) : result unit * state :=
  if is_connected st then (Return tt, st)
  else connect srv reconnect_attempts st.

(** [close]: a live connection is closed. *)
Definition close (st : state) : state :=
  if is_connected st
  then State (Some false) (connect_calls st) (create_calls st)
  else st.

End Connection.

(** ** [ui/app.py]: the two buttons *)

Module BSApp.

(** The attributes of the application the core reads: the identifier of the
    last calculation and the entries of the form. *)
Record t : Type := App {
  last_calc_id : option Z;
  resolution_var : int_entry;
  current_price_var : entry;
  strike_var : entry;
  ttm_var : entry;
  vol_var : entry;
  rate_var : entry;
  spot_min_var : entry;
  spot_max_var : entry;
  vol_min_var : entry;
  vol_max_var : entry
}.

Definition with_last_calc_id (self : t) (id : option Z) : t :=
  App id (resolution_var self) (current_price_var self) (strike_var self)
    (ttm_var self) (vol_var self) (rate_var self) (spot_min_var self)
    (spot_max_var self) (vol_min_var self) (vol_max_var self).

(** [calculate_prices]: the result of [calculate_option_prices] becomes
    [self.last_calc_id]; the application is returned as the call leaves
    it. *)
Definition calculate_prices (self : t) : M t :=
  try_except
    (id <- calculate_option_prices (current_price_var self) (strike_var self)
             (ttm_var self) (vol_var self) (rate_var self) (last_calc_id self) ;;
     ret (with_last_calc_id self id))
    (fun e =>
       showerror "Calculation Error"
         (Lit "Could not calculate option prices: " :: str e) ;;
       ret self).

(** [generate_heatmap] *)
Definition generate_heatmap (self : t) : M unit :=
  try_except
    (plot_heatmaps (last_calc_id self) (resolution_var self)
       (current_price_var self) (strike_var self) (ttm_var self) (vol_var self)
       (rate_var self) (spot_min_var self) (spot_max_var self)
       (vol_min_var self) (vol_max_var self))
    (fun e =>
       showerror "Heatmap Error" (Lit "Could not generate heatmap: " :: str e)).

End BSApp.

(** ** Records by coordinates *)

(** Whether a record lies at the point [(s, v)] of the spot/volatility
    plane, and the last record of a list that does. *)
Definition at_point (s v : R) (r : DB.record) : bool :=
  if Req_dec_T (fst (fst (fst r))) s
  then if Req_dec_T (snd (fst (fst r))) v then true else false
  else false.

Definition last_at (rows : list DB.record) (s v : R) : option DB.record :=
  find (at_point s v) (rev rows).

(** A matrix of [nv] rows of [ns] cells. *)
Definition shaped (nv ns : nat) (m : matrix) : Prop :=
  List.length m = nv /\
  forall i, (i < nv)%nat -> List.length (nth i m []) = ns.

(** ** A world with one calculation *)

(** A reachable server that holds the calculation 1 and no sample, and an
    empty window. *)
Definition one_calculation : world :=
  World (DB.Handler true [DB.OptionPricing 1 100 100 1 0.2 0.05] [] 2 1) [].

(** ** Servers used in the statements *)

(** A server that refuses every connection, one that accepts the third, and
    one without the database. *)
Definition refusing_server : Connection.server :=
  Connection.Server (fun _ => Connection.Fails [Lit "Can't connect to MySQL server"] false)
    (fun _ => true).

Definition third_time_server : Connection.server :=
  Connection.Server
    (fun k => if (k <? 2)%nat
              then Connection.Fails [Lit "Can't connect to MySQL server"] false
              else Connection.Connects true)
    (fun _ => true).

Definition missing_database_server (creation : bool) : Connection.server :=
  Connection.Server
    (fun k => if (k <? 1)%nat
              then Connection.Fails [Lit "1049 (42000): Unknown database"] true
              else Connection.Connects true)
    (fun _ => creation).

Definition unconnected : Connection.state := Connection.State None 0 0.

(** ** What a computation of the core leaves alone *)

(** A computation that never raises, and one that keeps a relation between
    the world it starts in and the world it leaves, whether it returns or
    raises.  The calls on the window (labels, dialogs, the log) are
    computations that return: a failure of Tk itself is outside the
    model. *)
Definition returns {A} (c : M A) : Prop :=
  forall w, exists a, fst (c w) = Return a.

Definition keeps (inv : world -> world -> Prop) {A} (c : M A) : Prop :=
  forall w, inv w (snd (c w)).

(** The relations that compose along a computation: they hold between a
    world and itself, are transitive, and let the window gain an event. *)
Class Frame (inv : world -> world -> Prop) : Prop := {
  frame_refl : forall w, inv w w;
  frame_trans : forall a b c, inv a b -> inv b c -> inv a c;
  frame_emit : forall w e, inv w (World (db w) (screen w ++ [e]))
}.

Definition screen_grows (w w' : world) : Prop :=
  exists added, screen w' = screen w ++ added.

(** [calculate_option_prices]: the window gains events and the table of
    calculations gains rows at its end; the samples are left alone. *)
Definition calculation_frame (w w' : world) : Prop :=
  screen_grows w w' /\
  DB.reachable (db w') = DB.reachable (db w) /\
  DB.heatmap_data (db w') = DB.heatmap_data (db w) /\
  DB.next_heatmap_id (db w') = DB.next_heatmap_id (db w) /\
  exists rows, DB.option_pricing (db w') = DB.option_pricing (db w) ++ rows.

(** [plot_heatmaps]: the window gains events and the table of samples gains
    rows of the given calculation at its end; the calculations are left
    alone. *)
Definition heatmap_frame (calc_id : option Z) (w w' : world) : Prop :=
  screen_grows w w' /\
  DB.reachable (db w') = DB.reachable (db w) /\
  DB.option_pricing (db w') = DB.option_pricing (db w) /\
  DB.next_calc_id (db w') = DB.next_calc_id (db w) /\
  exists rows,
    DB.heatmap_data (db w') = DB.heatmap_data (db w) ++ rows /\
    Forall (fun row => Some (DB.hm_calc_id row) = calc_id) rows.

(** [_on_history_load]: the window gains events; the database is only
    read. *)
Definition load_frame (w w' : world) : Prop :=
  screen_grows w w' /\ db w' = db w.

(** ** The form *)

(** The five numbers of the form, when each of its entries holds one. *)
Definition form_values (current_price_var strike_var ttm_var vol_var rate_var : entry)
    : option (R * R * R * R * R) :=
  match current_price_var, strike_var, ttm_var, vol_var, rate_var with
  | Num cp, Num k, Num t, Num v, Num r => Some (cp, k, t, v, r)
  | _, _, _, _, _ => None
  end.

(** * Properties *)

(** ** Facts on integrals *)

Section PrimitiveFacts.

Variable f : R -> R.
Hypothesis f_cont : forall x, continuity_pt f x.

Let I := integral f f_cont.

Lemma integral_irrel a b (pr : Riemann_integrable f a b) :
  RiemannInt pr = I a b.
Proof. apply RiemannInt_P5. Qed.

Lemma integral_chasles a b c : I a b + I b c = I a c.
Proof. apply RiemannInt_P26. Qed.

Lemma integral_refl a : I a a = 0.
Proof. apply RiemannInt_P9. Qed.

(** The integral is a primitive of its integrand. *)
Lemma integral_derivable a x : derivable_pt_lim (I a) x (f x).
Proof.
  set (lo := Rmin a x - 1). set (hi := Rmax a x + 1).
  assert (Hlo : lo + 1 <= a /\ lo + 1 <= x).
  { unfold lo. pose proof (Rmin_l a x). pose proof (Rmin_r a x). lra. }
  assert (Hhi : a + 1 <= hi /\ x + 1 <= hi).
  { unfold hi. pose proof (Rmax_l a x). pose proof (Rmax_r a x). lra. }
  assert (h : lo <= hi) by lra.
  pose (C0 := fun (t : R) (_ : lo <= t <= hi) => f_cont t).
  assert (HP : derivable_pt_lim (primitive h (FTC_P1 h C0)) x (f x))
    by (apply RiemannInt_P27; lra).
  assert (Heq : forall t, lo <= t <= hi ->
            I a t = primitive h (FTC_P1 h C0) t - primitive h (FTC_P1 h C0) a).
  { intros t [Ht1 Ht2]. unfold primitive.
    destruct (Rle_dec lo t) as [r1|]; [|lra].
    destruct (Rle_dec t hi) as [r2|]; [|lra].
    destruct (Rle_dec lo a) as [r3|]; [|lra].
    destruct (Rle_dec a hi) as [r4|]; [|lra].
    rewrite !integral_irrel. rewrite <- (integral_chasles lo a t). ring. }
  intros eps Heps. destruct (HP eps Heps) as [delta Hd].
  assert (Hd1 : 0 < Rmin delta 1).
  { apply Rmin_pos; [apply cond_pos | lra]. }
  exists (mkposreal (Rmin delta 1) Hd1). intros h0 Hh0 Hlt. simpl in Hlt.
  assert (Hdelta : Rabs h0 < delta)
    by (eapply Rlt_le_trans; [exact Hlt | apply Rmin_l]).
  assert (Hone : Rabs h0 < 1)
    by (eapply Rlt_le_trans; [exact Hlt | apply Rmin_r]).
  assert (-1 < h0 < 1) by (destruct (Rabs_def2 h0 1 Hone); lra).
  rewrite (Heq (x + h0)) by lra. rewrite (Heq x) by lra.
  replace (primitive h (FTC_P1 h C0) (x + h0) - primitive h (FTC_P1 h C0) a -
           (primitive h (FTC_P1 h C0) x - primitive h (FTC_P1 h C0) a))
    with (primitive h (FTC_P1 h C0) (x + h0) - primitive h (FTC_P1 h C0) x)
    by ring.
  apply Hd; assumption.
Qed.

(** Comparison with a function whose derivative stays below, or above, the
    integrand. *)
Lemma integral_lower (G g : R -> R) a b :
  a <= b ->
  (forall t, a <= t <= b -> derivable_pt_lim G t (g t)) ->
  (forall t, a <= t <= b -> g t <= f t) ->
  G b - G a <= I a b.
Proof.
  intros Hab HG Hle.
  destruct (Req_dec a b) as [->|Hne].
  { rewrite integral_refl. lra. }
  assert (Hlt : a < b) by lra.
  destruct (MVT_cor2 (fun t => I a t - G t) (fun t => f t - g t) a b Hlt)
    as [c [Hc1 Hc2]].
  { intros t Ht. apply derivable_pt_lim_minus;
      [apply integral_derivable | apply HG; exact Ht]. }
  rewrite integral_refl in Hc1.
  assert (0 <= (f c - g c) * (b - a)).
  { apply Rmult_le_pos; [|lra]. specialize (Hle c). lra. }
  lra.
Qed.

Lemma integral_upper (G g : R -> R) a b :
  a <= b ->
  (forall t, a <= t <= b -> derivable_pt_lim G t (g t)) ->
  (forall t, a <= t <= b -> f t <= g t) ->
  I a b <= G b - G a.
Proof.
  intros Hab HG Hle.
  destruct (Req_dec a b) as [->|Hne].
  { rewrite integral_refl. lra. }
  assert (Hlt : a < b) by lra.
  destruct (MVT_cor2 (fun t => G t - I a t) (fun t => g t - f t) a b Hlt)
    as [c [Hc1 Hc2]].
  { intros t Ht. apply derivable_pt_lim_minus;
      [apply HG; exact Ht | apply integral_derivable]. }
  rewrite integral_refl in Hc1.
  assert (0 <= (g c - f c) * (b - a)).
  { apply Rmult_le_pos; [|lra]. specialize (Hle c). lra. }
  lra.
Qed.

(** An even integrand has an odd integral from 0. *)
Lemma integral_odd :
  (forall t, f (- t) = f t) -> forall x, I 0 (- x) = - I 0 x.
Proof.
  intros Heven x.
  assert (HS : forall t, derivable_pt_lim (fun u => I 0 u + I 0 (- u)) t 0).
  { intro t. replace 0 with (f t + f (- t) * (-1)) by (rewrite Heven; ring).
    apply derivable_pt_lim_plus; [apply integral_derivable|].
    change (fun u => I 0 (- u)) with (comp (I 0) (fun u => - u)).
    apply derivable_pt_lim_comp; [|apply integral_derivable].
    replace (-1) with (- 1) by ring.
    apply (derivable_pt_lim_opp id). apply derivable_pt_lim_id. }
  assert (Hconst : forall a b, a < b -> I 0 b + I 0 (- b) = I 0 a + I 0 (- a)).
  { intros a b Hab.
    destruct (MVT_cor2 (fun u => I 0 u + I 0 (- u)) (fun _ => 0) a b Hab)
      as [c [Hc _]]; [intros; apply HS | lra]. }
  destruct (Rtotal_order 0 x) as [H|[H|H]].
  - pose proof (Hconst 0 x H) as E. rewrite Ropp_0, integral_refl in E. lra.
  - subst x. rewrite Ropp_0, integral_refl. ring.
  - pose proof (Hconst x 0 H) as E. rewrite Ropp_0, integral_refl in E. lra.
Qed.

End PrimitiveFacts.

(** ** The normal distribution *)

Lemma pdf_even t : Norm.pdf (- t) = Norm.pdf t.
Proof. unfold Norm.pdf. replace ((- t) ^ 2) with (t ^ 2) by ring. reflexivity. Qed.

(** The symmetry of the distribution function: N(-x) = 1 - N(x). *)
Lemma cdf_opp x : Norm.cdf (- x) = 1 - Norm.cdf x.
Proof.
  unfold Norm.cdf. rewrite (integral_odd _ _ pdf_even). lra.
Qed.

(** ** Pricing *)

(** On inputs that satisfy the invariants [run] takes none of its
    degenerate branches. *)
Lemma price_invariants (i : Spec.PricingInputs) :
  Spec.invariants i ->
  exists o, price i = BlackScholes.Priced o /\
    BlackScholes.call_price o = Spec.call_price i /\
    BlackScholes.put_price o = Spec.put_price i /\
    BlackScholes.call_delta o = Spec.call_delta i /\
    BlackScholes.put_delta o = Spec.put_delta i /\
    BlackScholes.call_gamma o = Spec.gamma i /\
    BlackScholes.put_gamma o = Spec.gamma i.
Proof.
  intros (HT & Hv & HS & HK).
  unfold price, BlackScholes.run; cbn [BlackScholes.time_to_maturity
    BlackScholes.strike BlackScholes.current_price BlackScholes.volatility
    BlackScholes.interest_rate].
  destruct (Req_dec_T (Spec.strike i) 0) as [E|_]; [lra|].
  destruct (Rle_dec (Spec.spot i / Spec.strike i) 0) as [E|_].
  { assert (0 < Spec.spot i / Spec.strike i) by (apply Rdiv_lt_0_compat; lra). lra. }
  destruct (Rle_dec (Spec.time_to_maturity i) 0) as [E|_]; [lra|].
  destruct (Req_dec_T (Spec.volatility i) 0) as [E|_]; [lra|].
  eexists. split; [reflexivity|]. cbn. repeat split; reflexivity.
Qed.

Lemma at_the_money_invariants : Spec.invariants at_the_money.
Proof. unfold Spec.invariants, at_the_money; cbn. repeat split; lra. Defined.

(** C7, put-call parity: on inputs that satisfy the invariants the computed
    prices satisfy call_price - put_price = spot - strike * exp(-rate *
    time_to_maturity), exactly over the reals and so within the relative
    tolerance 1e-9. *)
Theorem put_call_parity (i : Spec.PricingInputs) :
  Spec.invariants i ->
  exists o, price i = BlackScholes.Priced o /\
    let forward := Spec.spot i - Spec.strike i * exp (- Spec.rate i * Spec.time_to_maturity i) in
    BlackScholes.call_price o - BlackScholes.put_price o = forward /\
    Rabs (BlackScholes.call_price o - BlackScholes.put_price o - forward)
      <= 1e-9 * Rabs forward.
Proof.
  intro Hinv. destruct (price_invariants i Hinv) as (o & Ho & Hc & Hp & _).
  exists o. split; [exact Ho|]. cbv zeta.
  assert (E : BlackScholes.call_price o - BlackScholes.put_price o =
              Spec.spot i - Spec.strike i * exp (- Spec.rate i * Spec.time_to_maturity i)).
  { rewrite Hc, Hp. unfold Spec.call_price, Spec.put_price.
    rewrite !cdf_opp. ring. }
  split; [exact E|].
  rewrite E. unfold Rminus at 1. rewrite Rplus_opp_r, Rabs_R0.
  apply Rmult_le_pos; [lra | apply Rabs_pos].
Qed.

Lemma put_call_parity_witness :
  Spec.invariants at_the_money /\
  exists o, price at_the_money = BlackScholes.Priced o /\
    let forward := Spec.spot at_the_money
                   - Spec.strike at_the_money
                     * exp (- Spec.rate at_the_money * Spec.time_to_maturity at_the_money) in
    BlackScholes.call_price o - BlackScholes.put_price o = forward /\
    Rabs (BlackScholes.call_price o - BlackScholes.put_price o - forward)
      <= 1e-9 * Rabs forward.
Proof.
  split; [exact at_the_money_invariants|].
  exact (put_call_parity at_the_money at_the_money_invariants).
Defined.

(** C8, delta relation: on inputs that satisfy the invariants the outputs
    satisfy put_delta = call_delta - 1 exactly, both being derived from the
    same d1. *)
Theorem put_delta_is_call_delta_minus_1 (i : Spec.PricingInputs) :
  Spec.invariants i ->
  exists o, price i = BlackScholes.Priced o /\
    BlackScholes.put_delta o = BlackScholes.call_delta o - 1 /\
    BlackScholes.call_delta o = Norm.cdf (Spec.d1 i).
Proof.
  intro Hinv. destruct (price_invariants i Hinv) as (o & Ho & _ & _ & Hcd & Hpd & _).
  exists o. split; [exact Ho|]. rewrite Hpd, Hcd. split; reflexivity.
Qed.

Lemma put_delta_is_call_delta_minus_1_witness :
  Spec.invariants at_the_money /\
  exists o, price at_the_money = BlackScholes.Priced o /\
    BlackScholes.put_delta o = BlackScholes.call_delta o - 1 /\
    BlackScholes.call_delta o = Norm.cdf (Spec.d1 at_the_money).
Proof.
  split; [exact at_the_money_invariants|].
  exact (put_delta_is_call_delta_minus_1 at_the_money at_the_money_invariants).
Defined.

(** ** Numerical bounds for the scenario of the specification *)

Lemma derivable_pt_lim_eq (f g : R -> R) x l :
  (forall t, f t = g t) -> derivable_pt_lim f x l -> derivable_pt_lim g x l.
Proof.
  intros E H eps Heps. destruct (H eps Heps) as [d Hd].
  exists d. intros h Hh Hlt. rewrite <- !E. apply Hd; assumption.
Qed.

Lemma exp_poly_0 n : exp_poly n 0 = 1.
Proof.
  induction n as [|n IH]; [reflexivity|].
  change (exp_poly n 0 + exp_term (S n) 0 = 1). rewrite IH. unfold exp_term.
  rewrite Ropp_0, pow_i by lia. unfold Rdiv. ring.
Qed.

Lemma exp_term_derivable n y :
  derivable_pt_lim (exp_term (S n)) y (- exp_term n y).
Proof.
  unfold exp_term.
  apply derivable_pt_lim_eq
    with (f := mult_real_fct (/ INR (fact (S n)))
                 (comp (fun u => u ^ S n) (fun u => - u))).
  { intro t. unfold mult_real_fct, comp. unfold Rdiv. ring. }
  replace (- ((- y) ^ n / INR (fact n)))
    with (/ INR (fact (S n)) * (INR (S n) * (- y) ^ pred (S n) * (- 1))).
  - apply derivable_pt_lim_scal. apply derivable_pt_lim_comp.
    + apply (derivable_pt_lim_opp id). apply derivable_pt_lim_id.
    + apply derivable_pt_lim_pow.
  - rewrite fact_simpl, mult_INR. simpl pred.
    assert (INR (fact n) <> 0) by apply INR_fact_neq_0.
    assert (INR (S n) <> 0) by (apply not_0_INR; lia).
    field. split; assumption.
Qed.

Lemma exp_poly_derivable n y :
  derivable_pt_lim (exp_poly (S n)) y (- exp_poly n y).
Proof.
  induction n as [|n IH].
  - apply derivable_pt_lim_eq with (f := plus_fct (fct_cte 1) (exp_term 1)).
    { intro t. reflexivity. }
    replace (- exp_poly 0 y) with (0 + - exp_term 0 y)
      by (unfold exp_term; simpl; field).
    apply derivable_pt_lim_plus;
      [apply derivable_pt_lim_const | apply exp_term_derivable].
  - apply derivable_pt_lim_eq
      with (f := plus_fct (exp_poly (S n)) (exp_term (S (S n)))).
    { intro t. reflexivity. }
    replace (- exp_poly (S n) y) with (- exp_poly n y + - exp_term (S n) y)
      by (simpl; ring).
    apply derivable_pt_lim_plus; [exact IH | apply exp_term_derivable].
Qed.

Lemma exp_opp_derivable y :
  derivable_pt_lim (fun u => exp (- u)) y (- exp (- y)).
Proof.
  replace (- exp (- y)) with (exp (- y) * (- 1)) by ring.
  apply (derivable_pt_lim_comp (fun u => - u) exp).
  - apply (derivable_pt_lim_opp id). apply derivable_pt_lim_id.
  - apply derivable_pt_lim_exp.
Qed.

(** The Taylor polynomials alternate around exp (- y) for y >= 0. *)
Lemma exp_poly_alternates n :
  forall y, 0 <= y -> 0 <= (- 1) ^ n * (exp_poly n y - exp (- y)).
Proof.
  induction n as [|n IH]; intros y Hy.
  - simpl. rewrite Rmult_1_l.
    assert (exp (- y) <= 1); [|lra].
    rewrite <- exp_0. destruct (Req_dec y 0) as [->|Hne].
    + rewrite Ropp_0. lra.
    + left. apply exp_increasing. lra.
  - destruct (Req_dec y 0) as [->|Hne].
    { rewrite exp_poly_0, Ropp_0, exp_0. lra. }
    destruct (MVT_cor2
                (fun u => (- 1) ^ S n * (exp_poly (S n) u - exp (- u)))
                (fun u => (- 1) ^ n * (exp_poly n u - exp (- u))) 0 y)
      as [c [Hc1 Hc2]]; [lra | |].
    + intros t _.
      replace ((- 1) ^ n * (exp_poly n t - exp (- t)))
        with ((- 1) ^ S n * (- exp_poly n t - - exp (- t))) by (simpl; ring).
      apply derivable_pt_lim_scal.
      apply derivable_pt_lim_minus;
        [apply exp_poly_derivable | apply exp_opp_derivable].
    + rewrite exp_poly_0, Ropp_0, exp_0 in Hc1.
      assert (0 <= (- 1) ^ n * (exp_poly n c - exp (- c)) * (y - 0)).
      { apply Rmult_le_pos; [apply IH|]; lra. }
      lra.
Qed.

Lemma exp_poly_4 y : exp_poly 4 y = 1 - y + y^2/2 - y^3/6 + y^4/24.
Proof. unfold exp_poly, exp_term. simpl. field. Qed.

Lemma exp_poly_5 y : exp_poly 5 y = 1 - y + y^2/2 - y^3/6 + y^4/24 - y^5/120.
Proof. unfold exp_poly, exp_term. simpl. field. Qed.

Lemma exp_opp_bounds y :
  0 <= y ->
  1 - y + y^2/2 - y^3/6 + y^4/24 - y^5/120 <= exp (- y)
  <= 1 - y + y^2/2 - y^3/6 + y^4/24.
Proof.
  intro Hy. rewrite <- exp_poly_5, <- exp_poly_4.
  pose proof (exp_poly_alternates 4 y Hy) as H4.
  pose proof (exp_poly_alternates 5 y Hy) as H5.
  replace ((- 1) ^ 4) with 1 in H4 by ring.
  replace ((- 1) ^ 5) with (- 1) in H5 by ring.
  lra.
Qed.

Lemma PI_bounds : 3.1415926 < PI < 3.1415927.
Proof.
  pose proof (PI_2_3_7_ineq 3) as [H1 H2].
  unfold PI_2_3_7_tg, tg_alt, Ratan_seq in H1, H2. simpl in H1, H2.
  split; lra.
Qed.

Lemma inv_sqrt_2PI_bounds : 0.3989422 <= / sqrt (2 * PI) <= 0.3989423.
Proof.
  pose proof PI_bounds as [Hlo Hhi].
  assert (Hpos : 0 < 2 * PI) by lra.
  pose proof (sqrt_lt_R0 _ Hpos) as Hs.
  pose proof (sqrt_sqrt (2 * PI) (Rlt_le _ _ Hpos)) as Hsq.
  set (s := sqrt (2 * PI)) in *.
  assert (Hs1 : s <= 1 / 0.3989422).
  { destruct (Rle_dec s (1 / 0.3989422)) as [H|H]; [exact H|].
    apply Rnot_le_lt in H.
    assert ((1 / 0.3989422) * (1 / 0.3989422) < s * s) by (apply Rmult_le_0_lt_compat; lra).
    lra. }
  assert (Hs2 : 1 / 0.3989423 <= s).
  { destruct (Rle_dec (1 / 0.3989423) s) as [H|H]; [exact H|].
    apply Rnot_le_lt in H.
    assert (s * s < (1 / 0.3989423) * (1 / 0.3989423)) by (apply Rmult_le_0_lt_compat; lra).
    lra. }
  split.
  - replace 0.3989422 with (/ (1 / 0.3989422)) by lra.
    apply Rinv_le_contravar; assumption.
  - replace 0.3989423 with (/ (1 / 0.3989423)) by lra.
    apply Rinv_le_contravar; [lra | assumption].
Qed.

Lemma gauss_continuous : forall t, continuity_pt gauss t.
Proof. intro t. apply derivable_continuous_pt. unfold gauss. reg. Qed.

Lemma pdf_gauss t : Norm.pdf t = / sqrt (2 * PI) * gauss t.
Proof.
  unfold Norm.pdf, gauss. replace (- t ^ 2 / 2) with (- (t ^ 2 / 2)) by lra.
  unfold Rdiv at 1. ring.
Qed.

Lemma integral_pdf_gauss x :
  0 <= x ->
  integral Norm.pdf Norm.pdf_continuous 0 x
  = / sqrt (2 * PI) * integral gauss gauss_continuous 0 x.
Proof.
  intro Hx.
  set (c := / sqrt (2 * PI)).
  set (G := fun t => c * integral gauss gauss_continuous 0 t).
  assert (HG : forall t, 0 <= t <= x -> derivable_pt_lim G t (c * gauss t)).
  { intros t _. apply (derivable_pt_lim_scal (integral gauss gauss_continuous 0)).
    apply integral_derivable. }
  assert (G0 : G 0 = 0) by (unfold G; rewrite integral_refl; ring).
  pose proof (integral_lower Norm.pdf Norm.pdf_continuous G _ 0 x Hx HG) as Hl.
  pose proof (integral_upper Norm.pdf Norm.pdf_continuous G _ 0 x Hx HG) as Hu.
  rewrite G0 in Hl, Hu.
  assert (G x <= integral Norm.pdf Norm.pdf_continuous 0 x).
  { rewrite <- (Rminus_0_r (G x)). apply Hl. intros t _. rewrite pdf_gauss. apply Rle_refl. }
  assert (integral Norm.pdf Norm.pdf_continuous 0 x <= G x).
  { rewrite <- (Rminus_0_r (G x)). apply Hu. intros t _. rewrite pdf_gauss. apply Rle_refl. }
  unfold G in *. lra.
Qed.

Lemma monomial_derivable c n t :
  derivable_pt_lim (fun u => c * u ^ n) t (c * (INR n * t ^ pred n)).
Proof.
  apply (derivable_pt_lim_scal (fun u => u ^ n)). apply derivable_pt_lim_pow.
Qed.

Lemma gauss_upper_derivable t :
  derivable_pt_lim gauss_upper t (1 - t^2/2 + t^4/8 - t^6/48 + t^8/384).
Proof.
  apply derivable_pt_lim_eq with
    (f := fun u => 1 * u ^ 1 + (- / 6) * u ^ 3 + / 40 * u ^ 5
                   + (- / 336) * u ^ 7 + / 3456 * u ^ 9).
  { intro u. unfold gauss_upper. field. }
  replace (1 - t^2/2 + t^4/8 - t^6/48 + t^8/384)
    with (1 * (INR 1 * t ^ pred 1) + (- / 6) * (INR 3 * t ^ pred 3)
          + / 40 * (INR 5 * t ^ pred 5) + (- / 336) * (INR 7 * t ^ pred 7)
          + / 3456 * (INR 9 * t ^ pred 9))
    by (simpl; field).
  repeat (apply (derivable_pt_lim_plus (fun u => _) (fun u => _));
          [|apply monomial_derivable]).
  apply monomial_derivable.
Qed.

Lemma gauss_lower_derivable t :
  derivable_pt_lim gauss_lower t
    (1 - t^2/2 + t^4/8 - t^6/48 + t^8/384 - t^10/3840).
Proof.
  apply derivable_pt_lim_eq with
    (f := fun u => gauss_upper u + (- / 42240) * u ^ 11).
  { intro u. unfold gauss_lower. field. }
  replace (1 - t^2/2 + t^4/8 - t^6/48 + t^8/384 - t^10/3840)
    with (1 - t^2/2 + t^4/8 - t^6/48 + t^8/384
          + (- / 42240) * (INR 11 * t ^ pred 11))
    by (simpl; field).
  apply (derivable_pt_lim_plus gauss_upper (fun u => _));
    [apply gauss_upper_derivable | apply monomial_derivable].
Qed.

Lemma integral_gauss_bounds x :
  0 <= x ->
  gauss_lower x <= integral gauss gauss_continuous 0 x <= gauss_upper x.
Proof.
  intro Hx. split.
  - replace (gauss_lower x) with (gauss_lower x - gauss_lower 0)
      by (unfold gauss_lower, gauss_upper; field).
    apply integral_lower with
      (g := fun t => 1 - t^2/2 + t^4/8 - t^6/48 + t^8/384 - t^10/3840);
      [exact Hx | intros; apply gauss_lower_derivable |].
    intros t _. unfold gauss.
    assert (Hu : 0 <= t ^ 2 / 2) by (pose proof (pow2_ge_0 t); lra).
    pose proof (exp_opp_bounds _ Hu) as [H _].
    eapply Rle_trans; [|exact H]. right. field.
  - replace (gauss_upper x) with (gauss_upper x - gauss_upper 0)
      by (unfold gauss_upper; field).
    apply integral_upper with
      (g := fun t => 1 - t^2/2 + t^4/8 - t^6/48 + t^8/384);
      [exact Hx | intros; apply gauss_upper_derivable |].
    intros t _. unfold gauss.
    assert (Hu : 0 <= t ^ 2 / 2) by (pose proof (pow2_ge_0 t); lra).
    pose proof (exp_opp_bounds _ Hu) as [_ H].
    eapply Rle_trans; [exact H|]. right. field.
Qed.

(** Brackets of the distribution function on x >= 0. *)
Lemma cdf_bounds x :
  0 <= x -> 0 <= gauss_lower x ->
  1 / 2 + 0.3989422 * gauss_lower x <= Norm.cdf x
  <= 1 / 2 + 0.3989423 * gauss_upper x.
Proof.
  intros Hx Hlo. unfold Norm.cdf. rewrite (integral_pdf_gauss x Hx).
  pose proof (integral_gauss_bounds x Hx) as [H1 H2].
  pose proof inv_sqrt_2PI_bounds as [C1 C2].
  set (c := / sqrt (2 * PI)) in *.
  set (J := integral gauss gauss_continuous 0 x) in *.
  assert (0.3989422 * gauss_lower x <= c * J).
  { apply Rmult_le_compat; lra. }
  assert (c * J <= 0.3989423 * gauss_upper x).
  { apply Rmult_le_compat; lra. }
  lra.
Qed.

Lemma cdf_035_bounds : 0.63683062 <= Norm.cdf 0.35 <= 0.63683066.
Proof.
  assert (H0 : 0 <= gauss_lower 0.35) by (unfold gauss_lower, gauss_upper; lra).
  pose proof (cdf_bounds 0.35 ltac:(lra) H0) as [H1 H2].
  unfold gauss_lower, gauss_upper in H1, H2. split; lra.
Qed.

Lemma cdf_015_bounds : 0.55961768 <= Norm.cdf 0.15 <= 0.55961770.
Proof.
  assert (H0 : 0 <= gauss_lower 0.15) by (unfold gauss_lower, gauss_upper; lra).
  pose proof (cdf_bounds 0.15 ltac:(lra) H0) as [H1 H2].
  unfold gauss_lower, gauss_upper in H1, H2. split; lra.
Qed.

Lemma discount_bounds : 0.95122942 <= exp (- (0.05)) <= 0.95122943.
Proof.
  pose proof (exp_opp_bounds 0.05 ltac:(lra)) as [H1 H2]. split; lra.
Qed.

Lemma pdf_035_bounds : 0.3752402 <= Norm.pdf 0.35 <= 0.3752404.
Proof.
  rewrite pdf_gauss. unfold gauss.
  pose proof (exp_opp_bounds (0.35 ^ 2 / 2) ltac:(lra)) as [H1 H2].
  pose proof inv_sqrt_2PI_bounds as [C1 C2].
  set (c := / sqrt (2 * PI)) in *.
  set (e := exp (- (0.35 ^ 2 / 2))) in *.
  assert (G1 : 0.94058806 <= e) by lra.
  assert (G2 : e <= 0.94058808) by lra.
  assert (0.3989422 * 0.94058806 <= c * e) by (apply Rmult_le_compat; lra).
  assert (c * e <= 0.3989423 * 0.94058808) by (apply Rmult_le_compat; lra).
  split; lra.
Qed.

Lemma d1_at_the_money : Spec.d1 at_the_money = 0.35.
Proof.
  unfold Spec.d1, at_the_money; cbn.
  replace (100 / 100) with 1 by field. rewrite ln_1, sqrt_1. lra.
Qed.

Lemma d2_at_the_money : Spec.d2 at_the_money = 0.15.
Proof.
  unfold Spec.d2. rewrite d1_at_the_money. unfold at_the_money; cbn.
  rewrite sqrt_1. lra.
Qed.

Lemma at_the_money_values :
  Rabs (Spec.call_price at_the_money - 10.4506) < 0.00005 /\
  Rabs (Spec.put_price at_the_money - 5.5735) < 0.00005 /\
  Rabs (Spec.call_delta at_the_money - 0.6368) < 0.00005 /\
  Rabs (Spec.gamma at_the_money - 0.0188) < 0.00005.
Proof.
  unfold Spec.call_price, Spec.put_price, Spec.call_delta, Spec.gamma.
  rewrite d1_at_the_money, d2_at_the_money, !cdf_opp.
  unfold at_the_money; cbn. rewrite sqrt_1.
  replace (- (0.05) * 1) with (- (0.05)) by lra.
  pose proof cdf_035_bounds as [A1 A2].
  pose proof cdf_015_bounds as [B1 B2].
  pose proof discount_bounds as [E1 E2].
  pose proof pdf_035_bounds as [G1 G2].
  set (a := Norm.cdf 0.35) in *. set (b := Norm.cdf 0.15) in *.
  set (e := exp (- (0.05))) in *. set (g := Norm.pdf 0.35) in *.
  assert (P1 : 0.95122942 * 0.55961768 <= e * b) by (apply Rmult_le_compat; lra).
  assert (P2 : e * b <= 0.95122943 * 0.55961770) by (apply Rmult_le_compat; lra).
  repeat split; apply Rabs_def1; lra.
Qed.

(** C1, pricing: on inputs that satisfy the invariants (spot, strike,
    time_to_maturity, volatility > 0) the pricing operation computes
    call_price, put_price, call_delta and gamma by the Black-Scholes-Merton
    equations, with d1 and d2 as stated; for spot = 100, strike = 100,
    time_to_maturity = 1, volatility = 0.2, rate = 0.05 the results are
    10.4506, 5.5735, 0.6368 and 0.0188 when rounded to four decimals. *)
Theorem pricing_by_black_scholes_merton (i : Spec.PricingInputs) :
  Spec.invariants i ->
  exists o, price i = BlackScholes.Priced o /\
    BlackScholes.call_price o = Spec.call_price i /\
    BlackScholes.put_price o = Spec.put_price i /\
    BlackScholes.call_delta o = Spec.call_delta i /\
    BlackScholes.call_gamma o = Spec.gamma i /\
    (i = at_the_money ->
     Rabs (BlackScholes.call_price o - 10.4506) < 0.00005 /\
     Rabs (BlackScholes.put_price o - 5.5735) < 0.00005 /\
     Rabs (BlackScholes.call_delta o - 0.6368) < 0.00005 /\
     Rabs (BlackScholes.call_gamma o - 0.0188) < 0.00005).
Proof.
  intro Hinv.
  destruct (price_invariants i Hinv) as (o & Ho & Hc & Hp & Hd & _ & Hg & _).
  exists o. repeat (split; [assumption|]).
  intros ->. rewrite Hc, Hp, Hd, Hg. exact at_the_money_values.
Qed.

Lemma pricing_by_black_scholes_merton_witness :
  Spec.invariants at_the_money /\
  exists o, price at_the_money = BlackScholes.Priced o /\
    Rabs (BlackScholes.call_price o - 10.4506) < 0.00005 /\
    Rabs (BlackScholes.put_price o - 5.5735) < 0.00005 /\
    Rabs (BlackScholes.call_delta o - 0.6368) < 0.00005 /\
    Rabs (BlackScholes.call_gamma o - 0.0188) < 0.00005.
Proof.
  split; [exact at_the_money_invariants|].
  destruct (pricing_by_black_scholes_merton at_the_money at_the_money_invariants)
    as (o & Ho & _ & _ & _ & _ & Hvalues).
  exists o. split; [exact Ho | exact (Hvalues eq_refl)].
Defined.

(** ** Running the core *)

(** Decide the comparisons of reals that guard the code. *)
Ltac real_case :=
  match goal with
  | |- context [Rle_dec ?a ?b] =>
      destruct (Rle_dec a b); try (exfalso; lra)
  | |- context [Req_dec_T ?a ?b] =>
      destruct (Req_dec_T a b); try (exfalso; lra)
  end.

Ltac run_core :=
  unfold bind, ret, raise, lift, try_except, try_except_Error, emit,
    log_message, showinfo, showwarning, showerror, db_execute, read_number;
  cbn [_read_float number db screen].

Ltac finish_run :=
  cbv beta iota zeta delta
    [bind ret raise lift try_except try_except_Error emit log_message showinfo
       showwarning showerror db_execute];
  cbn; rewrite <- ?app_assoc; reflexivity.

(** C2, as the code has it: a pricing call whose time to maturity or
    volatility is not positive fails with a ValueError that names the field
    (time to maturity first); the error is shown and logged, the call
    returns None, and no row is written and no price computed or shown. *)
Theorem nonpositive_maturity_or_volatility_rejected
    (current_price strike ttm vol rate : R) (last_calc_id : option Z) (w : world) :
  ttm <= 0 \/ vol <= 0 ->
  let msg := if Rle_dec ttm 0 then [Lit "Time to maturity must be > 0"]
             else [Lit "Volatility must be > 0"] in
  let out := calculate_option_prices (Num current_price) (Num strike) (Num ttm)
               (Num vol) (Num rate) last_calc_id w in
  out = (Return None,
         World (db w)
           (screen w ++
              [Log [Lit "Calculating prices..."];
               ShowError "Calculation error" msg;
               Log (Lit "Error while calculating prices: " :: msg)])) /\
  fails_before_effects w out.
Proof.
  intros Hbad msg out.
  assert (E : out = (Return None,
         World (db w)
           (screen w ++
              [Log [Lit "Calculating prices..."];
               ShowError "Calculation error" msg;
               Log (Lit "Error while calculating prices: " :: msg)]))).
  { unfold out, msg, calculate_option_prices. run_core. cbn.
    destruct (Rle_dec ttm 0) as [Ht|Ht].
    - finish_run.
    - destruct (Rle_dec vol 0) as [Hv|Hv]; [|exfalso; lra].
      finish_run. }
  split; [exact E|]. rewrite E. unfold fails_before_effects; cbn [snd fst db screen].
  split; [reflexivity|]. eexists. split; [reflexivity|]. split.
  - exists "Calculation error"%string, msg. cbn. tauto.
  - intros l m Hin. cbn in Hin. intuition discriminate.
Qed.

Lemma nonpositive_maturity_or_volatility_rejected_witness :
  (0 <= 0 \/ 0.2 <= 0) /\
  fails_before_effects fresh_world
    (calculate_option_prices (Num 100) (Num 100) (Num 0) (Num 0.2) (Num 0.05)
       None fresh_world).
Proof.
  split; [left; apply Rle_refl|].
  exact (proj2 (nonpositive_maturity_or_volatility_rejected 100 100 0 0.2 0.05
                  None fresh_world (or_introl (Rle_refl 0)))).
Defined.

(** A spot of -1 passes the checks: the row is written and the call returns
    its identifier. *)
Lemma nonpositive_spot_run :
  calculate_option_prices (Num (-1)) (Num 100) (Num 1) (Num 0.2) (Num 0.05)
    None fresh_world
  = (Return (Some 1%Z),
     World (DB.Handler true [DB.OptionPricing 1 (-1) 100 1 0.2 0.05] [] 2 1)
       [Log [Lit "Calculating prices..."];
        Log [Lit "Inserted input record with calc_id="; Int (Some 1%Z);
             Lit " to the database."];
        LabelConfig call_val_label [Lit "$"; Float 6 None];
        LabelConfig put_val_label [Lit "$"; Float 6 None];
        LabelConfig delta_call_label [Lit "Δ (Call): "; Float 6 None];
        LabelConfig delta_put_label [Lit "Δ (Put): "; Float 6 None];
        LabelConfig gamma_label [Lit "Γ: "; Float 6 None];
        Log [Lit "Price calculation completed."];
        ShowInfo "Price Calculation Complete"
          [Lit "Option prices and Greeks calculated successfully."]]).
Proof.
  unfold calculate_option_prices, insert_input_record, update_ui. run_core. cbn.
  repeat real_case.
  unfold BlackScholes.run; cbn.
  repeat real_case. reflexivity.
Qed.

(** C2 as stated fails.  A spot of -1 violates the invariant spot > 0, yet
    the call writes the calculation row and shows prices instead of failing
    before any effect.  And where the code does reject an input (a time to
    maturity of 0), the error text names the field without the value and
    the call returns None instead of raising. *)
Lemma nonpositive_spot_is_stored :
  (~ Spec.invariants (Spec.Inputs (-1) 100 1 0.2 0.05) /\
   ~ fails_before_effects fresh_world
       (calculate_option_prices (Num (-1)) (Num 100) (Num 1) (Num 0.2)
          (Num 0.05) None fresh_world)) /\
  calculate_option_prices (Num 100) (Num 100) (Num 0) (Num 0.2) (Num 0.05)
    None fresh_world
  = (Return None,
     World fresh_db
       [Log [Lit "Calculating prices..."];
        ShowError "Calculation error" [Lit "Time to maturity must be > 0"];
        Log [Lit "Error while calculating prices: ";
             Lit "Time to maturity must be > 0"]]).
Proof.
  split; [split|].
  - unfold Spec.invariants; cbn. intros (_ & _ & H & _). lra.
  - rewrite nonpositive_spot_run. unfold fails_before_effects; cbn.
    intros [H _]. discriminate H.
  - unfold calculate_option_prices. run_core. cbn.
    destruct (Rle_dec 0 0) as [_|H]; [finish_run | exfalso; lra].
Qed.

(** C3, the code at a lost connection: [insert_input_record] catches the
    driver's error, shows it and returns None where an identifier is
    expected, and [insert_heatmap_records] returns normally; neither
    propagates the error to its caller. *)
Theorem storage_error_is_swallowed (w : world) :
  DB.reachable (db w) = false ->
  (forall current_price strike ttm vol rate,
     insert_input_record current_price strike ttm vol rate w
     = (Return None,
        World (db w)
          (screen w ++
             [ShowError "Database Error"
                [Lit "Could not insert input record: ";
                 Lit "Failed to connect to MySQL database"]]))) /\
  (forall calc_id heatmap_data,
     insert_heatmap_records calc_id heatmap_data w
     = (Return tt,
        World (db w)
          (screen w ++
             [ShowError "Database Error"
                [Lit "Could not insert heatmap records: ";
                 Lit "Failed to connect to MySQL database"]]))).
Proof.
  intro Hdown. destruct w as [d s]; cbn in Hdown. split; intros.
  - unfold insert_input_record, DB.execute_insert_input. run_core.
    rewrite Hdown. reflexivity.
  - unfold insert_heatmap_records, DB.execute_insert_heatmaps. run_core.
    rewrite Hdown. reflexivity.
Qed.

Lemma storage_error_is_swallowed_witness :
  DB.reachable (db lost_world) = false /\
  insert_input_record 100 100 1 0.2 0.05 lost_world
  = (Return None,
     World (db lost_world)
       [ShowError "Database Error"
          [Lit "Could not insert input record: ";
           Lit "Failed to connect to MySQL database"]]).
Proof.
  split; [reflexivity|].
  exact (proj1 (storage_error_is_swallowed lost_world eq_refl) 100 100 1 0.2 0.05).
Defined.

(** C4, as the code has it: when the store holds no sample of the selected
    calculation, the load produces no matrices and draws nothing; it shows
    the notice "No data" and returns normally, without raising or reporting
    an error. *)
Theorem load_without_samples_shows_notice (calc_id : Z) (w : world) :
  DB.reachable (db w) = true ->
  filter (fun row => Z.eqb (DB.hm_calc_id row) calc_id) (DB.heatmap_data (db w)) = [] ->
  _on_history_load (Some calc_id) w
  = (Return tt,
     World (db w)
       (screen w ++
          [ShowInfo "No data"
             [Lit "No heatmap rows found for calc_id="; Int (Some calc_id)]])).
Proof.
  intros Hup Hnone. destruct w as [d s]; cbn in Hup, Hnone.
  unfold _on_history_load, DB.execute_select_heatmap. run_core.
  rewrite Hup, Hnone. reflexivity.
Qed.

Lemma load_without_samples_shows_notice_witness :
  _on_history_load (Some 1%Z) fresh_world
  = (Return tt,
     World fresh_db
       [ShowInfo "No data"
          [Lit "No heatmap rows found for calc_id="; Int (Some 1%Z)]]).
Proof.
  exact (load_without_samples_shows_notice 1 fresh_world eq_refl eq_refl).
Defined.

(** C4 as stated fails: a load without samples neither raises nor reports an
    error. *)
Lemma load_without_samples_is_no_error :
  DB.execute_select_heatmap (db fresh_world) 1 = (Return [], db fresh_world) /\
  ~ fails_with_error fresh_world (_on_history_load (Some 1%Z) fresh_world).
Proof.
  split; [reflexivity|].
  assert (E : _on_history_load (Some 1%Z) fresh_world
              = (Return tt,
                 World fresh_db
                   [ShowInfo "No data"
                      [Lit "No heatmap rows found for calc_id="; Int (Some 1%Z)]]))
    by reflexivity.
  rewrite E.
  intros [[e He] | (added & title & msg & Hs & Hin)].
  - discriminate He.
  - cbn in Hs. subst added. cbn in Hin. destruct Hin as [Hin|[]]. discriminate Hin.
Qed.

(** ** Lists and matrices *)

Lemma list_set_middle {A} (l1 : list A) (x : A) (l2 : list A) (v : A) :
  list_set (l1 ++ x :: l2) (List.length l1) v = Some (l1 ++ v :: l2).
Proof.
  induction l1 as [|a l1 IH]; cbn; [reflexivity|]. rewrite IH. reflexivity.
Qed.

Lemma nth_error_middle {A} (l1 : list A) (x : A) (l2 : list A) :
  nth_error (l1 ++ x :: l2) (List.length l1) = Some x.
Proof. induction l1 as [|a l1 IH]; cbn; [reflexivity | exact IH]. Qed.

Lemma setitem_middle (R1 R2 : matrix) (c1 c2 : list cell) (x v : cell) :
  setitem (R1 ++ (c1 ++ x :: c2) :: R2) (List.length R1) (List.length c1) v
  = Return (R1 ++ (c1 ++ v :: c2) :: R2).
Proof.
  unfold setitem. rewrite nth_error_middle, list_set_middle, list_set_middle.
  reflexivity.
Qed.

Lemma cell_at_middle (R1 R2 : matrix) (c1 c2 : list cell) (v : cell) :
  cell_at (R1 ++ (c1 ++ v :: c2) :: R2) (List.length R1) (List.length c1) = v.
Proof. unfold cell_at. rewrite !nth_middle. reflexivity. Qed.

(** ** [np.linspace] *)

Lemma linspace_closed_form (start stop : R) (num : nat) :
  (2 <= num)%nat ->
  linspace start stop num = map (linspace_at start stop num) (seq 0 num).
Proof.
  intro Hnum. destruct num as [|m]; [lia|].
  assert (Hm : INR m <> 0) by (apply not_0_INR; lia).
  unfold linspace. replace (1 <? S m)%nat with true
    by (symmetry; apply Nat.ltb_lt; lia).
  replace (S m - 1)%nat with m by lia.
  rewrite seq_S, !map_app. cbn [map Nat.add].
  rewrite removelast_last. f_equal.
  - apply map_ext. intro i. unfold linspace_at.
    replace (S m - 1)%nat with m by lia. field. exact Hm.
  - unfold linspace_at. replace (S m - 1)%nat with m by lia.
    f_equal. field. exact Hm.
Qed.

Lemma linspace_length (start stop : R) (num : nat) :
  (2 <= num)%nat -> List.length (linspace start stop num) = num.
Proof.
  intro H. rewrite linspace_closed_form by exact H.
  rewrite length_map, length_seq. reflexivity.
Qed.

Lemma linspace_nth (start stop : R) (num i : nat) :
  (2 <= num)%nat -> (i < num)%nat ->
  nth i (linspace start stop num) 0 = linspace_at start stop num i.
Proof.
  intros H Hi. rewrite linspace_closed_form by exact H.
  rewrite (nth_indep _ 0 (linspace_at start stop num 0))
    by (rewrite length_map, length_seq; exact Hi).
  rewrite map_nth, seq_nth by exact Hi. reflexivity.
Qed.

Lemma linspace_at_increasing (start stop : R) (num i j : nat) :
  (2 <= num)%nat -> start < stop -> (i < j)%nat ->
  linspace_at start stop num i < linspace_at start stop num j.
Proof.
  intros Hnum Hlt Hij. unfold linspace_at.
  assert (Hd : 0 < INR (num - 1)) by (apply lt_0_INR; lia).
  assert (Hi : INR i < INR j) by (apply lt_INR; exact Hij).
  unfold Rdiv. apply Rplus_lt_compat_l. apply Rmult_lt_compat_r.
  - apply Rinv_0_lt_compat. exact Hd.
  - apply Rmult_lt_compat_r; lra.
Qed.

Lemma map_seq_sorted (f : nat -> R) (a n : nat) :
  (forall i j, (i < j)%nat -> f i < f j) ->
  StronglySorted Rlt (map f (seq a n)).
Proof.
  intro Hf. revert a. induction n as [|n IH]; intro a; cbn.
  - constructor.
  - constructor; [apply IH|].
    apply Forall_forall. intros y Hy. apply in_map_iff in Hy.
    destruct Hy as (k & <- & Hk). apply in_seq in Hk. apply Hf. lia.
Qed.

Lemma linspace_sorted (start stop : R) (num : nat) :
  (2 <= num)%nat -> start < stop ->
  StronglySorted Rlt (linspace start stop num).
Proof.
  intros Hnum Hlt. rewrite linspace_closed_form by exact Hnum.
  apply map_seq_sorted. intros i j Hij.
  apply linspace_at_increasing; assumption.
Qed.

Lemma linspace_positive (start stop : R) (num : nat) (x : R) :
  (2 <= num)%nat -> 0 < start -> start < stop ->
  In x (linspace start stop num) -> 0 < x.
Proof.
  intros Hnum Hpos Hlt Hin. rewrite linspace_closed_form in Hin by exact Hnum.
  apply in_map_iff in Hin. destruct Hin as (k & <- & _). unfold linspace_at.
  assert (Hd : 0 < INR (num - 1)) by (apply lt_0_INR; lia).
  assert (Hk : 0 <= INR k) by apply pos_INR.
  assert (0 <= INR k * (stop - start) / INR (num - 1)); [|lra].
  unfold Rdiv. apply Rmult_le_pos.
  - apply Rmult_le_pos; lra.
  - left. apply Rinv_0_lt_compat. exact Hd.
Qed.

(** ** The sweep of [plot_heatmaps] *)

Section Sweep.

Variables ttm strike rate : R.
Hypothesis strike_nonzero : strike <> 0.

Let C := grid_cell BlackScholes.call_price ttm strike rate.
Let P := grid_cell BlackScholes.put_price ttm strike rate.

(** With a strike other than zero no grid point raises, and the point is
    stored at its indices. *)
Lemma sweep_cell_middle (vol spot : R) (R1 R2 P1 P2 : matrix)
    (cdone pdone zc zp : list cell) (z z' : cell) (recs : list DB.record) :
  List.length P1 = List.length R1 ->
  List.length pdone = List.length cdone ->
  sweep_cell ttm strike rate (List.length R1) vol (List.length cdone) spot
    (Sweep (R1 ++ (cdone ++ z :: zc) :: R2) (P1 ++ (pdone ++ z' :: zp) :: P2) recs)
  = Return
      (Sweep (R1 ++ (cdone ++ C spot vol :: zc) :: R2)
         (P1 ++ (pdone ++ P spot vol :: zp) :: P2)
         (recs ++ [(spot, vol, C spot vol, P spot vol)])).
Proof.
  intros HP Hp. unfold sweep_cell, C, P, grid_cell.
  assert (Hrun : BlackScholes.run (BlackScholes.Build ttm strike spot vol rate)
                 <> BlackScholes.ZeroDivision).
  { unfold BlackScholes.run; cbn. destruct (Req_dec_T strike 0); [contradiction|].
    repeat match goal with |- context [if ?c then _ else _] => destruct c end;
      discriminate. }
  destruct (BlackScholes.run (BlackScholes.Build ttm strike spot vol rate))
    as [o| |]; [| |contradiction];
    cbn [sw_call_prices sw_put_prices save_records];
    rewrite setitem_middle; rewrite <- HP, <- Hp; rewrite setitem_middle;
    rewrite HP, Hp;
    change (nth (List.length cdone) (nth (List.length R1) ?m []) None)
      with (cell_at m (List.length R1) (List.length cdone));
    rewrite cell_at_middle; rewrite <- HP, <- Hp;
    change (nth (List.length pdone) (nth (List.length P1) ?m []) None)
      with (cell_at m (List.length P1) (List.length pdone));
    rewrite cell_at_middle; reflexivity.
Qed.

(** The inner loop fills the rest of row [i] from column [length cdone]. *)
Lemma sweep_row (vol : R) (R1 R2 P1 P2 : matrix) :
  List.length P1 = List.length R1 ->
  forall (xs : list R) (cdone pdone zc zp : list cell) (recs : list DB.record),
  List.length pdone = List.length cdone ->
  List.length zc = List.length xs ->
  List.length zp = List.length xs ->
  for_each (combine (seq (List.length cdone) (List.length xs)) xs)
    (fun '(j, spot) st => sweep_cell ttm strike rate (List.length R1) vol j spot st)
    (Sweep (R1 ++ (cdone ++ zc) :: R2) (P1 ++ (pdone ++ zp) :: P2) recs)
  = Return
      (Sweep (R1 ++ (cdone ++ map (fun spot => C spot vol) xs) :: R2)
         (P1 ++ (pdone ++ map (fun spot => P spot vol) xs) :: P2)
         (recs ++ map (fun spot => (spot, vol, C spot vol, P spot vol)) xs)).
Proof.
  intro HP. induction xs as [|x xs IH]; intros cdone pdone zc zp recs Hp Hzc Hzp.
  - destruct zc; [|discriminate]. destruct zp; [|discriminate].
    cbn. rewrite !app_nil_r. reflexivity.
  - destruct zc as [|z zc]; [discriminate|]. destruct zp as [|z' zp]; [discriminate|].
    cbn [List.length seq combine for_each].
    rewrite sweep_cell_middle by assumption.
    specialize (IH (cdone ++ [C x vol]) (pdone ++ [P x vol]) zc zp
                  (recs ++ [(x, vol, C x vol, P x vol)])).
    rewrite !length_app in IH. cbn [List.length] in IH.
    rewrite !Nat.add_1_r in IH. rewrite <- !app_assoc in IH. cbn [app] in IH.
    rewrite IH; [reflexivity | | |].
    + rewrite Hp. reflexivity.
    + cbn in Hzc. lia.
    + cbn in Hzp. lia.
Qed.

(** The outer loop fills the remaining rows from row [length Rdone]. *)
Lemma sweep_rows (spots : list R) :
  forall (vols : list R) (Rdone Pdone Zc Zp : matrix) (recs : list DB.record),
  List.length Pdone = List.length Rdone ->
  List.length Zc = List.length vols ->
  List.length Zp = List.length vols ->
  Forall (fun row => List.length row = List.length spots) Zc ->
  Forall (fun row => List.length row = List.length spots) Zp ->
  for_each (combine (seq (List.length Rdone) (List.length vols)) vols)
    (fun '(i, vol) st =>
       for_each (enumerate spots)
         (fun '(j, spot) st' => sweep_cell ttm strike rate i vol j spot st')
         st)
    (Sweep (Rdone ++ Zc) (Pdone ++ Zp) recs)
  = Return
      (Sweep (Rdone ++ grid BlackScholes.call_price ttm strike rate spots vols)
         (Pdone ++ grid BlackScholes.put_price ttm strike rate spots vols)
         (recs ++ grid_records ttm strike rate spots vols)).
Proof.
  induction vols as [|vol vols IH]; intros Rdone Pdone Zc Zp recs HP HZc HZp Fc Fp.
  - destruct Zc; [|discriminate]. destruct Zp; [|discriminate].
    cbn. rewrite !app_nil_r. reflexivity.
  - destruct Zc as [|zc Zc]; [discriminate|]. destruct Zp as [|zp Zp]; [discriminate|].
    inversion Fc as [|? ? Hzc Fc']; subst. inversion Fp as [|? ? Hzp Fp']; subst.
    cbn [List.length seq combine for_each].
    pose proof (sweep_row vol Rdone Zc Pdone Zp HP spots [] [] zc zp recs
                  eq_refl Hzc Hzp) as Hrow.
    cbn [List.length app] in Hrow.
    change (combine (seq 0 (List.length spots)) spots) with (enumerate spots) in Hrow.
    rewrite Hrow.
    specialize (IH (Rdone ++ [map (fun spot => C spot vol) spots])
                  (Pdone ++ [map (fun spot => P spot vol) spots]) Zc Zp
                  (recs ++ map (fun spot => (spot, vol, C spot vol, P spot vol)) spots)).
    rewrite !length_app in IH. cbn [List.length] in IH.
    rewrite !Nat.add_1_r in IH. rewrite <- !app_assoc in IH. cbn [app] in IH.
    rewrite IH; [reflexivity | | | | assumption | assumption].
    + rewrite HP. reflexivity.
    + cbn in HZc. lia.
    + cbn in HZp. lia.
Qed.

Lemma full_rows (n m : nat) (v : cell) :
  List.length (full n m v) = n /\
  Forall (fun row => List.length row = m) (full n m v).
Proof.
  unfold full. split; [apply repeat_length|].
  apply Forall_forall. intros row Hin. apply repeat_spec in Hin. subst row.
  apply repeat_length.
Qed.

(** The code of lines 93-121 computes the grid over the two axes. *)
Lemma heatmap_sweep_grid (spot_min spot_max vol_min vol_max : R) (n : nat) :
  (2 <= n)%nat ->
  let spots := linspace spot_min spot_max n in
  let vols := linspace vol_min vol_max n in
  heatmap_sweep ttm strike rate spot_min spot_max vol_min vol_max n
  = Return
      (Surface spots vols
         (grid BlackScholes.call_price ttm strike rate spots vols)
         (grid BlackScholes.put_price ttm strike rate spots vols),
       grid_records ttm strike rate spots vols).
Proof.
  intros Hn spots vols. unfold heatmap_sweep. fold spots vols. unfold enumerate at 1.
  destruct (full_rows n n (Some 0)) as [Hlen Hrows].
  pose proof (sweep_rows spots vols [] [] (full n n (Some 0)) (full n n (Some 0)) []
                eq_refl) as H.
  cbn [List.length app] in H. rewrite H; [reflexivity | | | |].
  - unfold vols. rewrite linspace_length by exact Hn. exact Hlen.
  - unfold vols. rewrite linspace_length by exact Hn. exact Hlen.
  - unfold spots. rewrite linspace_length by exact Hn. exact Hrows.
  - unfold spots. rewrite linspace_length by exact Hn. exact Hrows.
Qed.

End Sweep.

Lemma grid_length (get : BlackScholes.outputs -> R) (ttm strike rate : R)
    (spots vols : list R) :
  List.length (grid get ttm strike rate spots vols) = List.length vols.
Proof. unfold grid. apply length_map. Qed.

Lemma grid_row (get : BlackScholes.outputs -> R) (ttm strike rate : R)
    (spots vols : list R) (i : nat) :
  (i < List.length vols)%nat ->
  nth i (grid get ttm strike rate spots vols) []
  = map (fun spot => grid_cell get ttm strike rate spot (nth i vols 0)) spots.
Proof.
  intro Hi. unfold grid.
  rewrite (nth_indep _ []
             (map (fun spot => grid_cell get ttm strike rate spot 0) spots))
    by (rewrite length_map; exact Hi).
  exact (map_nth
           (fun vol => map (fun spot => grid_cell get ttm strike rate spot vol) spots)
           vols 0 i).
Qed.

Lemma grid_cell_at (get : BlackScholes.outputs -> R) (ttm strike rate : R)
    (spots vols : list R) (i j : nat) :
  (i < List.length vols)%nat -> (j < List.length spots)%nat ->
  cell_at (grid get ttm strike rate spots vols) i j
  = grid_cell get ttm strike rate (nth j spots 0) (nth i vols 0).
Proof.
  intros Hi Hj. unfold cell_at. rewrite grid_row by exact Hi.
  rewrite (nth_indep _ None (grid_cell get ttm strike rate 0 (nth i vols 0)))
    by (rewrite length_map; exact Hj).
  exact (map_nth (fun spot => grid_cell get ttm strike rate spot (nth i vols 0))
           spots 0 j).
Qed.

(** C5, grid shape: for a resolution n >= 2, positive strike and maturity
    and ranges 0 < min < max, the sweep returns two axes of length n that are
    strictly increasing with axis[i] = min + i * (max - min) / (n - 1) and
    two n x n matrices indexed [vol_index][spot_index], whose cell (i, j)
    holds the call (put) price computed by the pricing model at spot axis[j]
    and volatility axis[i] with the base strike, maturity and rate. *)
Theorem sweep_fills_grid (ttm strike rate spot_min spot_max vol_min vol_max : R)
    (n : nat) :
  (2 <= n)%nat -> 0 < strike -> 0 < ttm ->
  0 < spot_min < spot_max -> 0 < vol_min < vol_max ->
  exists (s : surface) (recs : list DB.record),
    heatmap_sweep ttm strike rate spot_min spot_max vol_min vol_max n
    = Return (s, recs) /\
    List.length (spot_axis s) = n /\ List.length (vol_axis s) = n /\
    StronglySorted Rlt (spot_axis s) /\ StronglySorted Rlt (vol_axis s) /\
    (forall i, (i < n)%nat ->
       nth i (spot_axis s) 0
       = spot_min + INR i * (spot_max - spot_min) / INR (n - 1) /\
       nth i (vol_axis s) 0
       = vol_min + INR i * (vol_max - vol_min) / INR (n - 1)) /\
    List.length (call_prices s) = n /\ List.length (put_prices s) = n /\
    (forall i j, (i < n)%nat -> (j < n)%nat ->
       List.length (nth i (call_prices s) []) = n /\
       List.length (nth i (put_prices s) []) = n /\
       exists o,
         price (Spec.Inputs (nth j (spot_axis s) 0) strike ttm
                  (nth i (vol_axis s) 0) rate)
         = BlackScholes.Priced o /\
         cell_at (call_prices s) i j = Some (BlackScholes.call_price o) /\
         cell_at (put_prices s) i j = Some (BlackScholes.put_price o)).
Proof.
  intros Hn Hk Ht [Hs0 Hs] [Hv0 Hv].
  assert (Hk0 : strike <> 0) by lra.
  pose proof (heatmap_sweep_grid ttm strike rate Hk0 spot_min spot_max
                vol_min vol_max n Hn) as Hrun.
  cbv zeta in Hrun.
  set (spots := linspace spot_min spot_max n) in *.
  set (vols := linspace vol_min vol_max n) in *.
  assert (Ls : List.length spots = n) by (apply linspace_length; exact Hn).
  assert (Lv : List.length vols = n) by (apply linspace_length; exact Hn).
  eexists. eexists. split; [exact Hrun|]. cbn [spot_axis vol_axis call_prices put_prices].
  split; [exact Ls|]. split; [exact Lv|].
  split; [apply linspace_sorted; assumption|].
  split; [apply linspace_sorted; assumption|].
  split.
  { intros i Hi. unfold spots, vols. rewrite !linspace_nth by assumption.
    split; reflexivity. }
  rewrite !grid_length. split; [exact Lv|]. split; [exact Lv|].
  intros i j Hi Hj. rewrite !grid_row by lia. rewrite !length_map.
  split; [exact Ls|]. split; [exact Ls|].
  rewrite !grid_cell_at by lia.
  assert (Hsj : 0 < nth j spots 0).
  { apply (linspace_positive spot_min spot_max n); try assumption.
    apply nth_In. change (j < List.length spots)%nat. lia. }
  assert (Hvi : 0 < nth i vols 0).
  { apply (linspace_positive vol_min vol_max n); try assumption.
    apply nth_In. change (i < List.length vols)%nat. lia. }
  destruct (price_invariants
              (Spec.Inputs (nth j spots 0) strike ttm (nth i vols 0) rate))
    as (o & Ho & _).
  { unfold Spec.invariants;
      cbn [Spec.time_to_maturity Spec.volatility Spec.spot Spec.strike].
    repeat split; lra. }
  exists o. split; [exact Ho|]. unfold grid_cell. unfold price in Ho.
  cbn [Spec.time_to_maturity Spec.volatility Spec.spot Spec.strike Spec.rate] in Ho.
  rewrite Ho. split; reflexivity.
Qed.

Lemma sweep_fills_grid_witness :
  exists (s : surface) (recs : list DB.record),
    heatmap_sweep 1 100 0.05 80 120 0.1 0.3 2 = Return (s, recs) /\
    List.length (spot_axis s) = 2%nat /\ List.length (vol_axis s) = 2%nat /\
    List.length (call_prices s) = 2%nat /\ List.length (put_prices s) = 2%nat.
Proof.
  destruct (sweep_fills_grid 1 100 0.05 80 120 0.1 0.3 2)
    as (s & recs & Hrun & Ls & Lv & _ & _ & _ & Lc & Lp & _);
    [lia | lra | lra | lra | lra |].
  exists s, recs. repeat split; assumption.
Defined.

(** ** [sorted(set(...))] *)

Lemma insert_sorted_In (x y : R) (l : list R) :
  In y (insert_sorted x l) <-> y = x \/ In y l.
Proof.
  induction l as [|a l IH]; cbn.
  - intuition.
  - destruct (Rle_dec x a); cbn; [intuition|]. rewrite IH. intuition.
Qed.

Lemma sorted_In (x : R) (l : list R) : In x (sorted l) <-> In x l.
Proof.
  induction l as [|a l IH]; cbn; [tauto|].
  rewrite insert_sorted_In, IH. intuition.
Qed.

Lemma insert_sorted_strict (x : R) (l : list R) :
  StronglySorted Rlt l -> ~ In x l -> StronglySorted Rlt (insert_sorted x l).
Proof.
  induction l as [|a l IH]; intros Hs Hx; cbn.
  - constructor; constructor.
  - inversion Hs as [|? ? Hs' Ha]; subst.
    assert (Hxa : x <> a) by (intro E; apply Hx; left; auto).
    destruct (Rle_dec x a) as [Hle|Hgt].
    + constructor; [exact Hs|]. constructor; [lra|].
      eapply Forall_impl; [|exact Ha]. cbn. intros b Hb. lra.
    + constructor; [apply IH; [exact Hs' | intro; apply Hx; right; assumption]|].
      apply Forall_forall. intros b Hb. apply insert_sorted_In in Hb.
      destruct Hb as [->|Hb]; [lra|].
      rewrite Forall_forall in Ha. apply Ha. exact Hb.
Qed.

Lemma sorted_strict (l : list R) : NoDup l -> StronglySorted Rlt (sorted l).
Proof.
  induction 1 as [|x l Hx Hnd IH]; cbn; [constructor|].
  apply insert_sorted_strict; [exact IH|]. rewrite sorted_In. exact Hx.
Qed.

(** Two strictly increasing lists with the same elements are equal. *)
Lemma strictly_sorted_unique (l1 l2 : list R) :
  StronglySorted Rlt l1 -> StronglySorted Rlt l2 ->
  (forall x, In x l1 <-> In x l2) -> l1 = l2.
Proof.
  revert l2. induction l1 as [|a l1 IH]; intros l2 H1 H2 Hiff.
  - destruct l2 as [|b l2]; [reflexivity|].
    exfalso. apply (proj2 (Hiff b)). left. reflexivity.
  - destruct l2 as [|b l2].
    { exfalso. apply (proj1 (Hiff a)). left. reflexivity. }
    inversion H1 as [|? ? H1' Ha]; subst. inversion H2 as [|? ? H2' Hb]; subst.
    rewrite Forall_forall in Ha, Hb.
    assert (a = b).
    { destruct (proj1 (Hiff a) (or_introl eq_refl)) as [E|Hin]; [auto|].
      destruct (proj2 (Hiff b) (or_introl eq_refl)) as [E|Hin']; [auto|].
      pose proof (Hb _ Hin). pose proof (Ha _ Hin'). lra. }
    subst b. f_equal. apply IH; [assumption | assumption |].
    intro x. split; intro Hx.
    + destruct (proj1 (Hiff x) (or_intror Hx)) as [E|Hin]; [|exact Hin].
      subst x. pose proof (Ha _ Hx). lra.
    + destruct (proj2 (Hiff x) (or_intror Hx)) as [E|Hin]; [|exact Hin].
      subst x. pose proof (Hb _ Hx). lra.
Qed.

Lemma sorted_set_of_elements (axis l : list R) :
  StronglySorted Rlt axis -> (forall x, In x l <-> In x axis) ->
  sorted (set l) = axis.
Proof.
  intros Hs Hiff. apply strictly_sorted_unique.
  - apply sorted_strict. apply NoDup_nodup.
  - exact Hs.
  - intro x. rewrite sorted_In. unfold set. rewrite nodup_In. apply Hiff.
Qed.

Lemma strictly_sorted_NoDup (l : list R) : StronglySorted Rlt l -> NoDup l.
Proof.
  induction 1 as [|a l Hs IH Ha]; constructor; [|exact IH].
  intro Hin. rewrite Forall_forall in Ha. pose proof (Ha _ Hin). lra.
Qed.

(** ** The index dictionaries *)

Lemma find_unique {A} (f : A -> bool) (p : A) (l : list A) :
  In p l -> f p = true -> (forall q, In q l -> f q = true -> q = p) ->
  find f l = Some p.
Proof.
  induction l as [|a l IH]; intros Hin Hp Huniq; [contradiction|].
  cbn. destruct (f a) eqn:Ea.
  - f_equal. apply Huniq; [left; reflexivity | exact Ea].
  - destruct Hin as [->|Hin]; [congruence|].
    apply IH; [exact Hin | exact Hp |].
    intros q Hq. apply Huniq. right. exact Hq.
Qed.

Lemma in_combine_seq {A} (l : list A) (d : A) (a i : nat) (x : A) :
  In (i, x) (combine (seq a (List.length l)) l) <->
  (a <= i < a + List.length l)%nat /\ nth (i - a) l d = x.
Proof.
  revert a. induction l as [|y l IH]; intro a; cbn [List.length seq combine].
  - cbn. split; [tauto | lia].
  - cbn [In]. rewrite IH. split.
    + intros [E|[Hr Hn]].
      * inversion E; subst. split; [lia|]. rewrite Nat.sub_diag. reflexivity.
      * split; [lia|]. replace (i - a)%nat with (S (i - S a)) by lia. exact Hn.
    + intros [Hr Hn]. destruct (Nat.eq_dec i a) as [->|Hne].
      * left. rewrite Nat.sub_diag in Hn. cbn in Hn. subst. reflexivity.
      * right. split; [lia|].
        replace (i - a)%nat with (S (i - S a)) in Hn by lia. exact Hn.
Qed.

Lemma in_index_dict (l : list R) (s : R) (i : nat) :
  In (s, i) (index_dict l) <-> (i < List.length l)%nat /\ nth i l 0 = s.
Proof.
  unfold index_dict, enumerate. rewrite in_map_iff. split.
  - intros ([j x] & E & Hin). inversion E; subst.
    apply (in_combine_seq l 0) in Hin. rewrite Nat.sub_0_r in Hin.
    destruct Hin. split; [lia | assumption].
  - intros [Hi Hn]. exists (i, s). split; [reflexivity|].
    apply (in_combine_seq l 0). rewrite Nat.sub_0_r. split; [lia | exact Hn].
Qed.

Lemma getitem_index_dict (l : list R) (i : nat) :
  NoDup l -> (i < List.length l)%nat ->
  getitem (index_dict l) (nth i l 0) = Return i.
Proof.
  intros Hnd Hi. unfold getitem.
  rewrite (find_unique _ (nth i l 0, i)).
  - reflexivity.
  - rewrite <- in_rev. apply in_index_dict. auto.
  - cbn. destruct (Req_dec_T (nth i l 0) (nth i l 0)); [reflexivity | contradiction].
  - intros [s k] Hin Hf. rewrite <- in_rev in Hin.
    apply in_index_dict in Hin. destruct Hin as [Hk Hs]. cbn in Hf.
    destruct (Req_dec_T s (nth i l 0)) as [E|]; [|discriminate].
    subst s. rewrite NoDup_nth in Hnd. rewrite (Hnd k i Hk Hi E). reflexivity.
Qed.

(** ** Assignments into a matrix *)

Lemma list_set_spec {A} (d : A) (l : list A) (i : nat) (v : A) :
  (i < List.length l)%nat ->
  exists l', list_set l i v = Some l' /\
    List.length l' = List.length l /\
    nth i l' d = v /\
    (forall k, k <> i -> nth k l' d = nth k l d).
Proof.
  revert i. induction l as [|a l IH]; intros i Hi; cbn in Hi; [lia|].
  destruct i as [|i].
  - exists (v :: l). cbn. repeat split. intros [|k] Hk; [contradiction | reflexivity].
  - destruct (IH i) as (l' & E & Hlen & Hv & Hrest); [lia|].
    exists (a :: l'). cbn. rewrite E. repeat split; [cbn; lia | exact Hv |].
    intros [|k] Hk; [reflexivity|]. apply Hrest. lia.
Qed.

Lemma setitem_spec (m : matrix) (i j : nat) (v : cell) :
  (i < List.length m)%nat -> (j < List.length (nth i m []))%nat ->
  exists m', setitem m i j v = Return m' /\
    List.length m' = List.length m /\
    (forall k, List.length (nth k m' []) = List.length (nth k m [])) /\
    cell_at m' i j = v /\
    (forall i' j', (i', j') <> (i, j) -> cell_at m' i' j' = cell_at m i' j').
Proof.
  intros Hi Hj. unfold setitem.
  assert (Hrow : nth_error m i = Some (nth i m [])) by (apply nth_error_nth'; exact Hi).
  rewrite Hrow. cbv beta iota.
  destruct (list_set_spec (A:=cell) None (nth i m []) j v Hj)
    as (row' & E1 & L1 & V1 & O1).
  rewrite E1. cbv beta iota.
  destruct (list_set_spec (A:=list cell) [] m i row' Hi)
    as (m' & E2 & L2 & V2 & O2).
  rewrite E2. exists m'. split; [reflexivity|]. split; [exact L2|]. split; [|split].
  - intro k. destruct (Nat.eq_dec k i) as [->|Hk].
    + rewrite V2. exact L1.
    + rewrite O2 by exact Hk. reflexivity.
  - unfold cell_at. rewrite V2. exact V1.
  - intros i' j' Hne. unfold cell_at. destruct (Nat.eq_dec i' i) as [->|Hi'].
    + rewrite V2. apply O1. intro E. apply Hne. subst. reflexivity.
    + rewrite O2 by exact Hi'. reflexivity.
Qed.

Lemma nth_repeat_lt {A} (a d : A) (n i : nat) :
  (i < n)%nat -> nth i (repeat a n) d = a.
Proof.
  intro Hi. rewrite (nth_indep _ d a) by (rewrite repeat_length; exact Hi).
  apply nth_repeat.
Qed.

(** Matrices of one shape with the same cells are equal. *)
Lemma matrix_ext (m1 m2 : matrix) (nv ns : nat) :
  List.length m1 = nv -> List.length m2 = nv ->
  (forall i, (i < nv)%nat -> List.length (nth i m1 []) = ns) ->
  (forall i, (i < nv)%nat -> List.length (nth i m2 []) = ns) ->
  (forall i j, (i < nv)%nat -> (j < ns)%nat -> cell_at m1 i j = cell_at m2 i j) ->
  m1 = m2.
Proof.
  intros L1 L2 R1 R2 Hcells. apply (nth_ext m1 m2 [] []); [congruence|].
  intros i Hi. rewrite L1 in Hi.
  apply (nth_ext _ _ None None); [rewrite R1, R2 by exact Hi; reflexivity|].
  intros j Hj. rewrite R1 in Hj by exact Hi. apply Hcells; assumption.
Qed.

(** ** Rebuilding a surface from its records *)

Section Rebuild.

Variables spots vols : list R.
Hypothesis spots_sorted : StronglySorted Rlt spots.
Hypothesis vols_sorted : StronglySorted Rlt vols.

(** The cells of the surface being rebuilt, by coordinates. *)
Variables Tc Tp : R -> R -> cell.

Let ns := List.length spots.
Let nv := List.length vols.
Let rec_at (i j : nat) : DB.record :=
  (nth j spots 0, nth i vols 0,
   Tc (nth j spots 0) (nth i vols 0), Tp (nth j spots 0) (nth i vols 0)).

(** A matrix of the right shape whose cells are still nan or already
    final. *)
Let partly (T : R -> R -> cell) (m : matrix) : Prop :=
  List.length m = nv /\
  (forall i, (i < nv)%nat -> List.length (nth i m []) = ns) /\
  (forall i j, (i < nv)%nat -> (j < ns)%nat ->
     cell_at m i j = None \/ cell_at m i j = T (nth j spots 0) (nth i vols 0)).

Lemma rec_at_injective (i j i' j' : nat) :
  (i < nv)%nat -> (j < ns)%nat -> (i' < nv)%nat -> (j' < ns)%nat ->
  rec_at i j = rec_at i' j' -> (i, j) = (i', j').
Proof.
  intros Hi Hj Hi' Hj' E. unfold rec_at in E. inversion E as [[Es Ev]].
  pose proof (strictly_sorted_NoDup _ spots_sorted) as Ns.
  pose proof (strictly_sorted_NoDup _ vols_sorted) as Nv.
  rewrite NoDup_nth in Ns, Nv.
  rewrite (Ns j j' Hj Hj' Es), (Nv i i' Hi Hi' Ev). reflexivity.
Qed.

Lemma place_row_at (i j : nat) (mc mp : matrix) :
  (i < nv)%nat -> (j < ns)%nat -> partly Tc mc -> partly Tp mp ->
  exists mc' mp',
    place_row (index_dict spots) (index_dict vols) (rec_at i j) (mc, mp)
    = Return (mc', mp') /\
    partly Tc mc' /\ partly Tp mp' /\
    cell_at mc' i j = Tc (nth j spots 0) (nth i vols 0) /\
    cell_at mp' i j = Tp (nth j spots 0) (nth i vols 0) /\
    (forall i' j', (i', j') <> (i, j) ->
       cell_at mc' i' j' = cell_at mc i' j' /\ cell_at mp' i' j' = cell_at mp i' j').
Proof.
  intros Hi Hj (Lc & Rc & Pc) (Lp & Rp & Pp).
  unfold place_row, rec_at.
  rewrite (getitem_index_dict vols i (strictly_sorted_NoDup _ vols_sorted) Hi).
  rewrite (getitem_index_dict spots j (strictly_sorted_NoDup _ spots_sorted) Hj).
  cbn [fst snd].
  destruct (setitem_spec mc i j (Tc (nth j spots 0) (nth i vols 0)))
    as (mc' & Ec & Lc' & Rc' & Vc & Oc); [lia | rewrite Rc by exact Hi; exact Hj|].
  destruct (setitem_spec mp i j (Tp (nth j spots 0) (nth i vols 0)))
    as (mp' & Ep & Lp' & Rp' & Vp & Op); [lia | rewrite Rp by exact Hi; exact Hj|].
  rewrite Ec, Ep. exists mc', mp'. split; [reflexivity|].
  split; [|split; [|split; [exact Vc | split; [exact Vp|]]]].
  - split; [lia|]. split; [intros k Hk; rewrite Rc'; apply Rc; exact Hk|].
    intros i' j' Hi' Hj'.
    destruct (Nat.eq_dec i' i) as [->|Hne];
      [destruct (Nat.eq_dec j' j) as [->|Hne]|].
    + right. exact Vc.
    + rewrite Oc by (intro E; inversion E; contradiction). apply Pc; assumption.
    + rewrite Oc by (intro E; inversion E; contradiction). apply Pc; assumption.
  - split; [lia|]. split; [intros k Hk; rewrite Rp'; apply Rp; exact Hk|].
    intros i' j' Hi' Hj'.
    destruct (Nat.eq_dec i' i) as [->|Hne];
      [destruct (Nat.eq_dec j' j) as [->|Hne]|].
    + right. exact Vp.
    + rewrite Op by (intro E; inversion E; contradiction). apply Pp; assumption.
    + rewrite Op by (intro E; inversion E; contradiction). apply Pp; assumption.
  - intros i' j' Hne. split; [apply Oc | apply Op]; exact Hne.
Qed.

(** The loop over the rows: a cell is final once one of its records has
    been placed, and stays so. *)
Lemma place_rows (rows : list DB.record) :
  (forall r, In r rows ->
     exists i j, (i < nv)%nat /\ (j < ns)%nat /\ r = rec_at i j) ->
  forall mc mp, partly Tc mc -> partly Tp mp ->
  exists mc' mp',
    for_each rows (place_row (index_dict spots) (index_dict vols)) (mc, mp)
    = Return (mc', mp') /\
    partly Tc mc' /\ partly Tp mp' /\
    (forall i j, (i < nv)%nat -> (j < ns)%nat ->
       In (rec_at i j) rows \/
       (cell_at mc i j = Tc (nth j spots 0) (nth i vols 0) /\
        cell_at mp i j = Tp (nth j spots 0) (nth i vols 0)) ->
       cell_at mc' i j = Tc (nth j spots 0) (nth i vols 0) /\
       cell_at mp' i j = Tp (nth j spots 0) (nth i vols 0)).
Proof.
  induction rows as [|r rows IH]; intros Hrows mc mp Hc Hp.
  - exists mc, mp. split; [reflexivity|]. split; [exact Hc|]. split; [exact Hp|].
    intros i j _ _ [[]|H]. exact H.
  - destruct (Hrows r (or_introl eq_refl)) as (i0 & j0 & Hi0 & Hj0 & ->).
    destruct (place_row_at i0 j0 mc mp Hi0 Hj0 Hc Hp)
      as (mc1 & mp1 & E1 & Hc1 & Hp1 & Vc & Vp & Other).
    destruct (IH (fun r Hr => Hrows r (or_intror Hr)) mc1 mp1 Hc1 Hp1)
      as (mc' & mp' & E & Hc' & Hp' & Final).
    exists mc', mp'. cbn [for_each]. rewrite E1.
    split; [exact E|]. split; [exact Hc'|]. split; [exact Hp'|].
    intros i j Hi Hj Hcase. apply Final; [exact Hi | exact Hj |].
    destruct (Nat.eq_dec i i0) as [->|Hne];
      [destruct (Nat.eq_dec j j0) as [->|Hne]|].
    + right. split; assumption.
    + destruct Hcase as [[E'|Hin]|Hdone].
      * apply rec_at_injective in E'; try assumption. inversion E'. congruence.
      * left. exact Hin.
      * right. destruct (Other i0 j) as [Oc Op];
          [intro E'; inversion E'; congruence|].
        rewrite Oc, Op. exact Hdone.
    + destruct Hcase as [[E'|Hin]|Hdone].
      * apply rec_at_injective in E'; try assumption. inversion E'. congruence.
      * left. exact Hin.
      * right. destruct (Other i j) as [Oc Op];
          [intro E'; inversion E'; congruence|].
        rewrite Oc, Op. exact Hdone.
Qed.

Let recs : list DB.record :=
  flat_map
    (fun vol => map (fun spot => (spot, vol, Tc spot vol, Tp spot vol)) spots)
    vols.

Lemma in_recs (r : DB.record) :
  In r recs <-> exists i j, (i < nv)%nat /\ (j < ns)%nat /\ r = rec_at i j.
Proof.
  unfold recs. rewrite in_flat_map. split.
  - intros (vol & Hvol & Hr). apply in_map_iff in Hr.
    destruct Hr as (spot & <- & Hspot).
    destruct (In_nth _ _ 0 Hvol) as (i & Hi & <-).
    destruct (In_nth _ _ 0 Hspot) as (j & Hj & <-).
    exists i, j. repeat split; assumption.
  - intros (i & j & Hi & Hj & ->). exists (nth i vols 0).
    split; [apply nth_In; exact Hi|]. apply in_map_iff.
    exists (nth j spots 0). split; [reflexivity | apply nth_In; exact Hj].
Qed.

Lemma full_partly (T : R -> R -> cell) : partly T (full nv ns None).
Proof.
  destruct (full_rows nv ns None) as [Hlen Hrows]. rewrite Forall_forall in Hrows.
  split; [exact Hlen|]. split.
  - intros i Hi. apply Hrows. apply nth_In. rewrite Hlen. exact Hi.
  - intros i j Hi Hj. left. unfold cell_at, full.
    rewrite (nth_repeat_lt _ _ nv i Hi). apply nth_repeat_lt. exact Hj.
Qed.

(** Whatever the order of the records, the rebuilt surface has the axes and
    the cells the records were made from. *)
Lemma rebuild_surface_permutation (rows : list DB.record) :
  (0 < ns)%nat -> (0 < nv)%nat ->
  Permutation recs rows ->
  rebuild_surface rows
  = Return
      (Surface spots vols
         (map (fun vol => map (fun spot => Tc spot vol) spots) vols)
         (map (fun vol => map (fun spot => Tp spot vol) spots) vols)).
Proof.
  intros Hns Hnv Hperm.
  assert (Hin : forall r, In r rows <-> In r recs).
  { intro r. split; apply Permutation_in; [symmetry|]; exact Hperm. }
  assert (Hspots :
    sorted (set (map (fun r : DB.record => fst (fst (fst r))) rows)) = spots).
  { apply sorted_set_of_elements; [exact spots_sorted|]. intro x.
    rewrite in_map_iff. split.
    - intros (r & <- & Hr). apply Hin, in_recs in Hr.
      destruct Hr as (i & j & Hi & Hj & ->). cbn. apply nth_In. exact Hj.
    - intro Hx. destruct (In_nth _ _ 0 Hx) as (j & Hj & <-).
      exists (rec_at 0 j). split; [reflexivity|]. apply Hin, in_recs.
      exists 0%nat, j. repeat split; assumption. }
  assert (Hvols :
    sorted (set (map (fun r : DB.record => snd (fst (fst r))) rows)) = vols).
  { apply sorted_set_of_elements; [exact vols_sorted|]. intro x.
    rewrite in_map_iff. split.
    - intros (r & <- & Hr). apply Hin, in_recs in Hr.
      destruct Hr as (i & j & Hi & Hj & ->). cbn. apply nth_In. exact Hi.
    - intro Hx. destruct (In_nth _ _ 0 Hx) as (i & Hi & <-).
      exists (rec_at i 0). split; [reflexivity|]. apply Hin, in_recs.
      exists i, 0%nat. repeat split; assumption. }
  unfold rebuild_surface. rewrite Hspots, Hvols.
  destruct (place_rows rows (fun r Hr => proj1 (in_recs r) (proj1 (Hin r) Hr))
              (full nv ns None) (full nv ns None) (full_partly Tc) (full_partly Tp))
    as (mc & mp & E & (Lc & Rc & _) & (Lp & Rp & _) & Final).
  fold ns nv. rewrite E. f_equal. f_equal.
  - apply (matrix_ext _ _ nv ns); [exact Lc | apply length_map | exact Rc | |].
    + intros i Hi.
      rewrite (nth_indep _ [] (map (fun spot => Tc spot 0) spots))
        by (rewrite length_map; exact Hi).
      rewrite (map_nth (fun vol => map (fun spot => Tc spot vol) spots) vols 0 i).
      apply length_map.
    + intros i j Hi Hj.
      destruct (Final i j Hi Hj) as [Vc _].
      { left. apply Hin, in_recs. exists i, j. repeat split; assumption. }
      rewrite Vc. unfold cell_at.
      rewrite (nth_indep _ [] (map (fun spot => Tc spot 0) spots))
        by (rewrite length_map; exact Hi).
      rewrite (map_nth (fun vol => map (fun spot => Tc spot vol) spots) vols 0 i).
      cbv beta.
      rewrite (nth_indep _ None (Tc 0 (nth i vols 0)))
        by (rewrite length_map; exact Hj).
      symmetry. exact (map_nth (fun spot => Tc spot (nth i vols 0)) spots 0 j).
  - apply (matrix_ext _ _ nv ns); [exact Lp | apply length_map | exact Rp | |].
    + intros i Hi.
      rewrite (nth_indep _ [] (map (fun spot => Tp spot 0) spots))
        by (rewrite length_map; exact Hi).
      rewrite (map_nth (fun vol => map (fun spot => Tp spot vol) spots) vols 0 i).
      apply length_map.
    + intros i j Hi Hj.
      destruct (Final i j Hi Hj) as [_ Vp].
      { left. apply Hin, in_recs. exists i, j. repeat split; assumption. }
      rewrite Vp. unfold cell_at.
      rewrite (nth_indep _ [] (map (fun spot => Tp spot 0) spots))
        by (rewrite length_map; exact Hi).
      rewrite (map_nth (fun vol => map (fun spot => Tp spot vol) spots) vols 0 i).
      cbv beta.
      rewrite (nth_indep _ None (Tp 0 (nth i vols 0)))
        by (rewrite length_map; exact Hj).
      symmetry. exact (map_nth (fun spot => Tp spot (nth i vols 0)) spots 0 j).
Qed.

End Rebuild.

(** C6, reconstruction round trip: for a surface generated from valid inputs
    and any permutation of its flat list of (spot, vol, call, put) samples,
    rebuilding from the permuted samples returns the generated surface: the
    same axes and the same call and put matrices (equal cell by cell, hence
    within any tolerance). *)
Theorem rebuild_of_permuted_samples
    (ttm strike rate spot_min spot_max vol_min vol_max : R) (n : nat) :
  (2 <= n)%nat -> 0 < strike -> 0 < ttm ->
  0 < spot_min < spot_max -> 0 < vol_min < vol_max ->
  exists (s : surface) (recs : list DB.record),
    heatmap_sweep ttm strike rate spot_min spot_max vol_min vol_max n
    = Return (s, recs) /\
    forall rows, Permutation recs rows -> rebuild_surface rows = Return s.
Proof.
  intros Hn Hk Ht [Hs0 Hs] [Hv0 Hv].
  assert (Hk0 : strike <> 0) by lra.
  pose proof (heatmap_sweep_grid ttm strike rate Hk0 spot_min spot_max
                vol_min vol_max n Hn) as Hrun.
  cbv zeta in Hrun.
  eexists. eexists. split; [exact Hrun|].
  intros rows Hperm.
  apply (rebuild_surface_permutation
           (linspace spot_min spot_max n) (linspace vol_min vol_max n)
           (linspace_sorted _ _ _ Hn Hs) (linspace_sorted _ _ _ Hn Hv)
           (grid_cell BlackScholes.call_price ttm strike rate)
           (grid_cell BlackScholes.put_price ttm strike rate)).
  - rewrite linspace_length by exact Hn. lia.
  - rewrite linspace_length by exact Hn. lia.
  - exact Hperm.
Qed.

Lemma rebuild_of_permuted_samples_witness :
  exists (s : surface) (recs : list DB.record),
    heatmap_sweep 1 100 0.05 80 120 0.1 0.3 2 = Return (s, recs) /\
    rebuild_surface (rev recs) = Return s.
Proof.
  destruct (rebuild_of_permuted_samples 1 100 0.05 80 120 0.1 0.3 2)
    as (s & recs & Hrun & Hback); [lia | lra | lra | lra | lra |].
  exists s, recs. split; [exact Hrun|]. apply Hback. apply Permutation_rev.
Defined.

(** ** Default ranges *)

(** Empty range entries are read as the numbers 0.8 * base.spot,
    1.2 * base.spot, max(0.01, 0.5 * base.volatility) and min(5.0, 1.5 *
    base.volatility). *)
Lemma blank_ranges_resolve (calc_id : option Z) (resolution_var : int_entry)
    (base_spot base_vol : R) (strike_var ttm_var rate_var : entry) (w : world) :
  plot_heatmaps calc_id resolution_var (Num base_spot) strike_var ttm_var
    (Num base_vol) rate_var Blank Blank Blank Blank w
  = plot_heatmaps calc_id resolution_var (Num base_spot) strike_var ttm_var
      (Num base_vol) rate_var
      (Num (0.8 * base_spot)) (Num (1.2 * base_spot))
      (Num (Rmax 0.01 (0.5 * base_vol))) (Num (Rmin 5.0 (1.5 * base_vol))) w.
Proof.
  rewrite (Rmult_comm 0.8 base_spot), (Rmult_comm 1.2 base_spot),
    (Rmult_comm 0.5 base_vol), (Rmult_comm 1.5 base_vol).
  unfold plot_heatmaps. destruct calc_id as [calc_id|]; [|reflexivity].
  unfold read_number. cbn [_read_float number]. reflexivity.
Qed.

(** C10, the default volatility range at a base volatility of 10 or more:
    min(5.0, 1.5 * base.volatility) = 5.0 is not above max(0.01, 0.5 *
    base.volatility), so a request that leaves the volatility range empty,
    with a resolution of at least 2 and a valid spot range (given or
    defaulted), fails with "Max Vol must be greater than Min Vol": no grid is
    drawn and the database is unchanged, although the base inputs are
    valid. *)
Theorem default_vol_range_collapses (calc_id n : Z)
    (base_spot strike ttm base_vol rate : R) (spot_min_var spot_max_var : entry)
    (spot_min spot_max : R) (w : world) :
  (2 <= n)%Z -> 10 <= base_vol ->
  entry_or spot_min_var (base_spot * 0.8) = Some spot_min ->
  entry_or spot_max_var (base_spot * 1.2) = Some spot_max ->
  0 < spot_min < spot_max ->
  Rmin 5.0 (base_vol * 1.5) = 5.0 /\
  5.0 <= Rmax 0.01 (base_vol * 0.5) /\
  plot_heatmaps (Some calc_id) (IntNum n) (Num base_spot) (Num strike) (Num ttm)
    (Num base_vol) (Num rate) spot_min_var spot_max_var Blank Blank w
  = (Return tt,
     World (db w)
       (screen w ++
          [Log [Lit "Starting heatmap generation..."];
           ShowError "Heatmap error" [Lit "Max Vol must be greater than Min Vol"];
           Log [Lit "Error while generating heatmap: ";
                Lit "Max Vol must be greater than Min Vol"]])).
Proof.
  intros Hn Hvol Hmin Hmax [Hpos Hlt].
  assert (Emin : Rmin 5.0 (base_vol * 1.5) = 5.0) by (apply Rmin_left; lra).
  assert (Emax : Rmax 0.01 (base_vol * 0.5) = base_vol * 0.5)
    by (apply Rmax_right; lra).
  split; [exact Emin|]. split; [rewrite Emax; lra|].
  unfold plot_heatmaps.
  destruct spot_min_var as [|x|?]; cbn in Hmin; inversion Hmin; subst spot_min;
    destruct spot_max_var as [|y|?]; cbn in Hmax; inversion Hmax; subst spot_max;
    run_core; cbn; rewrite Emin, Emax;
    replace (n <? 2)%Z with false by (symmetry; apply Z.ltb_ge; exact Hn);
    unfold Rleb; cbn; repeat real_case; finish_run.
Qed.

Lemma default_vol_range_collapses_witness :
  plot_heatmaps (Some 1%Z) (IntNum 12) (Num 100) (Num 100) (Num 1)
    (Num 10) (Num 0.05) Blank Blank Blank Blank fresh_world
  = (Return tt,
     World fresh_db
       [Log [Lit "Starting heatmap generation..."];
        ShowError "Heatmap error" [Lit "Max Vol must be greater than Min Vol"];
        Log [Lit "Error while generating heatmap: ";
             Lit "Max Vol must be greater than Min Vol"]]).
Proof.
  refine (proj2 (proj2 (default_vol_range_collapses 1 12 100 100 1 10 0.05
                          Blank Blank (100 * 0.8) (100 * 1.2) fresh_world
                          _ _ eq_refl eq_refl _))).
  - lia.
  - lra.
  - lra.
Defined.

(** ** A sweep whose records cannot be stored *)

(** X25, [plot_heatmaps] when the connection is lost: the call shows the
    database error of [insert_heatmap_records], stores nothing, and goes on
    to draw the surface and to announce that it was saved. *)
Lemma unsaved_heatmap_reported_as_saved (calc_id n : Z)
    (base_spot strike ttm base_vol rate spot_min spot_max vol_min vol_max : R)
    (w : world) :
  DB.reachable (db w) = false ->
  (2 <= n)%Z -> strike <> 0 ->
  0 < spot_min < spot_max -> 0 < vol_min < vol_max ->
  let spots := linspace spot_min spot_max (Z.to_nat n) in
  let vols := linspace vol_min vol_max (Z.to_nat n) in
  plot_heatmaps (Some calc_id) (IntNum n) (Num base_spot) (Num strike) (Num ttm)
    (Num base_vol) (Num rate) (Num spot_min) (Num spot_max) (Num vol_min)
    (Num vol_max) w
  = (Return tt,
     World (db w)
       (screen w ++
          [Log [Lit "Starting heatmap generation..."];
           Log [Lit "Using spot range ["; Float 4 (Some spot_min); Lit ", ";
                Float 4 (Some spot_max); Lit "] and vol range [";
                Float 4 (Some vol_min); Lit ", "; Float 4 (Some vol_max);
                Lit "] with resolution "; Int (Some n)];
           ShowError "Database Error"
             [Lit "Could not insert heatmap records: ";
              Lit "Failed to connect to MySQL database"];
           Imshow
             (Surface spots vols
                (grid BlackScholes.call_price ttm strike rate spots vols)
                (grid BlackScholes.put_price ttm strike rate spots vols));
           Log [Lit "Heatmap generation completed."];
           ShowInfo "Heatmaps Generated"
             [Lit "Heatmaps generated and saved to database successfully."]])).
Proof.
  intros Hdown Hn Hk [Hs0 Hs] [Hv0 Hv] spots vols.
  destruct w as [d scr]; cbn in Hdown.
  unfold plot_heatmaps. run_core. cbn.
  replace (n <? 2)%Z with false by (symmetry; apply Z.ltb_ge; exact Hn).
  unfold Rleb. repeat real_case.
  cbn. rewrite (heatmap_sweep_grid ttm strike rate Hk) by lia.
  unfold insert_heatmap_records, DB.execute_insert_heatmaps.
  cbv beta iota zeta delta
    [bind ret raise lift try_except try_except_Error emit log_message showinfo
       showwarning showerror db_execute db screen fst snd].
  rewrite Hdown. cbn. rewrite <- ?app_assoc. reflexivity.
Qed.

Lemma unsaved_heatmap_reported_as_saved_witness :
  exists s,
    plot_heatmaps (Some 1%Z) (IntNum 12) (Num 100) (Num 100) (Num 1) (Num 0.2)
      (Num 0.05) (Num 80) (Num 120) (Num 0.1) (Num 0.3) lost_world
    = (Return tt,
       World (db lost_world)
         [Log [Lit "Starting heatmap generation..."];
          Log [Lit "Using spot range ["; Float 4 (Some 80); Lit ", ";
               Float 4 (Some 120); Lit "] and vol range [";
               Float 4 (Some 0.1); Lit ", "; Float 4 (Some 0.3);
               Lit "] with resolution "; Int (Some 12%Z)];
          ShowError "Database Error"
            [Lit "Could not insert heatmap records: ";
             Lit "Failed to connect to MySQL database"];
          Imshow s;
          Log [Lit "Heatmap generation completed."];
          ShowInfo "Heatmaps Generated"
            [Lit "Heatmaps generated and saved to database successfully."]]).
Proof.
  eexists.
  refine (unsaved_heatmap_reported_as_saved 1 12 100 100 1 0.2 0.05 80 120 0.1 0.3
            lost_world eq_refl _ _ _ _).
  - lia.
  - lra.
  - lra.
  - lra.
Defined.

(** With a lost connection and valid inputs [calculate_option_prices] shows
    the database error, then the prices, reports success and returns None in
    place of an identifier. *)
Lemma unsaved_calculation_reported_as_done (i : Spec.PricingInputs)
    (last_calc_id : option Z) (w : world) :
  DB.reachable (db w) = false -> Spec.invariants i ->
  exists shown,
    calculate_option_prices (Num (Spec.spot i)) (Num (Spec.strike i))
      (Num (Spec.time_to_maturity i)) (Num (Spec.volatility i))
      (Num (Spec.rate i)) last_calc_id w
    = (Return None,
       World (db w)
         (screen w ++
            Log [Lit "Calculating prices..."]
            :: ShowError "Database Error"
                 [Lit "Could not insert input record: ";
                  Lit "Failed to connect to MySQL database"]
            :: shown ++
            [Log [Lit "Price calculation completed."];
             ShowInfo "Price Calculation Complete"
               [Lit "Option prices and Greeks calculated successfully."]])) /\
    shown <> [] /\
    Forall (fun e => exists l t, e = LabelConfig l t) shown.
Proof.
  intros Hdown Hinv. destruct (price_invariants i Hinv) as (o & Ho & _).
  destruct Hinv as (HT & Hv & HS & HK).
  destruct w as [d scr]; cbn in Hdown.
  exists [LabelConfig call_val_label
            [Lit "$"; Float 6 (Some (BlackScholes.call_price o))];
          LabelConfig put_val_label
            [Lit "$"; Float 6 (Some (BlackScholes.put_price o))];
          LabelConfig delta_call_label
            [Lit "Δ (Call): "; Float 6 (Some (BlackScholes.call_delta o))];
          LabelConfig delta_put_label
            [Lit "Δ (Put): "; Float 6 (Some (BlackScholes.put_delta o))];
          LabelConfig gamma_label
            match shown_gamma o with
            | Some g => [Lit "Γ: "; Float 6 (Some g)]
            | None => [Lit "Γ: "; Lit dash]
            end].
  split; [|split].
  - unfold calculate_option_prices, insert_input_record, DB.execute_insert_input,
      update_ui.
    run_core. cbn. repeat real_case.
    cbv beta iota zeta delta
      [bind ret raise lift try_except try_except_Error emit log_message showinfo
         showwarning showerror db_execute db screen fst snd].
    rewrite Hdown. unfold price in Ho. rewrite Ho.
    cbn. rewrite <- !app_assoc. cbn [app].
    destruct (shown_gamma o); reflexivity.
  - discriminate.
  - repeat constructor; eexists; eexists; reflexivity.
Qed.

(** ** A sweep stored and loaded again *)

Lemma filter_number_rows (c : Z) (recs : list DB.record) (id : Z) :
  filter (fun row => Z.eqb (DB.hm_calc_id row) c)
    (DB.number_rows id (map (fun rec => (c, rec)) recs))
  = DB.number_rows id (map (fun rec => (c, rec)) recs).
Proof.
  revert id. induction recs as [|[[[s v] cl] p] recs IH]; intro id; cbn.
  - reflexivity.
  - rewrite Z.eqb_refl, IH. reflexivity.
Qed.

Lemma project_number_rows (c : Z) (recs : list DB.record) (id : Z) :
  map (fun row => (DB.spot row, DB.hm_volatility row,
                   DB.hm_call_price row, DB.hm_put_price row))
    (DB.number_rows id (map (fun rec => (c, rec)) recs))
  = recs.
Proof.
  revert id. induction recs as [|[[[s v] cl] p] recs IH]; intro id; cbn.
  - reflexivity.
  - rewrite IH. reflexivity.
Qed.

Lemma has_calc_params (d : DB.DBHandler) (c : Z) (recs : list DB.record) :
  DB.has_calc d c = true ->
  forallb (fun p => DB.has_calc d (fst p)) (map (fun rec => (c, rec)) recs) = true.
Proof.
  intro H. apply forallb_forall. intros p Hp. apply in_map_iff in Hp.
  destruct Hp as (rec & <- & _). exact H.
Qed.

Lemma grid_records_nonempty (ttm strike rate : R) (spots vols : list R) :
  (0 < List.length spots)%nat -> (0 < List.length vols)%nat ->
  exists r rest, grid_records ttm strike rate spots vols = r :: rest.
Proof.
  intros Hs Hv. destruct spots as [|s spots]; [cbn in Hs; lia|].
  destruct vols as [|v vols]; [cbn in Hv; lia|].
  unfold grid_records. cbn. eexists. eexists. reflexivity.
Qed.

(** A first sweep for a stored calculation, over valid ranges and with a
    reachable server, draws a surface and stores its records; loading the
    calculation afterwards redraws that same surface from the stored rows. *)
Lemma stored_sweep_is_redrawn (calc_id n : Z)
    (base_spot strike ttm base_vol rate spot_min spot_max vol_min vol_max : R)
    (w : world) :
  DB.reachable (db w) = true ->
  DB.has_calc (db w) calc_id = true ->
  filter (fun row => Z.eqb (DB.hm_calc_id row) calc_id) (DB.heatmap_data (db w)) = [] ->
  (2 <= n)%Z -> strike <> 0 ->
  0 < spot_min < spot_max -> 0 < vol_min < vol_max ->
  exists (s : surface) (before after : list event) (w1 : world),
    plot_heatmaps (Some calc_id) (IntNum n) (Num base_spot) (Num strike) (Num ttm)
      (Num base_vol) (Num rate) (Num spot_min) (Num spot_max) (Num vol_min)
      (Num vol_max) w
    = (Return tt, w1) /\
    screen w1 = screen w ++ before ++ Imshow s :: after /\
    _on_history_load (Some calc_id) w1
    = (Return tt,
       World (db w1)
         (screen w1 ++
            [Imshow s;
             Log [Lit "Loaded calc_id="; Int (Some calc_id);
                  Lit " from DB and re-plotted with enhanced visuals."];
             ShowInfo "Heatmap Loaded"
               [Lit "Heatmap for calc_id="; Int (Some calc_id);
                Lit " loaded successfully."];
             WinDestroy])).
Proof.
  intros Hup Hcalc Hfresh Hn Hk [Hs0 Hs] [Hv0 Hv].
  assert (Hn' : (2 <= Z.to_nat n)%nat) by lia.
  destruct w as [d scr]; cbn in Hup, Hcalc, Hfresh.
  set (spots := linspace spot_min spot_max (Z.to_nat n)).
  set (vols := linspace vol_min vol_max (Z.to_nat n)).
  set (recs := grid_records ttm strike rate spots vols).
  set (s := Surface spots vols
              (grid BlackScholes.call_price ttm strike rate spots vols)
              (grid BlackScholes.put_price ttm strike rate spots vols)).
  set (params := map (fun rec : DB.record => (calc_id, rec)) recs).
  set (before :=
         [Log [Lit "Starting heatmap generation..."];
          Log [Lit "Using spot range ["; Float 4 (Some spot_min); Lit ", ";
               Float 4 (Some spot_max); Lit "] and vol range [";
               Float 4 (Some vol_min); Lit ", "; Float 4 (Some vol_max);
               Lit "] with resolution "; Int (Some n)];
          Log [Lit "Heatmaps generated successfully for calc_id=";
               Int (Some calc_id); Lit "."];
          Log [Lit "Inserted "; Int (Some (Z.of_nat (List.length params)));
               Lit " heatmap records for calc_id="; Int (Some calc_id);
               Lit " to the database."]]).
  set (after :=
         [Log [Lit "Heatmap generation completed."];
          ShowInfo "Heatmaps Generated"
            [Lit "Heatmaps generated and saved to database successfully."]]).
  exists s, before, after.
  exists (World
            (DB.Handler true (DB.option_pricing d)
               (DB.heatmap_data d ++ DB.number_rows (DB.next_heatmap_id d) params)
               (DB.next_calc_id d)
               (DB.next_heatmap_id d + Z.of_nat (List.length params))%Z)
            (scr ++ before ++ Imshow s :: after)).
  split; [|split].
  - unfold plot_heatmaps. run_core. cbn.
    replace (n <? 2)%Z with false by (symmetry; apply Z.ltb_ge; exact Hn).
    unfold Rleb. repeat real_case.
    cbn. rewrite (heatmap_sweep_grid ttm strike rate Hk) by exact Hn'.
    fold spots vols recs s.
    unfold insert_heatmap_records, DB.execute_insert_heatmaps.
    cbv beta iota zeta delta
      [bind ret raise lift try_except try_except_Error emit log_message showinfo
         showwarning showerror db_execute db screen].
    cbn [fst snd]. fold params.
    rewrite Hup. unfold params at 1. rewrite (has_calc_params d calc_id recs Hcalc).
    cbv beta iota. cbn [fst snd db screen]. rewrite <- !app_assoc. reflexivity.
  - reflexivity.
  - unfold _on_history_load, DB.execute_select_heatmap. run_core.
    cbn [db DB.reachable DB.heatmap_data]. rewrite filter_app, Hfresh.
    cbn [app]. unfold params. rewrite filter_number_rows, project_number_rows.
    destruct (grid_records_nonempty ttm strike rate spots vols) as (r & rest & E);
      [unfold spots; rewrite linspace_length; lia
      |unfold vols; rewrite linspace_length; lia|].
    fold recs in E. rewrite E. rewrite <- E.
    rewrite (rebuild_surface_permutation spots vols
               (linspace_sorted _ _ _ Hn' Hs) (linspace_sorted _ _ _ Hn' Hv)
               (grid_cell BlackScholes.call_price ttm strike rate)
               (grid_cell BlackScholes.put_price ttm strike rate) recs);
      [| unfold spots; rewrite linspace_length; lia
       | unfold vols; rewrite linspace_length; lia
       | apply Permutation_refl].
    fold s params. cbn. rewrite <- !app_assoc. reflexivity.
Qed.

(** X26, [plot_heatmaps] then [_on_history_load]: with a reachable server,
    a positive strike and time to maturity and ranges 0 < min < max, a first
    sweep for a stored calculation draws a surface and stores its samples,
    and loading the calculation afterwards draws that same surface again,
    rebuilt from the stored rows, and closes the history window. *)
Theorem priced_sweep_round_trip (calc_id n : Z)
    (base_spot strike ttm base_vol rate spot_min spot_max vol_min vol_max : R)
    (w : world) :
  DB.reachable (db w) = true ->
  DB.has_calc (db w) calc_id = true ->
  filter (fun row => Z.eqb (DB.hm_calc_id row) calc_id) (DB.heatmap_data (db w)) = [] ->
  (2 <= n)%Z -> 0 < strike -> 0 < ttm ->
  0 < spot_min < spot_max -> 0 < vol_min < vol_max ->
  exists (s : surface) (before after : list event) (w1 : world),
    plot_heatmaps (Some calc_id) (IntNum n) (Num base_spot) (Num strike) (Num ttm)
      (Num base_vol) (Num rate) (Num spot_min) (Num spot_max) (Num vol_min)
      (Num vol_max) w
    = (Return tt, w1) /\
    screen w1 = screen w ++ before ++ Imshow s :: after /\
    _on_history_load (Some calc_id) w1
    = (Return tt,
       World (db w1)
         (screen w1 ++
            [Imshow s;
             Log [Lit "Loaded calc_id="; Int (Some calc_id);
                  Lit " from DB and re-plotted with enhanced visuals."];
             ShowInfo "Heatmap Loaded"
               [Lit "Heatmap for calc_id="; Int (Some calc_id);
                Lit " loaded successfully."];
             WinDestroy])).
Proof.
  intros Hup Hcalc Hfresh Hn Hk Ht Hs Hv.
  apply stored_sweep_is_redrawn; try assumption. lra.
Qed.

Lemma priced_sweep_round_trip_witness :
  exists (s : surface) (before after : list event) (w1 : world),
    plot_heatmaps (Some 1%Z) (IntNum 12) (Num 100) (Num 100) (Num 1) (Num 0.2)
      (Num 0.05) (Num 80) (Num 120) (Num 0.1) (Num 0.3) one_calculation
    = (Return tt, w1) /\
    screen w1 = screen one_calculation ++ before ++ Imshow s :: after /\
    _on_history_load (Some 1%Z) w1
    = (Return tt,
       World (db w1)
         (screen w1 ++
            [Imshow s;
             Log [Lit "Loaded calc_id="; Int (Some 1%Z);
                  Lit " from DB and re-plotted with enhanced visuals."];
             ShowInfo "Heatmap Loaded"
               [Lit "Heatmap for calc_id="; Int (Some 1%Z);
                Lit " loaded successfully."];
             WinDestroy])).
Proof.
  refine (priced_sweep_round_trip 1 12 100 100 1 0.2 0.05 80 120 0.1 0.3
            one_calculation eq_refl eq_refl eq_refl _ _ _ _ _).
  - lia.
  - lra.
  - lra.
  - lra.
  - lra.
Defined.

(** ** Opening the connection *)

Section Connect.

Import Connection.

Variable srv : server.

Lemma connect_loop_returned (n : nat) :
  forall st last st',
    connect_loop srv n st last = (Returned, st') -> is_connected st' = true.
Proof.
  induction n as [|n IH]; intros st last st' H; cbn in H; [discriminate|].
  destruct (connects srv (connect_calls st)) as [[|]|e [|]].
  - inversion H; subst. reflexivity.
  - exact (IH _ _ _ H).
  - destruct (creates srv (create_calls st)); [exact (IH _ _ _ H) | discriminate].
  - exact (IH _ _ _ H).
Qed.

Lemma connect_loop_calls (n : nat) :
  forall st last ex st',
    connect_loop srv n st last = (ex, st') ->
    (connect_calls st <= connect_calls st' <= connect_calls st + n)%nat /\
    (create_calls st <= create_calls st')%nat /\
    (create_calls st' - create_calls st
     <= connect_calls st' - connect_calls st)%nat.
Proof.
  induction n as [|n IH]; intros st last ex st' H; cbn in H.
  - inversion H; subst. lia.
  - destruct (connects srv (connect_calls st)) as [[|]|e [|]].
    + inversion H; subst. cbn [connect_calls create_calls]. lia.
    + apply IH in H. cbn [connect_calls create_calls] in H. lia.
    + destruct (creates srv (create_calls st)).
      * apply IH in H. cbn [connect_calls create_calls] in H. lia.
      * inversion H; subst. cbn [connect_calls create_calls]. lia.
    + apply IH in H. cbn [connect_calls create_calls] in H. lia.
Qed.

(** While the attempts fail for other reasons than a missing database, the
    loop goes on and keeps the last error. *)
Lemma connect_loop_failures (msgs : nat -> text) (j m : nat) :
  forall st last,
    (forall k, (k < j)%nat ->
       connects srv (connect_calls st + k)
       = Fails (msgs (connect_calls st + k)%nat) false) ->
    connect_loop srv (j + m) st last
    = connect_loop srv m
        (State (connection st) (connect_calls st + j) (create_calls st))
        (match j with
         | O => last
         | S j' => Some (msgs (connect_calls st + j')%nat)
         end).
Proof.
  induction j as [|j IH]; intros st last H.
  - cbn [Nat.add]. rewrite Nat.add_0_r. destruct st; reflexivity.
  - cbn [Nat.add connect_loop]. pose proof (H 0%nat ltac:(lia)) as H0.
    rewrite Nat.add_0_r in H0. rewrite H0.
    rewrite IH.
    + cbn [connection connect_calls create_calls].
      replace (S (connect_calls st) + j)%nat with (connect_calls st + S j)%nat by lia.
      destruct j as [|j']; [rewrite Nat.add_0_r; reflexivity|].
      replace (S (connect_calls st) + j')%nat with (connect_calls st + S j')%nat by lia.
      reflexivity.
    + intros k Hk. cbn [connect_calls].
      replace (S (connect_calls st) + k)%nat with (connect_calls st + S k)%nat by lia.
      apply H. lia.
Qed.

End Connect.

(** X1, [DBHandler.connect]: the call returns normally exactly when it
    leaves a live connection, otherwise it raises; it makes at most
    [reconnect_attempts] connection attempts, and at most one attempt to
    create the database per connection attempt. *)
Theorem connect_returns_iff_connected (srv : Connection.server)
    (reconnect_attempts : nat) (st : Connection.state) :
  let out := Connection.connect srv reconnect_attempts st in
  (fst out = Return tt <-> Connection.is_connected (snd out) = true) /\
  (fst out = Return tt \/ exists e, fst out = Raise (Error e)) /\
  (Connection.connect_calls st <= Connection.connect_calls (snd out)
   <= Connection.connect_calls st + reconnect_attempts)%nat /\
  (Connection.create_calls (snd out) - Connection.create_calls st
   <= Connection.connect_calls (snd out) - Connection.connect_calls st)%nat.
Proof.
  cbv zeta. unfold Connection.connect.
  destruct (Connection.connect_loop srv reconnect_attempts st None)
    as [[|last] st'] eqn:E.
  - pose proof (connect_loop_returned srv _ _ _ _ E) as Hlive.
    pose proof (connect_loop_calls srv _ _ _ _ _ E) as (Hc & _ & Hcr).
    cbn [fst snd]. split; [tauto|]. split; [left; reflexivity|].
    split; assumption.
  - pose proof (connect_loop_calls srv _ _ _ _ _ E) as (Hc & _ & Hcr).
    destruct (Connection.is_connected st') eqn:Hlive; cbn [fst snd].
    + split; [tauto|]. split; [left; reflexivity|]. split; assumption.
    + split; [split; intro H; congruence|].
      split; [right; eexists; reflexivity|]. split; assumption.
Qed.

(** X2, [DBHandler.connect]: when there is no live connection and every
    attempt fails for another reason than a missing database, all
    [reconnect_attempts] attempts are made and the error of the last one is
    raised; with no attempt allowed the error is "Failed to connect to MySQL
    database". *)
Theorem connect_raises_last_error (srv : Connection.server)
    (msgs : nat -> text) (reconnect_attempts : nat) (st : Connection.state) :
  Connection.is_connected st = false ->
  (forall k, (k < reconnect_attempts)%nat ->
     Connection.connects srv (Connection.connect_calls st + k)
     = Connection.Fails (msgs (Connection.connect_calls st + k)%nat) false) ->
  Connection.connect srv reconnect_attempts st
  = (Raise (Error (match reconnect_attempts with
                   | O => Connection.failed_to_connect
                   | S m => msgs (Connection.connect_calls st + m)%nat
                   end)),
     Connection.State (Connection.connection st)
       (Connection.connect_calls st + reconnect_attempts)
       (Connection.create_calls st)).
Proof.
  intros Hdead Hfail. unfold Connection.connect.
  pose proof (connect_loop_failures srv msgs reconnect_attempts 0 st None Hfail) as E.
  rewrite Nat.add_0_r in E. rewrite E. cbn [Connection.connect_loop].
  unfold Connection.is_connected in *. cbn [Connection.connection].
  rewrite Hdead. destruct reconnect_attempts; reflexivity.
Qed.

Lemma connect_raises_last_error_witness :
  Connection.connect refusing_server 3 unconnected
  = (Raise (Error [Lit "Can't connect to MySQL server"]),
     Connection.State None 3 0).
Proof.
  exact (connect_raises_last_error refusing_server
           (fun _ => [Lit "Can't connect to MySQL server"]) 3 unconnected
           eq_refl (fun k _ => eq_refl)).
Defined.

(** X3, [DBHandler.connect]: when the attempts fail (for another reason than
    a missing database) until one within [reconnect_attempts] yields a live
    connection, the call returns with that connection and makes no further
    attempt. *)
Theorem connect_stops_at_first_live_connection (srv : Connection.server)
    (msgs : nat -> text) (j reconnect_attempts : nat) (st : Connection.state) :
  (j < reconnect_attempts)%nat ->
  (forall k, (k < j)%nat ->
     Connection.connects srv (Connection.connect_calls st + k)
     = Connection.Fails (msgs (Connection.connect_calls st + k)%nat) false) ->
  Connection.connects srv (Connection.connect_calls st + j) = Connection.Connects true ->
  Connection.connect srv reconnect_attempts st
  = (Return tt,
     Connection.State (Some true) (S (Connection.connect_calls st + j))
       (Connection.create_calls st)).
Proof.
  intros Hj Hfail Hlive. unfold Connection.connect.
  replace reconnect_attempts with (j + S (reconnect_attempts - S j))%nat by lia.
  rewrite (connect_loop_failures srv msgs j _ st None Hfail).
  cbn [Connection.connect_loop Connection.connect_calls Connection.create_calls].
  rewrite Hlive. reflexivity.
Qed.

Lemma connect_stops_at_first_live_connection_witness :
  Connection.connect third_time_server 5 unconnected
  = (Return tt, Connection.State (Some true) 3 0).
Proof.
  refine (connect_stops_at_first_live_connection third_time_server
            (fun _ => [Lit "Can't connect to MySQL server"]) 2 5 unconnected
            _ _ eq_refl).
  - lia.
  - intros [|[|k]] Hk; [reflexivity | reflexivity | lia].
Defined.

(** X4, [DBHandler.connect]: when the last allowed attempt finds the
    database missing, the database is created, yet the call raises the
    "unknown database" error: no attempt is left to use the new database. *)
Theorem database_created_on_last_attempt (srv : Connection.server)
    (msgs : nat -> text) (j : nat) (e : text) (st : Connection.state) :
  Connection.is_connected st = false ->
  (forall k, (k < j)%nat ->
     Connection.connects srv (Connection.connect_calls st + k)
     = Connection.Fails (msgs (Connection.connect_calls st + k)%nat) false) ->
  Connection.connects srv (Connection.connect_calls st + j) = Connection.Fails e true ->
  Connection.creates srv (Connection.create_calls st) = true ->
  Connection.connect srv (S j) st
  = (Raise (Error e),
     Connection.State (Connection.connection st)
       (S (Connection.connect_calls st + j))
       (S (Connection.create_calls st))).
Proof.
  intros Hdead Hfail Hunknown Hcreate. unfold Connection.connect.
  replace (S j) with (j + 1)%nat by lia.
  rewrite (connect_loop_failures srv msgs j _ st None Hfail).
  cbn [Connection.connect_loop Connection.connect_calls Connection.create_calls
         Connection.connection].
  rewrite Hunknown, Hcreate.
  unfold Connection.is_connected in *. cbn [Connection.connection].
  rewrite Hdead. reflexivity.
Qed.

Lemma database_created_on_last_attempt_witness :
  Connection.connect (missing_database_server true) 1 unconnected
  = (Raise (Error [Lit "1049 (42000): Unknown database"]),
     Connection.State None 1 1).
Proof.
  refine (database_created_on_last_attempt (missing_database_server true)
            (fun _ => []) 0 _ unconnected eq_refl _ eq_refl eq_refl).
  intros k Hk. lia.
Defined.

(** X5, [DBHandler.connect]: when an attempt finds the database missing and
    the creation of the database fails, the loop is left at once: whatever
    the number of attempts still allowed, none is made, and the "unknown
    database" error of that attempt is raised, not the error of the
    creation. *)
Theorem failed_creation_ends_attempts (srv : Connection.server)
    (msgs : nat -> text) (j reconnect_attempts : nat) (e : text)
    (st : Connection.state) :
  Connection.is_connected st = false ->
  (j < reconnect_attempts)%nat ->
  (forall k, (k < j)%nat ->
     Connection.connects srv (Connection.connect_calls st + k)
     = Connection.Fails (msgs (Connection.connect_calls st + k)%nat) false) ->
  Connection.connects srv (Connection.connect_calls st + j) = Connection.Fails e true ->
  Connection.creates srv (Connection.create_calls st) = false ->
  Connection.connect srv reconnect_attempts st
  = (Raise (Error e),
     Connection.State (Connection.connection st)
       (S (Connection.connect_calls st + j))
       (S (Connection.create_calls st))).
Proof.
  intros Hdead Hj Hfail Hunknown Hcreate. unfold Connection.connect.
  replace reconnect_attempts with (j + S (reconnect_attempts - S j))%nat by lia.
  rewrite (connect_loop_failures srv msgs j _ st None Hfail).
  cbn [Connection.connect_loop Connection.connect_calls Connection.create_calls
         Connection.connection].
  rewrite Hunknown, Hcreate.
  unfold Connection.is_connected in *. cbn [Connection.connection].
  rewrite Hdead. reflexivity.
Qed.

Lemma failed_creation_ends_attempts_witness :
  Connection.connect (missing_database_server false) 3 unconnected
  = (Raise (Error [Lit "1049 (42000): Unknown database"]),
     Connection.State None 1 1).
Proof.
  refine (failed_creation_ends_attempts (missing_database_server false)
            (fun _ => []) 0 3 _ unconnected eq_refl _ _ eq_refl eq_refl).
  - lia.
  - intros k Hk. lia.
Defined.

(** X6, [DBHandler.connect]: when an attempt finds the database missing, the
    creation goes through and the next attempt, still within
    [reconnect_attempts], yields a live connection, the call returns with
    that connection after one creation. *)
Theorem missing_database_is_created (srv : Connection.server)
    (msgs : nat -> text) (j reconnect_attempts : nat) (e : text)
    (st : Connection.state) :
  (S j < reconnect_attempts)%nat ->
  (forall k, (k < j)%nat ->
     Connection.connects srv (Connection.connect_calls st + k)
     = Connection.Fails (msgs (Connection.connect_calls st + k)%nat) false) ->
  Connection.connects srv (Connection.connect_calls st + j) = Connection.Fails e true ->
  Connection.creates srv (Connection.create_calls st) = true ->
  Connection.connects srv (S (Connection.connect_calls st + j))
  = Connection.Connects true ->
  Connection.connect srv reconnect_attempts st
  = (Return tt,
     Connection.State (Some true) (S (S (Connection.connect_calls st + j)))
       (S (Connection.create_calls st))).
Proof.
  intros Hj Hfail Hunknown Hcreate Hlive. unfold Connection.connect.
  replace reconnect_attempts with (j + S (S (reconnect_attempts - S (S j))))%nat by lia.
  rewrite (connect_loop_failures srv msgs j _ st None Hfail).
  cbn [Connection.connect_loop Connection.connect_calls Connection.create_calls
         Connection.connection].
  rewrite Hunknown, Hcreate.
  cbn [Connection.connect_loop Connection.connect_calls Connection.create_calls
         Connection.connection].
  rewrite Hlive. reflexivity.
Qed.

Lemma missing_database_is_created_witness :
  Connection.connect (missing_database_server true) 3 unconnected
  = (Return tt, Connection.State (Some true) 2 1).
Proof.
  refine (missing_database_is_created (missing_database_server true)
            (fun _ => []) 0 3 _ unconnected _ _ eq_refl eq_refl eq_refl).
  - lia.
  - intros k Hk. lia.
Defined.

(** ** Rebuilding from arbitrary rows *)

Lemma find_app_last {A} (f : A -> bool) (l : list A) (x : A) :
  find f (l ++ [x])
  = match find f l with
    | Some y => Some y
    | None => if f x then Some x else None
    end.
Proof.
  induction l as [|a l IH]; cbn; [reflexivity|].
  destruct (f a); [reflexivity | exact IH].
Qed.

Section RebuildAny.

Variables spots vols : list R.
Hypothesis spots_distinct : NoDup spots.
Hypothesis vols_distinct : NoDup vols.

Let ns := List.length spots.
Let nv := List.length vols.

Lemma at_point_nth (r : DB.record) (i j i0 j0 : nat) :
  (i < nv)%nat -> (j < ns)%nat -> (i0 < nv)%nat -> (j0 < ns)%nat ->
  nth j0 spots 0 = fst (fst (fst r)) -> nth i0 vols 0 = snd (fst (fst r)) ->
  at_point (nth j spots 0) (nth i vols 0) r = true <-> (i, j) = (i0, j0).
Proof.
  intros Hi Hj Hi0 Hj0 Es Ev. unfold at_point. rewrite <- Es, <- Ev.
  pose proof spots_distinct as Ns. pose proof vols_distinct as Nv.
  rewrite NoDup_nth in Ns, Nv. split.
  - destruct (Req_dec_T (nth j0 spots 0) (nth j spots 0)) as [E1|]; [|discriminate].
    destruct (Req_dec_T (nth i0 vols 0) (nth i vols 0)) as [E2|]; [|discriminate].
    intros _. rewrite (Ns j0 j Hj0 Hj E1), (Nv i0 i Hi0 Hi E2). reflexivity.
  - intro E. inversion E; subst.
    destruct (Req_dec_T (nth j0 spots 0) (nth j0 spots 0)); [|contradiction].
    destruct (Req_dec_T (nth i0 vols 0) (nth i0 vols 0)); [reflexivity | contradiction].
Qed.

(** Placing one row whose coordinates are on the axes. *)
Lemma place_row_on_axes (r : DB.record) (mc mp : matrix) :
  In (fst (fst (fst r))) spots -> In (snd (fst (fst r))) vols ->
  shaped nv ns mc -> shaped nv ns mp ->
  exists mc' mp',
    place_row (index_dict spots) (index_dict vols) r (mc, mp) = Return (mc', mp') /\
    shaped nv ns mc' /\ shaped nv ns mp' /\
    forall i j, (i < nv)%nat -> (j < ns)%nat ->
      cell_at mc' i j
      = (if at_point (nth j spots 0) (nth i vols 0) r
         then snd (fst r) else cell_at mc i j) /\
      cell_at mp' i j
      = (if at_point (nth j spots 0) (nth i vols 0) r
         then snd r else cell_at mp i j).
Proof.
  intros Hs Hv [Lc Rc] [Lp Rp].
  destruct (In_nth _ _ 0 Hs) as (j0 & Hj0 & Es).
  destruct (In_nth _ _ 0 Hv) as (i0 & Hi0 & Ev).
  destruct r as [[[s v] c] p]. cbn [fst snd] in *.
  unfold place_row. rewrite <- Es, <- Ev.
  rewrite (getitem_index_dict vols i0 vols_distinct Hi0).
  rewrite (getitem_index_dict spots j0 spots_distinct Hj0).
  cbn [fst snd].
  destruct (setitem_spec mc i0 j0 c) as (mc' & Ec & Lc' & Rc' & Vc & Oc);
    [fold nv; lia | rewrite Rc by exact Hi0; exact Hj0|].
  destruct (setitem_spec mp i0 j0 p) as (mp' & Ep & Lp' & Rp' & Vp & Op);
    [fold nv; lia | rewrite Rp by exact Hi0; exact Hj0|].
  rewrite Ec, Ep. exists mc', mp'. split; [reflexivity|].
  split; [split; [lia | intros k Hk; rewrite Rc'; apply Rc; exact Hk]|].
  split; [split; [lia | intros k Hk; rewrite Rp'; apply Rp; exact Hk]|].
  intros i j Hi Hj.
  pose proof (at_point_nth (nth j0 spots 0, nth i0 vols 0, c, p) i j i0 j0
                Hi Hj Hi0 Hj0 eq_refl eq_refl) as Hat.
  destruct (at_point (nth j spots 0) (nth i vols 0)
              (nth j0 spots 0, nth i0 vols 0, c, p)) eqn:E.
  - pose proof (proj1 Hat eq_refl) as E'. inversion E'; subst i j.
    cbn [fst snd]. split; assumption.
  - assert (Hne : (i, j) <> (i0, j0)) by (intro E'; apply Hat in E'; discriminate).
    split; [apply Oc | apply Op]; exact Hne.
Qed.

(** The loop over the rows: every cell ends with the prices of the last row
    at its coordinates, or as it started. *)
Lemma place_rows_on_axes (rows : list DB.record) :
  (forall r, In r rows ->
     In (fst (fst (fst r))) spots /\ In (snd (fst (fst r))) vols) ->
  forall mc mp, shaped nv ns mc -> shaped nv ns mp ->
  exists mc' mp',
    for_each rows (place_row (index_dict spots) (index_dict vols)) (mc, mp)
    = Return (mc', mp') /\
    shaped nv ns mc' /\ shaped nv ns mp' /\
    forall i j, (i < nv)%nat -> (j < ns)%nat ->
      cell_at mc' i j
      = match last_at rows (nth j spots 0) (nth i vols 0) with
        | Some r => snd (fst r)
        | None => cell_at mc i j
        end /\
      cell_at mp' i j
      = match last_at rows (nth j spots 0) (nth i vols 0) with
        | Some r => snd r
        | None => cell_at mp i j
        end.
Proof.
  induction rows as [|r rows IH]; intros Hon mc mp Hc Hp.
  - exists mc, mp. repeat split; try apply Hc; try apply Hp.
  - destruct (Hon r (or_introl eq_refl)) as [Hs Hv].
    destruct (place_row_on_axes r mc mp Hs Hv Hc Hp)
      as (mc1 & mp1 & E1 & Hc1 & Hp1 & Cells1).
    destruct (IH (fun r' Hr' => Hon r' (or_intror Hr')) mc1 mp1 Hc1 Hp1)
      as (mc' & mp' & E & Hc' & Hp' & Cells).
    exists mc', mp'. cbn [for_each]. rewrite E1.
    split; [exact E|]. split; [exact Hc'|]. split; [exact Hp'|].
    intros i j Hi Hj. destruct (Cells i j Hi Hj) as [Cc Cp].
    destruct (Cells1 i j Hi Hj) as [Cc1 Cp1].
    rewrite Cc, Cp, Cc1, Cp1. unfold last_at. cbn [rev].
    rewrite find_app_last.
    destruct (find (at_point (nth j spots 0) (nth i vols 0)) (rev rows));
      [split; reflexivity|].
    destruct (at_point (nth j spots 0) (nth i vols 0) r); split; reflexivity.
Qed.

End RebuildAny.

Lemma cell_at_full (nv ns i j : nat) (v : cell) :
  (i < nv)%nat -> (j < ns)%nat -> cell_at (full nv ns v) i j = v.
Proof.
  intros Hi Hj. unfold cell_at, full.
  rewrite (nth_repeat_lt _ _ nv i Hi). apply nth_repeat_lt. exact Hj.
Qed.

Lemma full_shaped (nv ns : nat) (v : cell) : shaped nv ns (full nv ns v).
Proof.
  destruct (full_rows nv ns v) as [Hlen Hrows]. rewrite Forall_forall in Hrows.
  split; [exact Hlen|]. intros i Hi. apply Hrows. apply nth_In.
  rewrite Hlen. exact Hi.
Qed.

Lemma sorted_set_strict (l : list R) : StronglySorted Rlt (sorted (set l)).
Proof. apply sorted_strict. apply NoDup_nodup. Qed.

Lemma sorted_set_In (x : R) (l : list R) : In x (sorted (set l)) <-> In x l.
Proof. rewrite sorted_In. unfold set. apply nodup_In. Qed.

(** What the code of lines 54-70 returns on any list of rows. *)
Lemma rebuild_surface_spec (rows : list DB.record) :
  let spots := sorted (set (map (fun r : DB.record => fst (fst (fst r))) rows)) in
  let vols := sorted (set (map (fun r : DB.record => snd (fst (fst r))) rows)) in
  exists calls puts,
    rebuild_surface rows = Return (Surface spots vols calls puts) /\
    shaped (List.length vols) (List.length spots) calls /\
    shaped (List.length vols) (List.length spots) puts /\
    forall i j, (i < List.length vols)%nat -> (j < List.length spots)%nat ->
      cell_at calls i j
      = match last_at rows (nth j spots 0) (nth i vols 0) with
        | Some r => snd (fst r)
        | None => None
        end /\
      cell_at puts i j
      = match last_at rows (nth j spots 0) (nth i vols 0) with
        | Some r => snd r
        | None => None
        end.
Proof.
  intros spots vols.
  destruct (place_rows_on_axes spots vols
              (strictly_sorted_NoDup _ (sorted_set_strict _))
              (strictly_sorted_NoDup _ (sorted_set_strict _)) rows)
    with (mc := full (List.length vols) (List.length spots) None)
         (mp := full (List.length vols) (List.length spots) None)
    as (calls & puts & E & Hc & Hp & Cells).
  - intros r Hr. split; apply sorted_set_In.
    + exact (in_map (fun r : DB.record => fst (fst (fst r))) rows r Hr).
    + exact (in_map (fun r : DB.record => snd (fst (fst r))) rows r Hr).
  - apply full_shaped.
  - apply full_shaped.
  - exists calls, puts. unfold rebuild_surface. fold spots vols. rewrite E.
    split; [reflexivity|]. split; [exact Hc|]. split; [exact Hp|].
    intros i j Hi Hj. destruct (Cells i j Hi Hj) as [Cc Cp].
    rewrite Cc, Cp, !cell_at_full by assumption. split; reflexivity.
Qed.

(** X7, reconstruction ([_on_history_load], lines 54-70): on any list of
    rows the code raises neither KeyError nor IndexError; the axes it
    returns are strictly increasing and hold exactly the spots and the
    volatilities that occur in the rows, and both matrices have one row per
    volatility and one column per spot. *)
Theorem rebuild_surface_never_fails (rows : list DB.record) :
  exists s,
    rebuild_surface rows = Return s /\
    StronglySorted Rlt (spot_axis s) /\ StronglySorted Rlt (vol_axis s) /\
    (forall x, In x (spot_axis s) <-> exists r, In r rows /\ fst (fst (fst r)) = x) /\
    (forall x, In x (vol_axis s) <-> exists r, In r rows /\ snd (fst (fst r)) = x) /\
    shaped (List.length (vol_axis s)) (List.length (spot_axis s)) (call_prices s) /\
    shaped (List.length (vol_axis s)) (List.length (spot_axis s)) (put_prices s).
Proof.
  destruct (rebuild_surface_spec rows) as (calls & puts & E & Hc & Hp & _).
  eexists. split; [exact E|]. cbn [spot_axis vol_axis call_prices put_prices].
  split; [apply sorted_set_strict|]. split; [apply sorted_set_strict|].
  split; [|split; [|split; assumption]].
  - intro x. rewrite sorted_set_In, in_map_iff. split.
    + intros (r & E' & Hr). exists r. split; assumption.
    + intros (r & Hr & E'). exists r. split; assumption.
  - intro x. rewrite sorted_set_In, in_map_iff. split.
    + intros (r & E' & Hr). exists r. split; assumption.
    + intros (r & Hr & E'). exists r. split; assumption.
Qed.

(** X8, reconstruction ([_on_history_load], lines 54-70): in the rebuilt
    matrices the cell at volatility index i and spot index j holds the call
    (put) price of the last row whose spot and volatility are the axis
    values at j and i, so a later row overwrites an earlier one at the same
    point; a cell for which no row exists stays nan. *)
Theorem rebuild_surface_keeps_last_row (rows : list DB.record) :
  exists s,
    rebuild_surface rows = Return s /\
    forall i j,
      (i < List.length (vol_axis s))%nat -> (j < List.length (spot_axis s))%nat ->
      cell_at (call_prices s) i j
      = match last_at rows (nth j (spot_axis s) 0) (nth i (vol_axis s) 0) with
        | Some r => snd (fst r)
        | None => None
        end /\
      cell_at (put_prices s) i j
      = match last_at rows (nth j (spot_axis s) 0) (nth i (vol_axis s) 0) with
        | Some r => snd r
        | None => None
        end.
Proof.
  destruct (rebuild_surface_spec rows) as (calls & puts & E & _ & _ & Cells).
  eexists. split; [exact E|]. exact Cells.
Qed.

(** ** Rules for [returns] and [keeps] *)

Lemma returns_ret {A} (a : A) : returns (ret a).
Proof. intro w. exists a. reflexivity. Qed.

Lemma returns_emit (e : event) : returns (emit e).
Proof. intro w. exists tt. reflexivity. Qed.

Lemma returns_bind {A B} (c : M A) (k : A -> M B) :
  returns c -> (forall a, returns (k a)) -> returns (bind c k).
Proof.
  intros Hc Hk w. unfold bind. destruct (Hc w) as [a Ha].
  destruct (c w) as [[a'|e] w1]; cbn in Ha; [|discriminate]. apply Hk.
Qed.

(** A handler that returns makes the whole [try] return. *)
Lemma returns_try_except {A} (body : M A) (handler : exn -> M A) :
  (forall e, returns (handler e)) -> returns (try_except body handler).
Proof.
  intros Hh w. unfold try_except. destruct (body w) as [[a|e] w1].
  - exists a. reflexivity.
  - apply Hh.
Qed.

Section FrameRules.

Context {inv : world -> world -> Prop} `{!Frame inv}.

Lemma keeps_ret {A} (a : A) : keeps inv (ret a).
Proof. intro w. apply frame_refl. Qed.

Lemma keeps_raise {A} (e : exn) : keeps inv (@raise A e).
Proof. intro w. apply frame_refl. Qed.

Lemma keeps_lift {A} (r : result A) : keeps inv (lift r).
Proof. intro w. apply frame_refl. Qed.

Lemma keeps_emit (e : event) : keeps inv (emit e).
Proof. intro w. apply frame_emit. Qed.

Lemma keeps_bind {A B} (c : M A) (k : A -> M B) :
  keeps inv c -> (forall a, keeps inv (k a)) -> keeps inv (bind c k).
Proof.
  intros Hc Hk w. unfold bind. specialize (Hc w).
  destruct (c w) as [[a|e] w1]; cbn [snd] in Hc.
  - eapply frame_trans; [exact Hc | apply Hk].
  - exact Hc.
Qed.

Lemma keeps_try_except {A} (body : M A) (handler : exn -> M A) :
  keeps inv body -> (forall e, keeps inv (handler e)) ->
  keeps inv (try_except body handler).
Proof.
  intros Hb Hh w. unfold try_except. specialize (Hb w).
  destruct (body w) as [[a|e] w1]; cbn [snd] in Hb.
  - exact Hb.
  - eapply frame_trans; [exact Hb | apply Hh].
Qed.

Lemma keeps_try_except_Error {A} (body : M A) (handler : exn -> M A) :
  keeps inv body -> (forall e, keeps inv (handler e)) ->
  keeps inv (try_except_Error body handler).
Proof.
  intros Hb Hh w. unfold try_except_Error. specialize (Hb w).
  destruct (body w) as [[a|e] w1]; cbn [snd] in Hb; [exact Hb|].
  destruct e; try exact Hb.
  eapply frame_trans; [exact Hb | apply Hh].
Qed.

Lemma keeps_update_ui (out : option BlackScholes.outputs) :
  keeps inv (update_ui out).
Proof.
  unfold update_ui. cbv zeta.
  repeat (apply keeps_bind; [apply keeps_emit | intros _]). apply keeps_emit.
Qed.

End FrameRules.

(** Walk through a computation of the core, leaving the calls on the
    database. *)
Ltac frame_step :=
  match goal with
  | |- keeps _ (bind _ _) => apply keeps_bind; [|intro]
  | |- keeps _ (try_except _ _) => apply keeps_try_except; [|intro]
  | |- keeps _ (try_except_Error _ _) => apply keeps_try_except_Error; [|intro]
  | |- keeps _ (ret _) => apply keeps_ret
  | |- keeps _ (raise _) => apply keeps_raise
  | |- keeps _ (lift _) => apply keeps_lift
  | |- keeps _ (read_number _ _ _ _) => apply keeps_lift
  | |- keeps _ (read_int ?v) => destruct v; cbn [read_int]
  | |- keeps _ (emit _) => apply keeps_emit
  | |- keeps _ (log_message _) => apply keeps_emit
  | |- keeps _ (showinfo _ _) => apply keeps_emit
  | |- keeps _ (showwarning _ _) => apply keeps_emit
  | |- keeps _ (showerror _ _) => apply keeps_emit
  | |- keeps _ (update_ui _) => apply keeps_update_ui
  | |- keeps _ (if ?c then _ else _) => destruct c
  | |- keeps _ (match ?x with _ => _ end) => destruct x
  end.

Ltac returns_step :=
  match goal with
  | |- returns (bind _ _) => apply returns_bind; [|intro]
  | |- returns (try_except _ _) => apply returns_try_except; intro
  | |- returns (ret _) => apply returns_ret
  | |- returns (emit _) => apply returns_emit
  | |- returns (log_message _) => apply returns_emit
  | |- returns (showinfo _ _) => apply returns_emit
  | |- returns (showwarning _ _) => apply returns_emit
  | |- returns (showerror _ _) => apply returns_emit
  end.

Lemma screen_grows_refl (w : world) : screen_grows w w.
Proof. exists []. rewrite app_nil_r. reflexivity. Qed.

Lemma screen_grows_trans (a b c : world) :
  screen_grows a b -> screen_grows b c -> screen_grows a c.
Proof.
  intros [x Hx] [y Hy]. exists (x ++ y). rewrite Hy, Hx, app_assoc. reflexivity.
Qed.

Lemma screen_grows_emit (w : world) (e : event) :
  screen_grows w (World (db w) (screen w ++ [e])).
Proof. exists [e]. reflexivity. Qed.

Lemma screen_grows_same (d d' : DB.DBHandler) (scr : list event) :
  screen_grows (World d scr) (World d' scr).
Proof. exists []. cbn. rewrite app_nil_r. reflexivity. Qed.

#[local] Hint Resolve screen_grows_refl screen_grows_emit screen_grows_same : core.

#[export] Instance calculation_frame_Frame : Frame calculation_frame.
Proof.
  split.
  - intro w. unfold calculation_frame. repeat split; auto.
    exists []. rewrite app_nil_r. reflexivity.
  - intros a b c (Hs & Hr & Hh & Hn & rows & Ho) (Hs' & Hr' & Hh' & Hn' & rows' & Ho').
    unfold calculation_frame. repeat split; try congruence.
    + eapply screen_grows_trans; eassumption.
    + exists (rows ++ rows'). rewrite Ho', Ho, app_assoc. reflexivity.
  - intros w e. unfold calculation_frame. cbn [db screen]. repeat split; auto.
    exists []. rewrite app_nil_r. reflexivity.
Qed.

#[export] Instance heatmap_frame_Frame (calc_id : option Z) :
  Frame (heatmap_frame calc_id).
Proof.
  split.
  - intro w. unfold heatmap_frame. repeat split; auto.
    exists []. rewrite app_nil_r. split; [reflexivity | constructor].
  - intros a b c (Hs & Hr & Ho & Hn & rows & Hh & Hall)
      (Hs' & Hr' & Ho' & Hn' & rows' & Hh' & Hall').
    unfold heatmap_frame. repeat split; try congruence.
    + eapply screen_grows_trans; eassumption.
    + exists (rows ++ rows'). rewrite Hh', Hh, app_assoc.
      split; [reflexivity | apply Forall_app; split; assumption].
  - intros w e. unfold heatmap_frame. cbn [db screen]. repeat split; auto.
    exists []. rewrite app_nil_r. split; [reflexivity | constructor].
Qed.

#[export] Instance load_frame_Frame : Frame load_frame.
Proof.
  split.
  - intro w. split; auto.
  - intros a b c [Hs Hd] [Hs' Hd']. split; [|congruence].
    eapply screen_grows_trans; eassumption.
  - intros w e. split; auto.
Qed.

(** ** The entry points of the core never raise *)

Lemma insert_input_record_keeps (cp k t v r : R) :
  keeps calculation_frame (insert_input_record cp k t v r).
Proof.
  unfold insert_input_record. cbv zeta. repeat frame_step.
  intros [d scr]. unfold db_execute, DB.execute_insert_input. cbn [db screen].
  destruct (DB.reachable d) eqn:Hup; cbn [snd]; [|apply frame_refl].
  unfold calculation_frame. cbn [db screen DB.reachable DB.heatmap_data
    DB.next_heatmap_id DB.option_pricing].
  repeat split; auto. eexists. reflexivity.
Qed.

Lemma insert_heatmap_records_keeps (calc_id : Z) (recs : list DB.record) :
  keeps (heatmap_frame (Some calc_id)) (insert_heatmap_records calc_id recs).
Proof.
  unfold insert_heatmap_records. cbv zeta. repeat frame_step.
  intros [d scr]. unfold db_execute, DB.execute_insert_heatmaps. cbn [db screen].
  destruct (DB.reachable d) eqn:Hup; cbn [snd]; [|apply frame_refl].
  destruct (forallb _ _); cbn [snd]; [|apply frame_refl].
  unfold heatmap_frame. cbn [db screen DB.reachable DB.heatmap_data
    DB.next_calc_id DB.option_pricing].
  repeat split; auto. eexists. split; [reflexivity|].
  generalize (DB.next_heatmap_id d).
  induction recs as [|[[[s v] c] p] recs IH]; intro id; cbn; constructor;
    [reflexivity | apply IH].
Qed.

Lemma select_heatmap_keeps (calc_id : Z) :
  keeps load_frame (db_execute (fun d => DB.execute_select_heatmap d calc_id)).
Proof.
  intros [d scr]. unfold db_execute, DB.execute_select_heatmap. cbn [db screen].
  destruct (DB.reachable d); apply frame_refl.
Qed.

Lemma calculate_option_prices_returns (cp k t v r : entry) (last : option Z) :
  returns (calculate_option_prices cp k t v r last).
Proof. unfold calculate_option_prices. repeat returns_step. Qed.

Lemma calculate_option_prices_keeps (cp k t v r : entry) (last : option Z) :
  keeps calculation_frame (calculate_option_prices cp k t v r last).
Proof.
  unfold calculate_option_prices.
  repeat first [apply insert_input_record_keeps | frame_step].
Qed.

Lemma plot_heatmaps_returns (calc_id : option Z) (n : int_entry)
    (cp k t v r smin smax vmin vmax : entry) :
  returns (plot_heatmaps calc_id n cp k t v r smin smax vmin vmax).
Proof.
  unfold plot_heatmaps. destruct calc_id; repeat returns_step.
Qed.

Lemma plot_heatmaps_keeps (calc_id : option Z) (n : int_entry)
    (cp k t v r smin smax vmin vmax : entry) :
  keeps (heatmap_frame calc_id) (plot_heatmaps calc_id n cp k t v r smin smax vmin vmax).
Proof.
  unfold plot_heatmaps. destruct calc_id as [calc_id|]; [|apply keeps_emit].
  repeat first [apply insert_heatmap_records_keeps | frame_step].
Qed.

Lemma _on_history_load_returns (selection : option Z) :
  returns (_on_history_load selection).
Proof. unfold _on_history_load. repeat returns_step. Qed.

Lemma _on_history_load_keeps (selection : option Z) :
  keeps load_frame (_on_history_load selection).
Proof.
  unfold _on_history_load.
  repeat first [apply select_heatmap_keeps | frame_step].
Qed.

(** X9, [calculate_option_prices]: whatever the entries hold and whatever
    the state of the server, the call returns normally (every exception
    ends in the error dialog); the window only gains events, the rows
    already in [option_pricing] are kept as they are, new rows come after
    them, and the table [heatmap_data] is not written. *)
Theorem calculation_never_raises (cp k t v r : entry) (last : option Z)
    (w : world) :
  let out := calculate_option_prices cp k t v r last w in
  (exists id, fst out = Return id) /\ calculation_frame w (snd out).
Proof.
  cbv zeta. split.
  - apply calculate_option_prices_returns.
  - apply calculate_option_prices_keeps.
Qed.

(** X10, [plot_heatmaps]: whatever the entries hold and whatever the state
    of the server, the call returns normally; the window only gains
    events, the table [option_pricing] and its counter are not written, and
    the rows of [heatmap_data] are kept, any new row coming after them and
    carrying the identifier the call was given (none when there is no
    identifier). *)
Theorem heatmap_generation_never_raises (calc_id : option Z) (n : int_entry)
    (cp k t v r smin smax vmin vmax : entry) (w : world) :
  let out := plot_heatmaps calc_id n cp k t v r smin smax vmin vmax w in
  fst out = Return tt /\ heatmap_frame calc_id w (snd out).
Proof.
  cbv zeta. split.
  - destruct (plot_heatmaps_returns calc_id n cp k t v r smin smax vmin vmax w)
      as [[] E]. exact E.
  - apply plot_heatmaps_keeps.
Qed.

(** X11, [_on_history_load]: whatever is selected and whatever the state of
    the server, the call returns normally, the window only gains events, and
    the database is left exactly as it was: loading only reads. *)
Theorem history_load_only_reads (selection : option Z) (w : world) :
  let out := _on_history_load selection w in
  fst out = Return tt /\ load_frame w (snd out).
Proof.
  cbv zeta. split.
  - destruct (_on_history_load_returns selection w) as [[] E]. exact E.
  - apply _on_history_load_keeps.
Qed.

(** X12, [_on_history_load] with a selected calculation: an error is
    reported exactly when the server cannot be reached, and a surface is
    drawn exactly when the server is reached and [heatmap_data] holds at
    least one row of the calculation; the surface drawn is the one rebuilt
    from these rows, and the window is closed after it. *)
Theorem history_load_outcomes (calc_id : Z) (w : world) :
  let stored :=
    map (fun row => (DB.spot row, DB.hm_volatility row,
                     DB.hm_call_price row, DB.hm_put_price row))
      (filter (fun row => Z.eqb (DB.hm_calc_id row) calc_id)
         (DB.heatmap_data (db w))) in
  exists added,
    _on_history_load (Some calc_id) w
    = (Return tt, World (db w) (screen w ++ added)) /\
    ((exists title msg, In (ShowError title msg) added)
     <-> DB.reachable (db w) = false) /\
    ((exists s, In (Imshow s) added)
     <-> DB.reachable (db w) = true /\
         exists row, In row (DB.heatmap_data (db w)) /\ DB.hm_calc_id row = calc_id) /\
    (forall s, In (Imshow s) added ->
       rebuild_surface stored = Return s /\ exists pre, added = pre ++ [WinDestroy]).
Proof.
  intro stored. destruct w as [d scr]. cbn [db screen] in *.
  unfold _on_history_load, DB.execute_select_heatmap. run_core.
  destruct (DB.reachable d) eqn:Hup.
  - fold stored.
    assert (Hrows : (exists row, In row (DB.heatmap_data d) /\ DB.hm_calc_id row = calc_id)
                    <-> stored <> []).
    { unfold stored. split.
      - intros (row & Hin & E) Hnil. apply map_eq_nil in Hnil.
        assert (Hf : In row (filter (fun row => Z.eqb (DB.hm_calc_id row) calc_id)
                               (DB.heatmap_data d)))
          by (apply filter_In; split; [exact Hin | apply Z.eqb_eq; exact E]).
        rewrite Hnil in Hf. exact Hf.
      - intro Hne.
        destruct (filter (fun row => Z.eqb (DB.hm_calc_id row) calc_id)
                    (DB.heatmap_data d)) as [|row rest] eqn:Hf; [contradiction Hne; reflexivity|].
        assert (Hin : In row (filter (fun row => Z.eqb (DB.hm_calc_id row) calc_id)
                                (DB.heatmap_data d))) by (rewrite Hf; left; reflexivity).
        apply filter_In in Hin. destruct Hin as [Hin E]. apply Z.eqb_eq in E.
        exists row. split; assumption. }
    assert (Hs : exists s0, rebuild_surface stored = Return s0)
      by (destruct (rebuild_surface_spec stored) as (calls & puts & H & _);
          eexists; exact H).
    destruct Hs as [s0 Hs].
    destruct stored as [|r rest] eqn:Hst.
    + exists [ShowInfo "No data"
                [Lit "No heatmap rows found for calc_id="; Int (Some calc_id)]].
      split; [reflexivity|]. split; [|split].
      * split; [|discriminate]. intros (title & msg & [H|[]]). discriminate H.
      * split.
        -- intros (s & [H|[]]). discriminate H.
        -- intros [_ H]. apply Hrows in H. contradiction H. reflexivity.
      * intros s [H|[]]. discriminate H.
    + rewrite Hs.
      exists [Imshow s0;
              Log [Lit "Loaded calc_id="; Int (Some calc_id);
                   Lit " from DB and re-plotted with enhanced visuals."];
              ShowInfo "Heatmap Loaded"
                [Lit "Heatmap for calc_id="; Int (Some calc_id);
                 Lit " loaded successfully."];
              WinDestroy].
      split; [cbn; rewrite <- !app_assoc; reflexivity|]. split; [|split].
      * split; [|discriminate]. intros (title & msg & Hin). cbn in Hin.
        intuition discriminate.
      * split.
        -- intros _. split; [reflexivity|]. apply Hrows. discriminate.
        -- intros _. eexists. left. reflexivity.
      * intros s Hin. cbn [In] in Hin.
        destruct Hin as [H|[H|[H|[H|[]]]]]; try discriminate H.
        injection H as <-. split; [reflexivity|].
        exists [Imshow s0;
                Log [Lit "Loaded calc_id="; Int (Some calc_id);
                     Lit " from DB and re-plotted with enhanced visuals."];
                ShowInfo "Heatmap Loaded"
                  [Lit "Heatmap for calc_id="; Int (Some calc_id);
                   Lit " loaded successfully."]].
        reflexivity.
  - exists [ShowError "Load error" [Lit "Failed to connect to MySQL database"];
            Log [Lit "Error loading history item: ";
                 Lit "Failed to connect to MySQL database"]].
    split; [finish_run|]. split; [|split].
    + split; [reflexivity|]. intros _. eexists. eexists. left. reflexivity.
    + split.
      * intros (s & Hin). cbn in Hin. intuition discriminate.
      * intros [H _]. discriminate H.
    + intros s Hin. cbn in Hin. intuition discriminate.
Qed.

(** ** A pricing call, case by case *)

Lemma run_zero_division (b : BlackScholes.t) :
  BlackScholes.run b = BlackScholes.ZeroDivision <-> BlackScholes.strike b = 0.
Proof.
  unfold BlackScholes.run. cbv zeta.
  destruct (Req_dec_T (BlackScholes.strike b) 0) as [E|E].
  - tauto.
  - split; [|contradiction].
    repeat match goal with |- context [if ?c then _ else _] => destruct c end;
      discriminate.
Qed.

Ltac rejected :=
  unfold calculate_option_prices; run_core; cbn; rewrite <- ?app_assoc; cbn [app];
  split; [reflexivity|];
  unfold fails_before_effects; cbn [fst snd db screen];
  split; [reflexivity|];
  eexists; split; [reflexivity|];
  split;
  [ eexists; eexists; right; left; reflexivity
  | intros l m Hin; cbn [In] in Hin; intuition discriminate ].

(** X13, [calculate_option_prices] with an entry that holds no number
    (empty or not a float): the call shows the error and returns None; the
    database is unchanged and no price is shown, whatever the other entries
    hold. *)
Theorem non_numeric_entry_is_rejected (cp k t v r : entry) (last : option Z)
    (w : world) :
  form_values cp k t v r = None ->
  let out := calculate_option_prices cp k t v r last w in
  fst out = Return None /\ fails_before_effects w out.
Proof.
  intro Hbad. cbv zeta.
  destruct cp as [|cp|s1]; [rejected| |rejected].
  destruct k as [|k|s2]; [rejected| |rejected].
  destruct t as [|t|s3]; [rejected| |rejected].
  destruct v as [|v|s4]; [rejected| |rejected].
  destruct r as [|r|s5]; [rejected| |rejected].
  discriminate Hbad.
Qed.

Lemma non_numeric_entry_is_rejected_witness :
  fst (calculate_option_prices (Num 100) (Junk "abc") Blank (Num 0.2) (Num 0.05)
         (Some 7%Z) fresh_world)
  = Return None /\
  fails_before_effects fresh_world
    (calculate_option_prices (Num 100) (Junk "abc") Blank (Num 0.2) (Num 0.05)
       (Some 7%Z) fresh_world).
Proof.
  exact (non_numeric_entry_is_rejected (Num 100) (Junk "abc") Blank (Num 0.2)
           (Num 0.05) (Some 7%Z) fresh_world eq_refl).
Defined.

(** X14, [calculate_option_prices] on five numbers with a positive time to
    maturity and volatility and a reachable server: the calculation row is
    written before the prices are computed, whatever the spot and the
    strike.  The call returns the identifier of the row unless the strike
    is zero: then the division by zero is reported after the row is
    stored, no price is shown, and the call returns None, so the stored
    calculation is left without samples and without an identifier in the
    application. *)
Theorem calculation_is_stored_before_pricing (cp k t v r : R)
    (last : option Z) (w : world) :
  DB.reachable (db w) = true -> 0 < t -> 0 < v ->
  let id := DB.next_calc_id (db w) in
  let out := calculate_option_prices (Num cp) (Num k) (Num t) (Num v) (Num r)
               last w in
  db (snd out)
  = DB.Handler true (DB.option_pricing (db w) ++ [DB.OptionPricing id cp k t v r])
      (DB.heatmap_data (db w)) (id + 1)%Z (DB.next_heatmap_id (db w)) /\
  fst out = Return (if Req_dec_T k 0 then None else Some id) /\
  (k = 0 ->
   screen (snd out)
   = screen w ++
       [Log [Lit "Calculating prices..."];
        Log [Lit "Inserted input record with calc_id="; Int (Some id);
             Lit " to the database."];
        ShowError "Calculation error" [Lit "float division by zero"];
        Log [Lit "Error while calculating prices: ";
             Lit "float division by zero"]]).
Proof.
  intros Hup Ht Hv id out. subst id out. destruct w as [d scr]. cbn [db] in *.
  pose proof (run_zero_division (BlackScholes.Build t k cp v r)) as Hzero.
  cbn [BlackScholes.strike] in Hzero.
  unfold calculate_option_prices, insert_input_record, DB.execute_insert_input,
    update_ui.
  run_core. cbn.
  destruct (Rle_dec t 0) as [H|_]; [exfalso; lra|].
  destruct (Rle_dec v 0) as [H|_]; [exfalso; lra|].
  cbv beta iota zeta delta
    [bind ret raise lift try_except try_except_Error emit log_message showinfo
       showwarning showerror db_execute db screen fst snd].
  rewrite Hup.
  destruct (BlackScholes.run (BlackScholes.Build t k cp v r)) as [o| |] eqn:Hrun.
  - destruct (Req_dec_T k 0) as [E|E];
      [apply Hzero in E; discriminate E|].
    cbn. split; [reflexivity|]. split; [reflexivity|]. intro; contradiction.
  - destruct (Req_dec_T k 0) as [E|E];
      [apply Hzero in E; discriminate E|].
    cbn. split; [reflexivity|]. split; [reflexivity|]. intro; contradiction.
  - destruct (Req_dec_T k 0) as [E|E]; [|exfalso; apply E; apply Hzero; reflexivity].
    cbn. split; [reflexivity|]. split; [reflexivity|]. intros _.
    rewrite <- !app_assoc. reflexivity.
Qed.

Lemma calculation_is_stored_before_pricing_witness :
  DB.option_pricing
    (db (snd (calculate_option_prices (Num 100) (Num 0) (Num 1) (Num 0.2)
                (Num 0.05) None fresh_world)))
  = [DB.OptionPricing 1 100 0 1 0.2 0.05] /\
  fst (calculate_option_prices (Num 100) (Num 0) (Num 1) (Num 0.2) (Num 0.05)
         None fresh_world)
  = Return (if Req_dec_T 0 0 then None else Some 1%Z).
Proof.
  destruct (calculation_is_stored_before_pricing 100 0 1 0.2 0.05 None fresh_world)
    as (Hdb & Hret & _); [reflexivity | lra | lra |].
  split; [rewrite Hdb; reflexivity | exact Hret].
Defined.



(** ** The two buttons *)

(** X16, [BSApp.calculate_prices] and [BSApp.generate_heatmap]: the core
    functions catch every exception themselves, so the handlers of the two
    methods are never entered: [calculate_prices] always stores what the
    core returns in [last_calc_id], and [generate_heatmap] does exactly what
    [plot_heatmaps] does; the dialogs "Calculation Error" and "Heatmap
    Error" never appear. *)
Theorem app_handlers_are_never_entered (self : BSApp.t) (w : world) :
  (exists id w',
     calculate_option_prices (BSApp.current_price_var self) (BSApp.strike_var self)
       (BSApp.ttm_var self) (BSApp.vol_var self) (BSApp.rate_var self)
       (BSApp.last_calc_id self) w
     = (Return id, w') /\
     BSApp.calculate_prices self w = (Return (BSApp.with_last_calc_id self id), w')) /\
  BSApp.generate_heatmap self w
  = plot_heatmaps (BSApp.last_calc_id self) (BSApp.resolution_var self)
      (BSApp.current_price_var self) (BSApp.strike_var self) (BSApp.ttm_var self)
      (BSApp.vol_var self) (BSApp.rate_var self) (BSApp.spot_min_var self)
      (BSApp.spot_max_var self) (BSApp.vol_min_var self) (BSApp.vol_max_var self) w.
Proof.
  split.
  - destruct (calculate_option_prices_returns (BSApp.current_price_var self)
                (BSApp.strike_var self) (BSApp.ttm_var self) (BSApp.vol_var self)
                (BSApp.rate_var self) (BSApp.last_calc_id self) w) as [id Hid].
    unfold BSApp.calculate_prices, try_except, bind, ret.
    destruct (calculate_option_prices _ _ _ _ _ _ w) as [r w'].
    cbn [fst] in Hid. subst r. exists id, w'. split; reflexivity.
  - destruct (plot_heatmaps_returns (BSApp.last_calc_id self)
                (BSApp.resolution_var self) (BSApp.current_price_var self)
                (BSApp.strike_var self) (BSApp.ttm_var self) (BSApp.vol_var self)
                (BSApp.rate_var self) (BSApp.spot_min_var self)
                (BSApp.spot_max_var self) (BSApp.vol_min_var self)
                (BSApp.vol_max_var self) w) as [u Hu].
    unfold BSApp.generate_heatmap, try_except.
    destruct (plot_heatmaps _ _ _ _ _ _ _ _ _ _ _ w) as [r w'].
    cbn [fst] in Hu. subst r. reflexivity.
Qed.

(** X17, [BSApp.calculate_prices] then [BSApp.generate_heatmap]: when the
    core returns None for a calculation (an invalid form, a server that
    cannot be reached, a strike of zero), [last_calc_id] becomes None even
    if an earlier calculation had set it; the next request for a heatmap
    then only shows the warning "No Calculation ID" and leaves the database
    as it is. *)
Theorem failed_calculation_forgets_identifier (self : BSApp.t) (w : world) :
  fst (calculate_option_prices (BSApp.current_price_var self) (BSApp.strike_var self)
         (BSApp.ttm_var self) (BSApp.vol_var self) (BSApp.rate_var self)
         (BSApp.last_calc_id self) w)
  = Return None ->
  exists self' w1,
    BSApp.calculate_prices self w = (Return self', w1) /\
    BSApp.last_calc_id self' = None /\
    BSApp.generate_heatmap self' w1
    = (Return tt,
       World (db w1)
         (screen w1 ++
            [ShowWarning "No Calculation ID"
               [Lit "Please calculate option prices first to generate heatmap."]])).
Proof.
  intro Hnone.
  unfold BSApp.calculate_prices, try_except, bind, ret.
  destruct (calculate_option_prices _ _ _ _ _ _ w) as [r w1].
  cbn [fst] in Hnone. subst r.
  exists (BSApp.with_last_calc_id self None), w1.
  split; [reflexivity|]. split; reflexivity.
Qed.

Lemma failed_calculation_forgets_identifier_witness :
  exists self' w1,
    BSApp.calculate_prices
      (BSApp.App (Some 7%Z) (IntNum 12) (Num 100) (Num 100) (Num 0) (Num 0.2)
         (Num 0.05) Blank Blank Blank Blank) fresh_world
    = (Return self', w1) /\
    BSApp.last_calc_id self' = None /\
    BSApp.generate_heatmap self' w1
    = (Return tt,
       World (db w1)
         (screen w1 ++
            [ShowWarning "No Calculation ID"
               [Lit "Please calculate option prices first to generate heatmap."]])).
Proof.
  apply (failed_calculation_forgets_identifier
           (BSApp.App (Some 7%Z) (IntNum 12) (Num 100) (Num 100) (Num 0) (Num 0.2)
              (Num 0.05) Blank Blank Blank Blank) fresh_world).
  unfold calculate_option_prices. run_core. cbn.
  destruct (Rle_dec 0 0) as [_|H]; [reflexivity | exfalso; lra].
Defined.

Lemma grid_records_length (ttm strike rate : R) (spots vols : list R) :
  List.length (grid_records ttm strike rate spots vols)
  = (List.length vols * List.length spots)%nat.
Proof.
  unfold grid_records. induction vols as [|vol vols IH]; cbn [flat_map].
  - reflexivity.
  - rewrite length_app, length_map. change (List.length (vol :: vols)) with
      (S (List.length vols)). cbn [Nat.mul]. f_equal. exact IH.
Qed.

Lemma default_vol_range (base_vol : R) :
  0.01 < base_vol * 1.5 -> base_vol * 0.5 < 5 ->
  0 < Rmax 0.01 (base_vol * 0.5) < Rmin 5.0 (base_vol * 1.5).
Proof.
  intros Hlow Hhigh. unfold Rmax, Rmin.
  destruct (Rle_dec 0.01 (base_vol * 0.5)), (Rle_dec 5.0 (base_vol * 1.5)); lra.
Qed.

(** X18, the two buttons in a row: on a form that satisfies the
    invariants, with the ranges left empty, a resolution n of at least 2, a
    volatility between 1/150 and 10 (exclusive) and a reachable server,
    [calculate_prices] stores one calculation row and remembers its
    identifier, and [generate_heatmap] then draws the surface over the
    default ranges and stores its n * n samples under that identifier,
    numbered from the next free sample number. *)
Theorem calculate_then_generate (i : Spec.PricingInputs) (last : option Z)
    (n : Z) (w : world) :
  DB.reachable (db w) = true -> Spec.invariants i -> (2 <= n)%Z ->
  0.01 < Spec.volatility i * 1.5 -> Spec.volatility i * 0.5 < 5 ->
  let self :=
    BSApp.App last (IntNum n) (Num (Spec.spot i)) (Num (Spec.strike i))
      (Num (Spec.time_to_maturity i)) (Num (Spec.volatility i))
      (Num (Spec.rate i)) Blank Blank Blank Blank in
  let id := DB.next_calc_id (db w) in
  let spots := linspace (Spec.spot i * 0.8) (Spec.spot i * 1.2) (Z.to_nat n) in
  let vols := linspace (Rmax 0.01 (Spec.volatility i * 0.5))
                (Rmin 5.0 (Spec.volatility i * 1.5)) (Z.to_nat n) in
  let recs := grid_records (Spec.time_to_maturity i) (Spec.strike i) (Spec.rate i)
                spots vols in
  exists self' w1 w2,
    BSApp.calculate_prices self w = (Return self', w1) /\
    BSApp.last_calc_id self' = Some id /\
    BSApp.generate_heatmap self' w1 = (Return tt, w2) /\
    db w2
    = DB.Handler true
        (DB.option_pricing (db w) ++
           [DB.OptionPricing id (Spec.spot i) (Spec.strike i)
              (Spec.time_to_maturity i) (Spec.volatility i) (Spec.rate i)])
        (DB.heatmap_data (db w) ++
           DB.number_rows (DB.next_heatmap_id (db w))
             (map (fun rec => (id, rec)) recs))
        (id + 1)%Z (DB.next_heatmap_id (db w) + n * n)%Z /\
    List.length recs = Z.to_nat (n * n) /\
    In (Imshow
          (Surface spots vols
             (grid BlackScholes.call_price (Spec.time_to_maturity i) (Spec.strike i)
                (Spec.rate i) spots vols)
             (grid BlackScholes.put_price (Spec.time_to_maturity i) (Spec.strike i)
                (Spec.rate i) spots vols)))
      (screen w2).
Proof.
  intros Hup Hinv Hn Hlow Hhigh self id spots vols recs.
  destruct (price_invariants i Hinv) as (o & Ho & _).
  pose proof (default_vol_range _ Hlow Hhigh) as [Hv0 Hv].
  destruct Hinv as (HT & Hvol & HS & HK).
  assert (Hk0 : Spec.strike i <> 0) by lra.
  assert (Hn' : (2 <= Z.to_nat n)%nat) by lia.
  destruct w as [d scr]. cbn [db] in *.
  assert (Hlen : List.length recs = Z.to_nat (n * n)).
  { unfold recs. rewrite grid_records_length. unfold spots, vols.
    rewrite !linspace_length by exact Hn'. lia. }
  set (row := DB.OptionPricing id (Spec.spot i) (Spec.strike i)
                (Spec.time_to_maturity i) (Spec.volatility i) (Spec.rate i)).
  set (d1 := DB.Handler true (DB.option_pricing d ++ [row]) (DB.heatmap_data d)
               (id + 1)%Z (DB.next_heatmap_id d)).
  set (params := map (fun rec : DB.record => (id, rec)) recs).
  set (s := Surface spots vols
              (grid BlackScholes.call_price (Spec.time_to_maturity i) (Spec.strike i)
                 (Spec.rate i) spots vols)
              (grid BlackScholes.put_price (Spec.time_to_maturity i) (Spec.strike i)
                 (Spec.rate i) spots vols)).
  set (scr1 :=
         scr ++
         [Log [Lit "Calculating prices..."];
          Log [Lit "Inserted input record with calc_id="; Int (Some id);
               Lit " to the database."];
          LabelConfig call_val_label [Lit "$"; Float 6 (Some (BlackScholes.call_price o))];
          LabelConfig put_val_label [Lit "$"; Float 6 (Some (BlackScholes.put_price o))];
          LabelConfig delta_call_label
            [Lit "Δ (Call): "; Float 6 (Some (BlackScholes.call_delta o))];
          LabelConfig delta_put_label
            [Lit "Δ (Put): "; Float 6 (Some (BlackScholes.put_delta o))];
          LabelConfig gamma_label
            match shown_gamma o with
            | Some g => [Lit "Γ: "; Float 6 (Some g)]
            | None => [Lit "Γ: "; Lit dash]
            end;
          Log [Lit "Price calculation completed."];
          ShowInfo "Price Calculation Complete"
            [Lit "Option prices and Greeks calculated successfully."]]).
  set (vmin := Rmax 0.01 (Spec.volatility i * 0.5)) in *.
  set (vmax := Rmin 5.0 (Spec.volatility i * 1.5)) in *.
  exists (BSApp.with_last_calc_id self (Some id)), (World d1 scr1).
  exists (World
            (DB.Handler true (DB.option_pricing d ++ [row])
               (DB.heatmap_data d ++ DB.number_rows (DB.next_heatmap_id d) params)
               (id + 1)%Z
               (DB.next_heatmap_id d + Z.of_nat (List.length params))%Z)
            (scr1 ++
               [Log [Lit "Starting heatmap generation..."];
                Log [Lit "Using spot range ["; Float 4 (Some (Spec.spot i * 0.8));
                     Lit ", "; Float 4 (Some (Spec.spot i * 1.2));
                     Lit "] and vol range ["; Float 4 (Some vmin); Lit ", ";
                     Float 4 (Some vmax); Lit "] with resolution "; Int (Some n)];
                Log [Lit "Heatmaps generated successfully for calc_id=";
                     Int (Some id); Lit "."];
                Log [Lit "Inserted "; Int (Some (Z.of_nat (List.length params)));
                     Lit " heatmap records for calc_id="; Int (Some id);
                     Lit " to the database."];
                Imshow s;
                Log [Lit "Heatmap generation completed."];
                ShowInfo "Heatmaps Generated"
                  [Lit "Heatmaps generated and saved to database successfully."]])).
  split; [|split; [reflexivity|split; [|split; [|split; [exact Hlen|]]]]].
  - unfold BSApp.calculate_prices, self.
    cbn [BSApp.current_price_var BSApp.strike_var BSApp.ttm_var BSApp.vol_var
           BSApp.rate_var BSApp.last_calc_id].
    unfold calculate_option_prices, insert_input_record, DB.execute_insert_input,
      update_ui.
    run_core. cbn.
    destruct (Rle_dec (Spec.time_to_maturity i) 0) as [H|_]; [exfalso; lra|].
    destruct (Rle_dec (Spec.volatility i) 0) as [H|_]; [exfalso; lra|].
    cbv beta iota zeta delta
      [bind ret raise lift try_except try_except_Error emit log_message showinfo
         showwarning showerror db_execute db screen fst snd].
    rewrite Hup. unfold price in Ho. rewrite Ho.
    cbn. rewrite <- !app_assoc. cbn [app].
    unfold scr1, d1, row, id. destruct (shown_gamma o); reflexivity.
  - unfold BSApp.generate_heatmap, BSApp.with_last_calc_id, self.
    cbn [BSApp.current_price_var BSApp.strike_var BSApp.ttm_var BSApp.vol_var
           BSApp.rate_var BSApp.last_calc_id BSApp.resolution_var
           BSApp.spot_min_var BSApp.spot_max_var BSApp.vol_min_var
           BSApp.vol_max_var].
    unfold plot_heatmaps. run_core. cbn. fold vmin vmax.
    replace (n <? 2)%Z with false by (symmetry; apply Z.ltb_ge; exact Hn).
    unfold Rleb. repeat real_case.
    cbn. rewrite (heatmap_sweep_grid (Spec.time_to_maturity i) (Spec.strike i)
                    (Spec.rate i) Hk0) by exact Hn'.
    fold spots vols recs s.
    unfold insert_heatmap_records, DB.execute_insert_heatmaps.
    cbv beta iota zeta delta
      [bind ret raise lift try_except try_except_Error emit log_message showinfo
         showwarning showerror db_execute db screen].
    cbn [fst snd]. fold params. unfold d1 at 1. cbn [DB.reachable].
    unfold params at 1. rewrite (has_calc_params d1 id recs).
    + cbv beta iota. cbn [fst snd db screen]. rewrite <- !app_assoc. reflexivity.
    + unfold DB.has_calc, d1. cbn [DB.option_pricing].
      rewrite existsb_app. cbn. rewrite Z.eqb_refl. apply orb_true_r.
  - cbn [db]. unfold params. rewrite length_map, Hlen. f_equal. lia.
  - cbn [screen]. apply in_or_app. right. cbn. tauto.
Qed.

Lemma calculate_then_generate_witness :
  exists self' w1 w2,
    BSApp.calculate_prices
      (BSApp.App None (IntNum 12) (Num 100) (Num 100) (Num 1) (Num 0.2)
         (Num 0.05) Blank Blank Blank Blank) fresh_world
    = (Return self', w1) /\
    BSApp.last_calc_id self' = Some 1%Z /\
    BSApp.generate_heatmap self' w1 = (Return tt, w2) /\
    DB.next_heatmap_id (db w2) = 145%Z.
Proof.
  destruct (calculate_then_generate at_the_money None 12 fresh_world)
    as (self' & w1 & w2 & Hc & Hid & Hg & Hdb & _).
  - reflexivity.
  - exact at_the_money_invariants.
  - lia.
  - cbn. lra.
  - cbn. lra.
  - exists self', w1, w2. split; [exact Hc|]. split; [exact Hid|].
    split; [exact Hg|]. rewrite Hdb. reflexivity.
Defined.

(** ** More on the sweep *)

(** X19, the default volatility range at a small base volatility: when
    1.5 * base.volatility does not exceed 0.01, the default maximum
    min(5.0, 1.5 * base.volatility) is not above the default minimum
    max(0.01, 0.5 * base.volatility) = 0.01, so a request that leaves the
    ranges empty fails with "Max Vol must be greater than Min Vol" although
    the volatility is positive: nothing is drawn or stored. *)
Theorem small_volatility_default_range_collapses (calc_id n : Z)
    (base_spot strike ttm base_vol rate : R) (w : world) :
  (2 <= n)%Z -> 0 < base_spot -> 0 < base_vol -> base_vol * 1.5 <= 0.01 ->
  plot_heatmaps (Some calc_id) (IntNum n) (Num base_spot) (Num strike) (Num ttm)
    (Num base_vol) (Num rate) Blank Blank Blank Blank w
  = (Return tt,
     World (db w)
       (screen w ++
          [Log [Lit "Starting heatmap generation..."];
           ShowError "Heatmap error" [Lit "Max Vol must be greater than Min Vol"];
           Log [Lit "Error while generating heatmap: ";
                Lit "Max Vol must be greater than Min Vol"]])).
Proof.
  intros Hn Hspot Hpos Hsmall.
  assert (Emin : Rmin 5.0 (base_vol * 1.5) = base_vol * 1.5)
    by (apply Rmin_right; lra).
  assert (Emax : Rmax 0.01 (base_vol * 0.5) = 0.01) by (apply Rmax_left; lra).
  unfold plot_heatmaps. run_core. cbn. rewrite Emin, Emax.
  replace (n <? 2)%Z with false by (symmetry; apply Z.ltb_ge; exact Hn).
  unfold Rleb. cbn. repeat real_case. finish_run.
Qed.

Lemma small_volatility_default_range_collapses_witness :
  plot_heatmaps (Some 1%Z) (IntNum 12) (Num 100) (Num 100) (Num 1)
    (Num 0.005) (Num 0.05) Blank Blank Blank Blank fresh_world
  = (Return tt,
     World fresh_db
       [Log [Lit "Starting heatmap generation..."];
        ShowError "Heatmap error" [Lit "Max Vol must be greater than Min Vol"];
        Log [Lit "Error while generating heatmap: ";
             Lit "Max Vol must be greater than Min Vol"]]).
Proof.
  refine (small_volatility_default_range_collapses 1 12 100 100 1 0.005 0.05
            fresh_world _ _ _ _).
  - lia.
  - lra.
  - lra.
  - lra.
Defined.

Lemma linspace_head (start stop : R) (num : nat) :
  (2 <= num)%nat -> exists rest, linspace start stop num = start :: rest.
Proof.
  intro Hnum. rewrite linspace_closed_form by exact Hnum.
  destruct num as [|m]; [lia|]. cbn [seq map]. eexists. f_equal.
  unfold linspace_at. cbn [INR]. unfold Rdiv. rewrite !Rmult_0_l. apply Rplus_0_r.
Qed.

(** With a strike of zero the first grid point raises. *)
Lemma heatmap_sweep_zero_strike (ttm rate spot_min spot_max vol_min vol_max : R)
    (n : nat) :
  (2 <= n)%nat ->
  heatmap_sweep ttm 0 rate spot_min spot_max vol_min vol_max n
  = Raise zero_division.
Proof.
  intro Hn. unfold heatmap_sweep. cbv zeta.
  destruct (linspace_head spot_min spot_max n Hn) as [srest ->].
  destruct (linspace_head vol_min vol_max n Hn) as [vrest ->].
  unfold enumerate. cbn [List.length seq combine for_each].
  unfold sweep_cell.
  replace (BlackScholes.run (BlackScholes.Build ttm 0 spot_min vol_min rate))
    with BlackScholes.ZeroDivision; [reflexivity|].
  symmetry. apply run_zero_division. reflexivity.
Qed.

(** X20, [plot_heatmaps] with a strike of zero: the strike is not among the
    values the function validates, the first grid point divides by zero,
    and the call reports "float division by zero"; nothing is drawn and the
    database is unchanged. *)
Theorem zero_strike_stops_the_sweep (calc_id n : Z)
    (base_spot ttm base_vol rate spot_min spot_max vol_min vol_max : R)
    (w : world) :
  (2 <= n)%Z -> 0 < spot_min < spot_max -> 0 < vol_min < vol_max ->
  plot_heatmaps (Some calc_id) (IntNum n) (Num base_spot) (Num 0) (Num ttm)
    (Num base_vol) (Num rate) (Num spot_min) (Num spot_max) (Num vol_min)
    (Num vol_max) w
  = (Return tt,
     World (db w)
       (screen w ++
          [Log [Lit "Starting heatmap generation..."];
           Log [Lit "Using spot range ["; Float 4 (Some spot_min); Lit ", ";
                Float 4 (Some spot_max); Lit "] and vol range [";
                Float 4 (Some vol_min); Lit ", "; Float 4 (Some vol_max);
                Lit "] with resolution "; Int (Some n)];
           ShowError "Heatmap error" [Lit "float division by zero"];
           Log [Lit "Error while generating heatmap: ";
                Lit "float division by zero"]])).
Proof.
  intros Hn [Hs0 Hs] [Hv0 Hv].
  unfold plot_heatmaps. run_core. cbn.
  replace (n <? 2)%Z with false by (symmetry; apply Z.ltb_ge; exact Hn).
  unfold Rleb. repeat real_case.
  cbn. rewrite heatmap_sweep_zero_strike by lia. finish_run.
Qed.

Lemma zero_strike_stops_the_sweep_witness :
  plot_heatmaps (Some 1%Z) (IntNum 12) (Num 100) (Num 0) (Num 1) (Num 0.2)
    (Num 0.05) (Num 80) (Num 120) (Num 0.1) (Num 0.3) fresh_world
  = (Return tt,
     World fresh_db
       [Log [Lit "Starting heatmap generation..."];
        Log [Lit "Using spot range ["; Float 4 (Some 80); Lit ", ";
             Float 4 (Some 120); Lit "] and vol range [";
             Float 4 (Some 0.1); Lit ", "; Float 4 (Some 0.3);
             Lit "] with resolution "; Int (Some 12%Z)];
        ShowError "Heatmap error" [Lit "float division by zero"];
        Log [Lit "Error while generating heatmap: ";
             Lit "float division by zero"]]).
Proof.
  refine (zero_strike_stops_the_sweep 1 12 100 1 0.2 0.05 80 120 0.1 0.3
            fresh_world _ _ _).
  - lia.
  - lra.
  - lra.
Defined.

Lemma nth_flat_map_uniform {A B} (f : A -> list B) (m : nat) (a0 : A) (d : B) :
  (forall a, List.length (f a) = m) ->
  forall (l : list A) (i j : nat),
    (i < List.length l)%nat -> (j < m)%nat ->
    nth (i * m + j) (flat_map f l) d = nth j (f (nth i l a0)) d.
Proof.
  intros Hf. induction l as [|a l IH]; intros i j Hi Hj; [cbn in Hi; lia|].
  cbn [flat_map]. destruct i as [|i].
  - cbn [Nat.mul Nat.add nth]. apply app_nth1. rewrite Hf. exact Hj.
  - cbn [nth]. rewrite app_nth2 by (rewrite Hf; cbn; lia).
    rewrite Hf. replace (S i * m + j - m)%nat with (i * m + j)%nat by (cbn; lia).
    apply IH; [cbn in Hi; lia | exact Hj].
Qed.

(** X21, the records of the sweep (lines 93-121): with a strike other than
    zero and a resolution n of at least 2 the sweep returns n * n records
    in row-major order: the record at position i * n + j holds the spot of
    column j, the volatility of row i and the two prices of cell (i, j) of
    the matrices that are drawn. *)
Theorem sweep_records_follow_the_cells
    (ttm strike rate spot_min spot_max vol_min vol_max : R) (n : nat) :
  (2 <= n)%nat -> strike <> 0 ->
  exists (s : surface) (recs : list DB.record),
    heatmap_sweep ttm strike rate spot_min spot_max vol_min vol_max n
    = Return (s, recs) /\
    List.length recs = (n * n)%nat /\
    forall i j, (i < n)%nat -> (j < n)%nat ->
      nth (i * n + j) recs (0, 0, None, None)
      = (nth j (spot_axis s) 0, nth i (vol_axis s) 0,
         cell_at (call_prices s) i j, cell_at (put_prices s) i j).
Proof.
  intros Hn Hk.
  pose proof (heatmap_sweep_grid ttm strike rate Hk spot_min spot_max
                vol_min vol_max n Hn) as Hrun.
  cbv zeta in Hrun.
  set (spots := linspace spot_min spot_max n) in *.
  set (vols := linspace vol_min vol_max n) in *.
  assert (Ls : List.length spots = n) by (apply linspace_length; exact Hn).
  assert (Lv : List.length vols = n) by (apply linspace_length; exact Hn).
  eexists. eexists. split; [exact Hrun|].
  cbn [spot_axis vol_axis call_prices put_prices].
  split; [rewrite grid_records_length, Ls, Lv; reflexivity|].
  intros i j Hi Hj. rewrite !grid_cell_at by lia. unfold grid_records.
  set (f := fun vol : R =>
              map (fun spot : R =>
                     ((spot, vol,
                       grid_cell BlackScholes.call_price ttm strike rate spot vol,
                       grid_cell BlackScholes.put_price ttm strike rate spot vol)
                      : DB.record))
                spots).
  assert (Hf : forall vol, List.length (f vol) = n)
    by (intro vol; unfold f; rewrite length_map; exact Ls).
  etransitivity.
  { apply (nth_flat_map_uniform f n 0 ((0, 0, None, None) : DB.record) Hf vols i j);
      lia. }
  unfold f.
  rewrite (nth_indep _ ((0, 0, None, None) : DB.record)
             ((fun spot : R =>
                 ((spot, nth i vols 0,
                   grid_cell BlackScholes.call_price ttm strike rate spot (nth i vols 0),
                   grid_cell BlackScholes.put_price ttm strike rate spot (nth i vols 0))
                  : DB.record))
                0))
    by (rewrite length_map; lia).
  exact (map_nth
           (fun spot : R =>
              ((spot, nth i vols 0,
                grid_cell BlackScholes.call_price ttm strike rate spot (nth i vols 0),
                grid_cell BlackScholes.put_price ttm strike rate spot (nth i vols 0))
               : DB.record))
           spots 0 j).
Qed.

Lemma sweep_records_follow_the_cells_witness :
  exists (s : surface) (recs : list DB.record),
    heatmap_sweep 1 100 0.05 80 120 0.1 0.3 2 = Return (s, recs) /\
    List.length recs = 4%nat.
Proof.
  destruct (sweep_records_follow_the_cells 1 100 0.05 80 120 0.1 0.3 2)
    as (s & recs & Hrun & Hlen & _); [lia | lra |].
  exists s, recs. split; assumption.
Defined.

(** ** More on the pricing formulas *)

Lemma pdf_positive (x : R) : 0 < Norm.pdf x.
Proof.
  unfold Norm.pdf. apply Rdiv_lt_0_compat; [apply exp_pos|].
  apply sqrt_lt_R0. pose proof PI_RGT_0. lra.
Qed.

Lemma cdf_derivable (x : R) : derivable_pt_lim Norm.cdf x (Norm.pdf x).
Proof.
  apply (derivable_pt_lim_eq
           (fct_cte (1 / 2) + integral Norm.pdf Norm.pdf_continuous 0)%F);
    [intro t; reflexivity|].
  replace (Norm.pdf x) with (0 + Norm.pdf x) by ring.
  apply derivable_pt_lim_plus; [apply derivable_pt_lim_const|].
  apply integral_derivable.
Qed.

(** The distribution function is strictly increasing. *)
Lemma cdf_increasing (a b : R) : a < b -> Norm.cdf a < Norm.cdf b.
Proof.
  intro Hab.
  destruct (MVT_cor2 Norm.cdf Norm.pdf a b Hab) as (c & Hc & _).
  { intros t _. apply cdf_derivable. }
  pose proof (pdf_positive c) as Hp.
  assert (0 < Norm.pdf c * (b - a)) by (apply Rmult_lt_0_compat; lra).
  lra.
Qed.

(** X22, [BlackScholes.run]: for a positive strike, time to maturity and
    volatility, the call delta and the put delta both increase strictly
    with the spot. *)
Theorem deltas_increase_with_spot (T K sigma r S1 S2 : R) :
  0 < K -> 0 < T -> 0 < sigma -> 0 < S1 < S2 ->
  exists o1 o2,
    BlackScholes.run (BlackScholes.Build T K S1 sigma r) = BlackScholes.Priced o1 /\
    BlackScholes.run (BlackScholes.Build T K S2 sigma r) = BlackScholes.Priced o2 /\
    BlackScholes.call_delta o1 < BlackScholes.call_delta o2 /\
    BlackScholes.put_delta o1 < BlackScholes.put_delta o2.
Proof.
  intros HK HT Hsig [HS1 HS].
  destruct (price_invariants (Spec.Inputs S1 K T sigma r))
    as (o1 & Ho1 & _ & _ & Hd1 & Hp1 & _);
    [unfold Spec.invariants; cbn; repeat split; lra|].
  destruct (price_invariants (Spec.Inputs S2 K T sigma r))
    as (o2 & Ho2 & _ & _ & Hd2 & Hp2 & _);
    [unfold Spec.invariants; cbn; repeat split; lra|].
  exists o1, o2. split; [exact Ho1|]. split; [exact Ho2|].
  assert (Hlt : BlackScholes.call_delta o1 < BlackScholes.call_delta o2).
  { rewrite Hd1, Hd2. unfold Spec.call_delta. apply cdf_increasing.
    unfold Spec.d1. cbn [Spec.spot Spec.strike Spec.rate Spec.volatility
                           Spec.time_to_maturity].
    assert (Hden : 0 < sigma * sqrt T)
      by (apply Rmult_lt_0_compat; [lra | apply sqrt_lt_R0; lra]).
    assert (Hln : ln (S1 / K) < ln (S2 / K)).
    { apply ln_increasing.
      - apply Rdiv_lt_0_compat; lra.
      - unfold Rdiv. apply Rmult_lt_compat_r; [apply Rinv_0_lt_compat; lra | lra]. }
    unfold Rdiv. apply Rmult_lt_compat_r; [apply Rinv_0_lt_compat; exact Hden | lra]. }
  split; [exact Hlt|]. rewrite Hp1, Hp2. unfold Spec.put_delta.
  rewrite <- Hd1, <- Hd2. lra.
Qed.

Lemma deltas_increase_with_spot_witness :
  exists o1 o2,
    BlackScholes.run (BlackScholes.Build 1 100 90 0.2 0.05) = BlackScholes.Priced o1 /\
    BlackScholes.run (BlackScholes.Build 1 100 110 0.2 0.05) = BlackScholes.Priced o2 /\
    BlackScholes.call_delta o1 < BlackScholes.call_delta o2 /\
    BlackScholes.put_delta o1 < BlackScholes.put_delta o2.
Proof.
  apply (deltas_increase_with_spot 1 100 0.2 0.05 90 110); lra.
Defined.

(** X23, [BlackScholes.run]: the prices are homogeneous of degree one in
    spot and strike.  When a run prices an option, the run with spot and
    strike both multiplied by a factor c other than zero prices it too, with
    the call and put prices multiplied by c, the same deltas, and the gamma
    divided by c. *)
Theorem prices_scale_with_spot_and_strike (T K S sigma r c : R)
    (o : BlackScholes.outputs) :
  c <> 0 ->
  BlackScholes.run (BlackScholes.Build T K S sigma r) = BlackScholes.Priced o ->
  BlackScholes.run (BlackScholes.Build T (c * K) (c * S) sigma r)
  = BlackScholes.Priced
      (BlackScholes.Outputs
         (c * BlackScholes.call_price o) (c * BlackScholes.put_price o)
         (BlackScholes.call_delta o) (BlackScholes.put_delta o)
         (BlackScholes.call_gamma o / c) (BlackScholes.put_gamma o / c)).
Proof.
  intros Hc. unfold BlackScholes.run.
  cbn [BlackScholes.time_to_maturity BlackScholes.strike BlackScholes.current_price
         BlackScholes.volatility BlackScholes.interest_rate].
  destruct (Req_dec_T K 0) as [HK|HK]; [discriminate|].
  assert (Eq : c * S / (c * K) = S / K) by (field; split; assumption).
  rewrite Eq.
  set (d1 := (ln (S / K) + (r + 0.5 * sigma ^ 2) * T) / (sigma * sqrt T)).
  clearbody d1.
  destruct (Req_dec_T (c * K) 0) as [E|_];
    [exfalso; apply Rmult_integral in E; tauto|].
  destruct (Rle_dec (S / K) 0) as [Hq|Hq]; [discriminate|].
  destruct (Rle_dec T 0) as [HT|HT]; [discriminate|].
  destruct (Req_dec_T sigma 0) as [Hsig|Hsig]; [discriminate|].
  intro Ho. injection Ho as <-.
  assert (HS : S <> 0) by (intro E; apply Hq; rewrite E; unfold Rdiv; lra).
  assert (Hsqrt : sqrt T <> 0).
  { assert (0 < sqrt T) by (apply sqrt_lt_R0; lra). lra. }
  cbn [BlackScholes.call_price BlackScholes.put_price BlackScholes.call_delta
         BlackScholes.put_delta BlackScholes.call_gamma BlackScholes.put_gamma].
  f_equal. f_equal; try ring; field; repeat split; assumption.
Qed.

Lemma prices_scale_with_spot_and_strike_witness :
  exists o,
    BlackScholes.run (BlackScholes.Build 1 100 100 0.2 0.05) = BlackScholes.Priced o /\
    BlackScholes.run (BlackScholes.Build 1 (2 * 100) (2 * 100) 0.2 0.05)
    = BlackScholes.Priced
        (BlackScholes.Outputs
           (2 * BlackScholes.call_price o) (2 * BlackScholes.put_price o)
           (BlackScholes.call_delta o) (BlackScholes.put_delta o)
           (BlackScholes.call_gamma o / 2) (BlackScholes.put_gamma o / 2)).
Proof.
  destruct (price_invariants at_the_money at_the_money_invariants) as (o & Ho & _).
  exists o. split; [exact Ho|].
  apply (prices_scale_with_spot_and_strike 1 100 100 0.2 0.05 2 o);
    [lra | exact Ho].
Defined.

(** ** Keeping the connection *)

Lemma connect_returned (srv : Connection.server) (n : nat) (st : Connection.state) :
  fst (Connection.connect srv n st) = Return tt ->
  Connection.is_connected (snd (Connection.connect srv n st)) = true.
Proof.
  unfold Connection.connect.
  destruct (Connection.connect_loop srv n st None) as [[|last] st'] eqn:E.
  - intros _. exact (connect_loop_returned srv _ _ _ _ E).
  - destruct (Connection.is_connected st') eqn:Hlive; cbn [fst snd];
      [intros _; exact Hlive | discriminate].
Qed.

Lemma ensure_connection_live (srv : Connection.server) (n : nat)
    (st : Connection.state) :
  Connection.is_connected st = true ->
  Connection.ensure_connection srv n st = (Return tt, st).
Proof. intro H. unfold Connection.ensure_connection. rewrite H. reflexivity. Qed.

Lemma close_disconnects (st : Connection.state) :
  Connection.is_connected (Connection.close st) = false.
Proof.
  unfold Connection.close.
  destruct (Connection.is_connected st) eqn:H; [reflexivity | exact H].
Qed.

(** X24, [DBHandler.ensure_connection]: a call on a live connection does
    not contact the server, and otherwise the call is a [connect]; so after
    a call that returns normally a second call changes nothing, and a call
    after [close] goes through [connect] again. *)
Theorem ensure_connection_reconnects_only_when_needed
    (srv : Connection.server) (reconnect_attempts : nat) (st : Connection.state) :
  let out := Connection.ensure_connection srv reconnect_attempts st in
  (fst out = Return tt ->
   Connection.ensure_connection srv reconnect_attempts (snd out)
   = (Return tt, snd out)) /\
  (Connection.is_connected st = true -> out = (Return tt, st)) /\
  Connection.ensure_connection srv reconnect_attempts (Connection.close st)
  = Connection.connect srv reconnect_attempts (Connection.close st).
Proof.
  cbv zeta. split; [|split].
  - intro Hret. apply ensure_connection_live.
    unfold Connection.ensure_connection in *.
    destruct (Connection.is_connected st) eqn:Hlive; cbn [fst snd] in *;
      [exact Hlive | apply connect_returned; exact Hret].
  - apply ensure_connection_live.
  - unfold Connection.ensure_connection. rewrite close_disconnects. reflexivity.
Qed.

(** ** When a surface is drawn *)

(** An optional entry that resolves to a number can be replaced by that
    number. *)
Lemma plot_heatmaps_resolved (calc_id : option Z) (n : int_entry)
    (base_spot base_vol : R) (strike_var ttm_var rate_var : entry)
    (spot_min_var spot_max_var vol_min_var vol_max_var : entry)
    (spot_min spot_max vol_min vol_max : R) (w : world) :
  entry_or spot_min_var (base_spot * 0.8) = Some spot_min ->
  entry_or spot_max_var (base_spot * 1.2) = Some spot_max ->
  entry_or vol_min_var (Rmax 0.01 (base_vol * 0.5)) = Some vol_min ->
  entry_or vol_max_var (Rmin 5.0 (base_vol * 1.5)) = Some vol_max ->
  plot_heatmaps calc_id n (Num base_spot) strike_var ttm_var (Num base_vol)
    rate_var spot_min_var spot_max_var vol_min_var vol_max_var w
  = plot_heatmaps calc_id n (Num base_spot) strike_var ttm_var (Num base_vol)
      rate_var (Num spot_min) (Num spot_max) (Num vol_min) (Num vol_max) w.
Proof.
  intros H1 H2 H3 H4.
  destruct spot_min_var; cbn in H1; inversion H1; subst;
    destruct spot_max_var; cbn in H2; inversion H2; subst;
    destruct vol_min_var; cbn in H3; inversion H3; subst;
    destruct vol_max_var; cbn in H4; inversion H4; subst;
    reflexivity.
Qed.

Ltac no_surface :=
  split;
  [ finish_run
  | split;
    [ split;
      [ intros (s & Hin); cbn [In] in Hin; exfalso; intuition discriminate
      | intros (? & [? ?] & [? ?] & ?); exfalso; (lia || lra || congruence) ]
    | intros _; reflexivity ] ].

(** X27, [plot_heatmaps] with an identifier, an integer resolution n and
    five numbers, the ranges being given or left empty: a surface is drawn
    exactly when n is at least 2, the resolved ranges satisfy 0 < min < max
    for spot and for volatility, and the strike is not zero, whether or not
    the samples could be stored; and when no surface is drawn the database
    is left unchanged. *)
Theorem surface_drawn_iff_request_valid (calc_id n : Z)
    (base_spot strike ttm base_vol rate : R)
    (spot_min_var spot_max_var vol_min_var vol_max_var : entry)
    (spot_min spot_max vol_min vol_max : R) (w : world) :
  entry_or spot_min_var (base_spot * 0.8) = Some spot_min ->
  entry_or spot_max_var (base_spot * 1.2) = Some spot_max ->
  entry_or vol_min_var (Rmax 0.01 (base_vol * 0.5)) = Some vol_min ->
  entry_or vol_max_var (Rmin 5.0 (base_vol * 1.5)) = Some vol_max ->
  exists (d' : DB.DBHandler) (added : list event),
    plot_heatmaps (Some calc_id) (IntNum n) (Num base_spot) (Num strike) (Num ttm)
      (Num base_vol) (Num rate) spot_min_var spot_max_var vol_min_var vol_max_var w
    = (Return tt, World d' (screen w ++ added)) /\
    ((exists s, In (Imshow s) added)
     <-> (2 <= n)%Z /\ 0 < spot_min < spot_max /\ 0 < vol_min < vol_max /\
         strike <> 0) /\
    ((~ exists s, In (Imshow s) added) -> d' = db w).
Proof.
  intros H1 H2 H3 H4.
  rewrite (plot_heatmaps_resolved _ _ _ _ _ _ _ _ _ _ _ _ _ _ _ _ H1 H2 H3 H4).
  clear H1 H2 H3 H4. destruct w as [d scr]. cbn [db screen].
  unfold plot_heatmaps. run_core. cbn.
  destruct (n <? 2)%Z eqn:Hn; [apply Z.ltb_lt in Hn | apply Z.ltb_ge in Hn].
  { exists d, [Log [Lit "Starting heatmap generation..."];
               ShowError "Heatmap error" [Lit "Resolution must be at least 2"];
               Log [Lit "Error while generating heatmap: ";
                    Lit "Resolution must be at least 2"]].
    no_surface. }
  unfold Rleb.
  destruct (Rle_dec spot_min 0) as [Hs0|Hs0]; cbn [orb].
  { exists d, [Log [Lit "Starting heatmap generation..."];
               ShowError "Heatmap error" [Lit "Spot ranges must be > 0"];
               Log [Lit "Error while generating heatmap: ";
                    Lit "Spot ranges must be > 0"]].
    no_surface. }
  destruct (Rle_dec spot_max 0) as [Hs1|Hs1].
  { exists d, [Log [Lit "Starting heatmap generation..."];
               ShowError "Heatmap error" [Lit "Spot ranges must be > 0"];
               Log [Lit "Error while generating heatmap: ";
                    Lit "Spot ranges must be > 0"]].
    no_surface. }
  destruct (Rle_dec spot_max spot_min) as [Hs|Hs].
  { exists d, [Log [Lit "Starting heatmap generation..."];
               ShowError "Heatmap error" [Lit "Max Spot must be greater than Min Spot"];
               Log [Lit "Error while generating heatmap: ";
                    Lit "Max Spot must be greater than Min Spot"]].
    no_surface. }
  destruct (Rle_dec vol_min 0) as [Hv0|Hv0]; cbn [orb].
  { exists d, [Log [Lit "Starting heatmap generation..."];
               ShowError "Heatmap error" [Lit "Vol ranges must be > 0"];
               Log [Lit "Error while generating heatmap: ";
                    Lit "Vol ranges must be > 0"]].
    no_surface. }
  destruct (Rle_dec vol_max 0) as [Hv1|Hv1].
  { exists d, [Log [Lit "Starting heatmap generation..."];
               ShowError "Heatmap error" [Lit "Vol ranges must be > 0"];
               Log [Lit "Error while generating heatmap: ";
                    Lit "Vol ranges must be > 0"]].
    no_surface. }
  destruct (Rle_dec vol_max vol_min) as [Hv|Hv].
  { exists d, [Log [Lit "Starting heatmap generation..."];
               ShowError "Heatmap error" [Lit "Max Vol must be greater than Min Vol"];
               Log [Lit "Error while generating heatmap: ";
                    Lit "Max Vol must be greater than Min Vol"]].
    no_surface. }
  assert (Hn' : (2 <= Z.to_nat n)%nat) by lia.
  set (ranges_log :=
         Log [Lit "Using spot range ["; Float 4 (Some spot_min); Lit ", ";
              Float 4 (Some spot_max); Lit "] and vol range [";
              Float 4 (Some vol_min); Lit ", "; Float 4 (Some vol_max);
              Lit "] with resolution "; Int (Some n)]).
  destruct (Req_dec_T strike 0) as [Hk|Hk].
  { subst strike. cbn. rewrite heatmap_sweep_zero_strike by exact Hn'.
    exists d, [Log [Lit "Starting heatmap generation..."]; ranges_log;
               ShowError "Heatmap error" [Lit "float division by zero"];
               Log [Lit "Error while generating heatmap: ";
                    Lit "float division by zero"]].
    no_surface. }
  cbn. rewrite (heatmap_sweep_grid ttm strike rate Hk) by exact Hn'.
  set (spots := linspace spot_min spot_max (Z.to_nat n)).
  set (vols := linspace vol_min vol_max (Z.to_nat n)).
  set (recs := grid_records ttm strike rate spots vols).
  set (s := Surface spots vols
              (grid BlackScholes.call_price ttm strike rate spots vols)
              (grid BlackScholes.put_price ttm strike rate spots vols)).
  set (params := map (fun rec : DB.record => (calc_id, rec)) recs).
  set (after :=
         [Imshow s; Log [Lit "Heatmap generation completed."];
          ShowInfo "Heatmaps Generated"
            [Lit "Heatmaps generated and saved to database successfully."]]).
  assert (Hdrawn : forall pre, exists s', In (Imshow s') (pre ++ after))
    by (intro pre; exists s; apply in_or_app; right; left; reflexivity).
  assert (Hvalid : (2 <= n)%Z /\ 0 < spot_min < spot_max /\
                   0 < vol_min < vol_max /\ strike <> 0)
    by (repeat split; (lia || lra || assumption)).
  unfold insert_heatmap_records, DB.execute_insert_heatmaps.
  cbv beta iota zeta delta
    [bind ret raise lift try_except try_except_Error emit log_message showinfo
       showwarning showerror db_execute db screen].
  cbn [fst snd]. fold params.
  destruct (DB.reachable d) eqn:Hup;
    [destruct (forallb (fun p => DB.has_calc d (fst p)) params) eqn:Hfk|].
  - exists (DB.Handler true (DB.option_pricing d)
              (DB.heatmap_data d ++ DB.number_rows (DB.next_heatmap_id d) params)
              (DB.next_calc_id d)
              (DB.next_heatmap_id d + Z.of_nat (List.length params))%Z).
    exists ([Log [Lit "Starting heatmap generation..."]; ranges_log;
             Log [Lit "Heatmaps generated successfully for calc_id=";
                  Int (Some calc_id); Lit "."];
             Log [Lit "Inserted "; Int (Some (Z.of_nat (List.length params)));
                  Lit " heatmap records for calc_id="; Int (Some calc_id);
                  Lit " to the database."]] ++ after).
    split; [cbn; rewrite <- !app_assoc; reflexivity|].
    split; [split; [intros _; exact Hvalid | intros _; apply Hdrawn]|].
    intro Hno. exfalso. apply Hno. apply Hdrawn.
  - exists d.
    exists ([Log [Lit "Starting heatmap generation..."]; ranges_log;
             ShowError "Database Error"
               [Lit "Could not insert heatmap records: ";
                Lit "Cannot add or update a child row: a foreign key constraint fails"]]
            ++ after).
    split; [cbn; rewrite <- !app_assoc; reflexivity|].
    split; [split; [intros _; exact Hvalid | intros _; apply Hdrawn]|].
    intros _. reflexivity.
  - exists d.
    exists ([Log [Lit "Starting heatmap generation..."]; ranges_log;
             ShowError "Database Error"
               [Lit "Could not insert heatmap records: ";
                Lit "Failed to connect to MySQL database"]]
            ++ after).
    split; [cbn; rewrite <- !app_assoc; reflexivity|].
    split; [split; [intros _; exact Hvalid | intros _; apply Hdrawn]|].
    intros _. reflexivity.
Qed.

Lemma surface_drawn_iff_request_valid_witness :
  exists (d' : DB.DBHandler) (added : list event),
    plot_heatmaps (Some 1%Z) (IntNum 12) (Num 100) (Num 100) (Num 1) (Num 0.2)
      (Num 0.05) Blank (Num 120) Blank (Num 0.3) one_calculation
    = (Return tt, World d' (screen one_calculation ++ added)) /\
    ((exists s, In (Imshow s) added)
     <-> (2 <= 12)%Z /\ 0 < 100 * 0.8 < 120 /\ 0 < Rmax 0.01 (0.2 * 0.5) < 0.3 /\
         100 <> 0) /\
    ((~ exists s, In (Imshow s) added) -> d' = db one_calculation).
Proof.
  exact (surface_drawn_iff_request_valid 1 12 100 100 1 0.2 0.05
           Blank (Num 120) Blank (Num 0.3) (100 * 0.8) 120
           (Rmax 0.01 (0.2 * 0.5)) 0.3 one_calculation
           eq_refl eq_refl eq_refl eq_refl).
Defined.

(** ** The annotations *)

Lemma ends_linspace (start stop : R) (num : nat) :
  (2 <= num)%nat -> ends (linspace start stop num) = Return (start, stop).
Proof.
  intro Hnum. destruct (linspace_head start stop num Hnum) as [rest E].
  unfold ends. rewrite E. rewrite <- E. f_equal. f_equal.
  rewrite linspace_closed_form by exact Hnum.
  destruct num as [|m]; [lia|]. rewrite seq_S, map_app. cbn [map Nat.add].
  rewrite last_last. unfold linspace_at. replace (S m - 1)%nat with m by lia.
  assert (INR m <> 0) by (apply not_0_INR; lia). field. assumption.
Qed.

Lemma length_flat_map_uniform {A B} (f : A -> list B) (m : nat) (l : list A) :
  (forall a, List.length (f a) = m) ->
  List.length (flat_map f l) = (List.length l * m)%nat.
Proof.
  intro Hf. induction l as [|a l IH]; [reflexivity|]. cbn [flat_map].
  rewrite length_app, Hf, IH. reflexivity.
Qed.

(** X28, the annotation loops on a drawn n x n matrix whose axes are the
    [linspace] ranges of the sweep: there is one text per cell, written row
    by row, showing the price of its cell; its x position differs from the
    spot at which the cell was priced by
    (max - min) * (n - 1 - 2 j) / (2 n (n - 1)), and likewise its y position
    from the volatility, so a text sits at the coordinates of its grid point
    only in the middle column and middle row of an odd resolution. *)
Theorem annotations_are_off_the_grid_points
    (spot_min spot_max vol_min vol_max : R) (n : nat) (prices : matrix) :
  (2 <= n)%nat -> shaped n n prices ->
  let spots := linspace spot_min spot_max n in
  let vols := linspace vol_min vol_max n in
  exists texts,
    annotate spots vols prices = Return texts /\
    List.length texts = (n * n)%nat /\
    forall i j, (i < n)%nat -> (j < n)%nat ->
      let a := nth (i * n + j) texts (Annotation 0 0 None black) in
      cell_text a = cell_at prices i j /\
      x_center a - nth j spots 0
      = (spot_max - spot_min) * (INR n - 1 - 2 * INR j) / (2 * INR n * (INR n - 1)) /\
      y_center a - nth i vols 0
      = (vol_max - vol_min) * (INR n - 1 - 2 * INR i) / (2 * INR n * (INR n - 1)) /\
      (spot_min <> spot_max ->
       (x_center a = nth j spots 0 <-> (2 * j + 1 = n)%nat)).
Proof.
  intros Hn [Hrows Hcols] spots vols.
  assert (Hn0 : INR n <> 0) by (apply not_0_INR; lia).
  assert (Hn1 : INR n - 1 <> 0).
  { assert (1 < INR n) by (change 1 with (INR 1); apply lt_INR; lia). lra. }
  assert (Hpred : INR (n - 1) = INR n - 1)
    by (rewrite minus_INR by lia; reflexivity).
  unfold annotate. unfold spots at 1, vols at 1.
  rewrite !ends_linspace by exact Hn.
  rewrite Hrows, (Hcols 0%nat) by lia. cbv zeta.
  set (g := fun i j : nat =>
              Annotation (spot_min + (INR j + 0.5) * ((spot_max - spot_min) / INR n))
                (vol_min + (INR i + 0.5) * ((vol_max - vol_min) / INR n))
                (cell_at prices i j) (colour_of prices (cell_at prices i j))).
  set (f := fun i : nat => map (g i) (seq 0 n)).
  assert (Hf : forall i, List.length (f i) = n)
    by (intro i; unfold f; rewrite length_map, length_seq; reflexivity).
  exists (flat_map f (seq 0 n)). split; [reflexivity|]. split.
  { rewrite (length_flat_map_uniform f n) by exact Hf.
    rewrite length_seq. reflexivity. }
  intros i j Hi Hj.
  set (a := nth (i * n + j) (flat_map f (seq 0 n)) (Annotation 0 0 None black)).
  assert (Ea : a = g i j).
  { unfold a.
    rewrite (nth_flat_map_uniform f n 0%nat (Annotation 0 0 None black) Hf (seq 0 n) i j)
      by (rewrite ?length_seq; lia).
    rewrite seq_nth by exact Hi. cbn [Nat.add]. unfold f.
    rewrite (nth_indep _ (Annotation 0 0 None black) (g i 0%nat))
      by (rewrite length_map, length_seq; exact Hj).
    rewrite (map_nth (g i) (seq 0 n) 0%nat j). rewrite seq_nth by exact Hj.
    reflexivity. }
  assert (Ex : x_center a - nth j spots 0
               = (spot_max - spot_min) * (INR n - 1 - 2 * INR j)
                 / (2 * INR n * (INR n - 1))).
  { rewrite Ea. unfold g, spots. cbn [x_center].
    rewrite linspace_nth by assumption. unfold linspace_at. rewrite Hpred.
    replace 0.5 with (1 / 2) by lra. field. split; assumption. }
  assert (Ey : y_center a - nth i vols 0
               = (vol_max - vol_min) * (INR n - 1 - 2 * INR i)
                 / (2 * INR n * (INR n - 1))).
  { rewrite Ea. unfold g, vols. cbn [y_center].
    rewrite linspace_nth by assumption. unfold linspace_at. rewrite Hpred.
    replace 0.5 with (1 / 2) by lra. field. split; assumption. }
  split; [rewrite Ea; reflexivity|]. split; [exact Ex|]. split; [exact Ey|].
  intro Hrange.
  assert (Hden : 2 * INR n * (INR n - 1) <> 0).
  { intro E. apply Rmult_integral in E. destruct E as [E|E]; [|contradiction].
    apply Rmult_integral in E. destruct E as [E|E]; [lra | contradiction]. }
  split.
  - intro E. rewrite E in Ex. unfold Rminus at 1 in Ex. rewrite Rplus_opp_r in Ex.
    symmetry in Ex. apply Rmult_integral in Ex. destruct Ex as [Ex|Ex].
    + apply Rmult_integral in Ex. destruct Ex as [Ex|Ex]; [exfalso; lra|].
      apply INR_eq. rewrite plus_INR, mult_INR. cbn [INR]. lra.
    + exfalso. exact (Rinv_neq_0_compat _ Hden Ex).
  - intro E. assert (Ez : INR n - 1 - 2 * INR j = 0).
    { rewrite <- E. rewrite plus_INR, mult_INR. cbn [INR]. lra. }
    rewrite Ez in Ex. unfold Rdiv in Ex. rewrite Rmult_0_r, Rmult_0_l in Ex. lra.
Qed.

Lemma annotations_are_off_the_grid_points_witness :
  shaped 2 2 (full 2 2 (Some 0)) /\
  exists texts,
    annotate (linspace 80 120 2) (linspace 0.1 0.3 2) (full 2 2 (Some 0))
    = Return texts /\
    List.length texts = 4%nat.
Proof.
  split; [apply full_shaped|].
  destruct (annotations_are_off_the_grid_points 80 120 0.1 0.3 2 (full 2 2 (Some 0)))
    as (texts & Hrun & Hlen & _); [lia | apply full_shaped |].
  exists texts. split; assumption.
Defined.

Lemma fold_left_Rmax_bounds (l : list R) :
  forall x, In (fold_left Rmax l x) (x :: l) /\
            forall y, In y (x :: l) -> y <= fold_left Rmax l x.
Proof.
  induction l as [|a l IH]; intro x; cbn [fold_left].
  - split; [left; reflexivity|]. intros y [<-|[]]. apply Rle_refl.
  - destruct (IH (Rmax x a)) as [Hin Hle]. split.
    + destruct Hin as [E|Hin]; [|right; right; exact Hin].
      rewrite <- E. unfold Rmax. destruct (Rle_dec x a); [right; left | left];
        reflexivity.
    + intros y Hy.
      assert (Hm : Rmax x a <= fold_left Rmax l (Rmax x a))
        by (apply Hle; left; reflexivity).
      destruct Hy as [<-|[<-|Hy]].
      * pose proof (Rmax_l x a). lra.
      * pose proof (Rmax_r x a). lra.
      * apply Hle. right. exact Hy.
Qed.

Lemma fold_left_Rmin_bounds (l : list R) :
  forall x, In (fold_left Rmin l x) (x :: l) /\
            forall y, In y (x :: l) -> fold_left Rmin l x <= y.
Proof.
  induction l as [|a l IH]; intro x; cbn [fold_left].
  - split; [left; reflexivity|]. intros y [<-|[]]. apply Rle_refl.
  - destruct (IH (Rmin x a)) as [Hin Hle]. split.
    + destruct Hin as [E|Hin]; [|right; right; exact Hin].
      rewrite <- E. unfold Rmin. destruct (Rle_dec x a); [left | right; left];
        reflexivity.
    + intros y Hy.
      assert (Hm : fold_left Rmin l (Rmin x a) <= Rmin x a)
        by (apply Hle; left; reflexivity).
      destruct Hy as [<-|[<-|Hy]].
      * pose proof (Rmin_l x a). lra.
      * pose proof (Rmin_r x a). lra.
      * apply Hle. right. exact Hy.
Qed.

(** X29, the colour of the annotations: when the matrix holds a number,
    its largest and smallest numbers lo and hi exist, and the text of a cell
    with the number p is white exactly when p lies above the midrange,
    2 p > lo + hi; so the smallest cell is always black, the largest is
    white unless all numbers are equal, and a nan cell is black. *)
Theorem white_text_above_the_midrange (m : matrix) :
  finite_cells m <> [] ->
  exists lo hi,
    In lo (finite_cells m) /\ In hi (finite_cells m) /\
    (forall x, In x (finite_cells m) -> lo <= x <= hi) /\
    (forall x, colour_of m (Some x) = white <-> lo + hi < 2 * x) /\
    colour_of m (Some lo) = black /\
    (lo < hi -> colour_of m (Some hi) = white) /\
    colour_of m None = black.
Proof.
  intro Hp. unfold colour_of, threshold, nanmax, nanmin.
  destruct (finite_cells m) as [|x0 rest] eqn:E; [contradiction Hp; reflexivity|].
  destruct (fold_left_Rmax_bounds rest x0) as [Hhi_in Hhi].
  destruct (fold_left_Rmin_bounds rest x0) as [Hlo_in Hlo].
  set (hi := fold_left Rmax rest x0) in *. set (lo := fold_left Rmin rest x0) in *.
  assert (Hcol : forall x,
             (if Rlt_dec ((hi + lo) / 2.0) x then white else black) = white
             <-> lo + hi < 2 * x).
  { intro x. destruct (Rlt_dec ((hi + lo) / 2.0) x) as [H|H].
    - split; [intros _; lra | reflexivity].
    - split; [discriminate | intro; exfalso; apply H; lra]. }
  assert (Hle : lo <= hi) by (pose proof (Hhi lo Hlo_in); lra).
  exists lo, hi. split; [exact Hlo_in|]. split; [exact Hhi_in|].
  split; [intros x Hx; split; [apply Hlo | apply Hhi]; exact Hx|].
  split; [exact Hcol|]. split; [|split; [|reflexivity]].
  - destruct (Rlt_dec ((hi + lo) / 2.0) lo) as [H|H]; [exfalso; lra | reflexivity].
  - intro Hlt. apply Hcol. lra.
Qed.

Lemma white_text_above_the_midrange_witness :
  exists lo hi,
    (forall x, colour_of [[Some 1; None]; [Some 3; Some 2]] (Some x) = white
               <-> lo + hi < 2 * x) /\
    colour_of [[Some 1; None]; [Some 3; Some 2]] (Some lo) = black /\
    (lo < hi -> colour_of [[Some 1; None]; [Some 3; Some 2]] (Some hi) = white).
Proof.
  destruct (white_text_above_the_midrange [[Some 1; None]; [Some 3; Some 2]])
    as (lo & hi & _ & _ & _ & Hcol & Hlo & Hhi & _); [cbn; discriminate|].
  exists lo, hi. split; [exact Hcol|]. split; [exact Hlo | exact Hhi].
Defined.

(** ** The default ranges in use *)

Ltac range_rejected :=
  split;
  [ finish_run
  | split;
    [ intros [[? ?] [? ?]]; exfalso; lra
    | intros _; split;
      [ intros s' Hin; cbn [In] in Hin; intuition discriminate
      | split; [reflexivity | eexists; right; left; reflexivity] ] ] ].

(** What [plot_heatmaps] does with the ranges it has read, for a resolution
    of at least 2 and a strike other than zero: it checks them, and when
    they pass it logs them, sweeps the grid they span and draws and stores
    that grid. *)
Lemma sweep_over_ranges (calc_id n : Z)
    (base_spot strike ttm base_vol rate spot_min spot_max vol_min vol_max : R)
    (w : world) :
  (2 <= n)%Z -> strike <> 0 ->
  let spots := linspace spot_min spot_max (Z.to_nat n) in
  let vols := linspace vol_min vol_max (Z.to_nat n) in
  let s := Surface spots vols
             (grid BlackScholes.call_price ttm strike rate spots vols)
             (grid BlackScholes.put_price ttm strike rate spots vols) in
  let recs := grid_records ttm strike rate spots vols in
  exists (d' : DB.DBHandler) (added : list event),
    plot_heatmaps (Some calc_id) (IntNum n) (Num base_spot) (Num strike) (Num ttm)
      (Num base_vol) (Num rate) (Num spot_min) (Num spot_max) (Num vol_min)
      (Num vol_max) w
    = (Return tt, World d' (screen w ++ added)) /\
    (0 < spot_min < spot_max /\ 0 < vol_min < vol_max ->
     In (Log [Lit "Using spot range ["; Float 4 (Some spot_min); Lit ", ";
              Float 4 (Some spot_max); Lit "] and vol range [";
              Float 4 (Some vol_min); Lit ", "; Float 4 (Some vol_max);
              Lit "] with resolution "; Int (Some n)]) added /\
     In (Imshow s) added /\
     (forall s', In (Imshow s') added -> s' = s) /\
     (DB.reachable (db w) = true -> DB.has_calc (db w) calc_id = true ->
      DB.heatmap_data d'
      = DB.heatmap_data (db w) ++
          DB.number_rows (DB.next_heatmap_id (db w))
            (map (fun rec => (calc_id, rec)) recs))) /\
    (~ (0 < spot_min < spot_max /\ 0 < vol_min < vol_max) ->
     (forall s', ~ In (Imshow s') added) /\
     d' = db w /\
     exists msg, In (ShowError "Heatmap error" msg) added).
Proof.
  intros Hn Hk spots vols s recs.
  assert (Hn' : (2 <= Z.to_nat n)%nat) by lia.
  destruct w as [d scr]. cbn [db screen].
  unfold plot_heatmaps. run_core. cbn.
  replace (n <? 2)%Z with false by (symmetry; apply Z.ltb_ge; exact Hn).
  unfold Rleb.
  destruct (Rle_dec spot_min 0) as [Hs0|Hs0]; cbn [orb].
  { exists d, [Log [Lit "Starting heatmap generation..."];
               ShowError "Heatmap error" [Lit "Spot ranges must be > 0"];
               Log [Lit "Error while generating heatmap: ";
                    Lit "Spot ranges must be > 0"]].
    range_rejected. }
  destruct (Rle_dec spot_max 0) as [Hs1|Hs1].
  { exists d, [Log [Lit "Starting heatmap generation..."];
               ShowError "Heatmap error" [Lit "Spot ranges must be > 0"];
               Log [Lit "Error while generating heatmap: ";
                    Lit "Spot ranges must be > 0"]].
    range_rejected. }
  destruct (Rle_dec spot_max spot_min) as [Hs|Hs].
  { exists d, [Log [Lit "Starting heatmap generation..."];
               ShowError "Heatmap error" [Lit "Max Spot must be greater than Min Spot"];
               Log [Lit "Error while generating heatmap: ";
                    Lit "Max Spot must be greater than Min Spot"]].
    range_rejected. }
  destruct (Rle_dec vol_min 0) as [Hv0|Hv0]; cbn [orb].
  { exists d, [Log [Lit "Starting heatmap generation..."];
               ShowError "Heatmap error" [Lit "Vol ranges must be > 0"];
               Log [Lit "Error while generating heatmap: ";
                    Lit "Vol ranges must be > 0"]].
    range_rejected. }
  destruct (Rle_dec vol_max 0) as [Hv1|Hv1].
  { exists d, [Log [Lit "Starting heatmap generation..."];
               ShowError "Heatmap error" [Lit "Vol ranges must be > 0"];
               Log [Lit "Error while generating heatmap: ";
                    Lit "Vol ranges must be > 0"]].
    range_rejected. }
  destruct (Rle_dec vol_max vol_min) as [Hv|Hv].
  { exists d, [Log [Lit "Starting heatmap generation..."];
               ShowError "Heatmap error" [Lit "Max Vol must be greater than Min Vol"];
               Log [Lit "Error while generating heatmap: ";
                    Lit "Max Vol must be greater than Min Vol"]].
    range_rejected. }
  assert (Hvalid : 0 < spot_min < spot_max /\ 0 < vol_min < vol_max)
    by (repeat split; lra).
  set (ranges_log :=
         Log [Lit "Using spot range ["; Float 4 (Some spot_min); Lit ", ";
              Float 4 (Some spot_max); Lit "] and vol range [";
              Float 4 (Some vol_min); Lit ", "; Float 4 (Some vol_max);
              Lit "] with resolution "; Int (Some n)]).
  cbn. rewrite (heatmap_sweep_grid ttm strike rate Hk) by exact Hn'.
  fold spots vols. fold recs s.
  set (params := map (fun rec : DB.record => (calc_id, rec)) recs).
  set (after :=
         [Imshow s; Log [Lit "Heatmap generation completed."];
          ShowInfo "Heatmaps Generated"
            [Lit "Heatmaps generated and saved to database successfully."]]).
  unfold insert_heatmap_records, DB.execute_insert_heatmaps.
  cbv beta iota zeta delta
    [bind ret raise lift try_except try_except_Error emit log_message showinfo
       showwarning showerror db_execute db screen].
  cbn [fst snd]. fold params.
  destruct (DB.reachable d) eqn:Hup;
    [destruct (forallb (fun p => DB.has_calc d (fst p)) params) eqn:Hfk|].
  - exists (DB.Handler true (DB.option_pricing d)
              (DB.heatmap_data d ++ DB.number_rows (DB.next_heatmap_id d) params)
              (DB.next_calc_id d)
              (DB.next_heatmap_id d + Z.of_nat (List.length params))%Z).
    exists ([Log [Lit "Starting heatmap generation..."]; ranges_log;
             Log [Lit "Heatmaps generated successfully for calc_id=";
                  Int (Some calc_id); Lit "."];
             Log [Lit "Inserted "; Int (Some (Z.of_nat (List.length params)));
                  Lit " heatmap records for calc_id="; Int (Some calc_id);
                  Lit " to the database."]] ++ after).
    split; [cbn; rewrite <- !app_assoc; reflexivity|].
    split; [|intro Hno; contradiction].
    intros _. clearbody s params.
    split; [right; left; reflexivity|].
    split; [do 4 right; left; reflexivity|].
    split; [|intros _ _; reflexivity].
    intros s' Hin. cbn [In app after] in Hin.
    destruct Hin as [H|[H|[H|[H|[H|[H|[H|[]]]]]]]]; try discriminate H;
      try (unfold ranges_log in H; discriminate H).
    injection H as <-. reflexivity.
  - exists d.
    exists ([Log [Lit "Starting heatmap generation..."]; ranges_log;
             ShowError "Database Error"
               [Lit "Could not insert heatmap records: ";
                Lit "Cannot add or update a child row: a foreign key constraint fails"]]
            ++ after).
    split; [cbn; rewrite <- !app_assoc; reflexivity|].
    split; [|intro Hno; contradiction].
    intros _.
    assert (Hparent : DB.has_calc d calc_id = true -> False).
    { intro Hc. unfold params in Hfk.
      rewrite (has_calc_params d calc_id recs Hc) in Hfk. discriminate Hfk. }
    clearbody s params.
    split; [right; left; reflexivity|].
    split; [do 3 right; left; reflexivity|].
    split; [|intros _ Hc; exfalso; exact (Hparent Hc)].
    intros s' Hin. cbn [In app after] in Hin.
    destruct Hin as [H|[H|[H|[H|[H|[H|[]]]]]]]; try discriminate H;
      try (unfold ranges_log in H; discriminate H).
    injection H as <-. reflexivity.
  - exists d.
    exists ([Log [Lit "Starting heatmap generation..."]; ranges_log;
             ShowError "Database Error"
               [Lit "Could not insert heatmap records: ";
                Lit "Failed to connect to MySQL database"]]
            ++ after).
    split; [cbn; rewrite <- !app_assoc; reflexivity|].
    split; [|intro Hno; contradiction].
    intros _. clearbody s params.
    split; [right; left; reflexivity|].
    split; [do 3 right; left; reflexivity|].
    split; [|intros Hup'; discriminate Hup'].
    intros s' Hin. cbn [In app after] in Hin.
    destruct Hin as [H|[H|[H|[H|[H|[H|[]]]]]]]; try discriminate H;
      try (unfold ranges_log in H; discriminate H).
    injection H as <-. reflexivity.
Qed.

(** C9, default range policy: a generation request that supplies no range
    (with an identifier, a resolution of at least 2, five numbers and a
    strike other than zero) is carried out with the spot range
    [0.8 * base.spot, 1.2 * base.spot] and the volatility range
    [max(0.01, 0.5 * base.volatility), min(5.0, 1.5 * base.volatility)]:
    these are the ranges that are validated, and when they pass (0 < min <
    max for both) they are the ranges that are logged, and the surface that
    is drawn, the only one, has the axes of n samples from the minimum to
    the maximum of each and the prices computed on them; its records are
    the rows that are stored when the server is reachable and holds the
    calculation.  When they do not pass, the request is refused with an
    error, nothing is drawn and the database is unchanged. *)
Theorem default_ranges (calc_id n : Z) (base_spot strike ttm base_vol rate : R)
    (w : world) :
  (2 <= n)%Z -> strike <> 0 ->
  let spot_min := 0.8 * base_spot in
  let spot_max := 1.2 * base_spot in
  let vol_min := Rmax 0.01 (0.5 * base_vol) in
  let vol_max := Rmin 5.0 (1.5 * base_vol) in
  let spots := linspace spot_min spot_max (Z.to_nat n) in
  let vols := linspace vol_min vol_max (Z.to_nat n) in
  let s := Surface spots vols
             (grid BlackScholes.call_price ttm strike rate spots vols)
             (grid BlackScholes.put_price ttm strike rate spots vols) in
  let recs := grid_records ttm strike rate spots vols in
  exists (d' : DB.DBHandler) (added : list event),
    plot_heatmaps (Some calc_id) (IntNum n) (Num base_spot) (Num strike) (Num ttm)
      (Num base_vol) (Num rate) Blank Blank Blank Blank w
    = (Return tt, World d' (screen w ++ added)) /\
    (0 < spot_min < spot_max /\ 0 < vol_min < vol_max ->
     In (Log [Lit "Using spot range ["; Float 4 (Some spot_min); Lit ", ";
              Float 4 (Some spot_max); Lit "] and vol range [";
              Float 4 (Some vol_min); Lit ", "; Float 4 (Some vol_max);
              Lit "] with resolution "; Int (Some n)]) added /\
     In (Imshow s) added /\
     (forall s', In (Imshow s') added -> s' = s) /\
     (DB.reachable (db w) = true -> DB.has_calc (db w) calc_id = true ->
      DB.heatmap_data d'
      = DB.heatmap_data (db w) ++
          DB.number_rows (DB.next_heatmap_id (db w))
            (map (fun rec => (calc_id, rec)) recs))) /\
    (~ (0 < spot_min < spot_max /\ 0 < vol_min < vol_max) ->
     (forall s', ~ In (Imshow s') added) /\
     d' = db w /\
     exists msg, In (ShowError "Heatmap error" msg) added).
Proof.
  intros Hn Hk. cbv zeta.
  rewrite (Rmult_comm 0.8 base_spot), (Rmult_comm 1.2 base_spot),
    (Rmult_comm 0.5 base_vol), (Rmult_comm 1.5 base_vol).
  rewrite (plot_heatmaps_resolved (Some calc_id) (IntNum n) base_spot base_vol
             (Num strike) (Num ttm) (Num rate) Blank Blank Blank Blank
             (base_spot * 0.8) (base_spot * 1.2)
             (Rmax 0.01 (base_vol * 0.5)) (Rmin 5.0 (base_vol * 1.5)) w
             eq_refl eq_refl eq_refl eq_refl).
  exact (sweep_over_ranges calc_id n base_spot strike ttm base_vol rate
           (base_spot * 0.8) (base_spot * 1.2)
           (Rmax 0.01 (base_vol * 0.5)) (Rmin 5.0 (base_vol * 1.5)) w Hn Hk).
Qed.

Lemma default_ranges_witness :
  exists (d' : DB.DBHandler) (added : list event),
    plot_heatmaps (Some 1%Z) (IntNum 12) (Num 100) (Num 100) (Num 1) (Num 0.2)
      (Num 0.05) Blank Blank Blank Blank one_calculation
    = (Return tt, World d' (screen one_calculation ++ added)) /\
    In (Imshow
          (Surface (linspace (0.8 * 100) (1.2 * 100) (Z.to_nat 12))
             (linspace (Rmax 0.01 (0.5 * 0.2)) (Rmin 5.0 (1.5 * 0.2)) (Z.to_nat 12))
             (grid BlackScholes.call_price 1 100 0.05
                (linspace (0.8 * 100) (1.2 * 100) (Z.to_nat 12))
                (linspace (Rmax 0.01 (0.5 * 0.2)) (Rmin 5.0 (1.5 * 0.2)) (Z.to_nat 12)))
             (grid BlackScholes.put_price 1 100 0.05
                (linspace (0.8 * 100) (1.2 * 100) (Z.to_nat 12))
                (linspace (Rmax 0.01 (0.5 * 0.2)) (Rmin 5.0 (1.5 * 0.2)) (Z.to_nat 12)))))
      added /\
    DB.heatmap_data d'
    = DB.number_rows 1
        (map (fun rec => (1%Z, rec))
           (grid_records 1 100 0.05
              (linspace (0.8 * 100) (1.2 * 100) (Z.to_nat 12))
              (linspace (Rmax 0.01 (0.5 * 0.2)) (Rmin 5.0 (1.5 * 0.2)) (Z.to_nat 12)))).
Proof.
  destruct (default_ranges 1 12 100 100 1 0.2 0.05 one_calculation)
    as (d' & added & Hrun & Hvalid & _); [lia | lra |].
  destruct Hvalid as (_ & Hdrawn & _ & Hstored).
  { split; [lra|]. unfold Rmax, Rmin.
    destruct (Rle_dec 0.01 (0.5 * 0.2)), (Rle_dec 5.0 (1.5 * 0.2)); lra. }
  exists d', added. split; [exact Hrun|]. split; [exact Hdrawn|].
  exact (Hstored eq_refl eq_refl).
Defined.
